(** * node-json-file-cache: the sharded JSON file cache, embedded and verified

    The development follows the single source class [JsonFileCache]:
    a key is hashed with MD5, the first four hexadecimal characters of the
    digest pick a shard file [<root>/<c0>/<c1>/<c2>/<c3>.json], and every
    operation is a synchronous read-modify-write of that one file.

    Layout of the file:
    - [MD5]   : the digest function of RFC 1321 (what [crypto.createHash('md5')]
                computes), on the UTF-8 bytes of the key;
    - [Double]: JavaScript numbers (IEEE 754 binary64) and the decimal
                literals that [JSON.stringify] writes and [JSON.parse] reads;
    - [Js]    : the JavaScript values that the class handles and the handful
                of object operations it performs on them;
    - [Fs]    : the part of Node's synchronous [fs] API the class calls, over
                a directory tree, in a state-and-exception monad;
    - [Cache] : the methods of the class, one definition per method;
    - [Store] : the vocabulary of the statements: what a path holds, store
                states, the traversal of the tree, invariants;
    - the properties of the class, each section after the lemmas it needs. *)

From Stdlib Require Import List String Ascii ZArith Lia Bool Arith PeanoNat Permutation.
Import ListNotations.
Local Open Scope string_scope.
Local Open Scope list_scope.

(* ------------------------------------------------------------------ *)
(** ** MD5 (RFC 1321) *)

Module MD5.

Local Open Scope Z_scope.

(** 32-bit words are integers kept in [0, 2^32). *)
Definition wrap (x : Z) : Z := x mod 4294967296.

Definition rotl (x c : Z) : Z :=
  wrap (Z.lor (Z.shiftl x c) (Z.shiftr x (32 - c))).

Definition not32 (x : Z) : Z := Z.lxor x 4294967295.

(** [K i = floor (2^32 * |sin (i + 1)|)]. *)
Definition K : list Z :=
  [ 3614090360; 3905402710; 606105819; 3250441966; 4118548399; 1200080426;
    2821735955; 4249261313; 1770035416; 2336552879; 4294925233; 2304563134;
    1804603682; 4254626195; 2792965006; 1236535329; 4129170786; 3225465664;
    643717713; 3921069994; 3593408605; 38016083; 3634488961; 3889429448;
    568446438; 3275163606; 4107603335; 1163531501; 2850285829; 4243563512;
    1735328473; 2368359562; 4294588738; 2272392833; 1839030562; 4259657740;
    2763975236; 1272893353; 4139469664; 3200236656; 681279174; 3936430074;
    3572445317; 76029189; 3654602809; 3873151461; 530742520; 3299628645;
    4096336452; 1126891415; 2878612391; 4237533241; 1700485571; 2399980690;
    4293915773; 2240044497; 1873313359; 4264355552; 2734768916; 1309151649;
    4149444226; 3174756917; 718787259; 3951481745 ].

Definition shifts : list Z :=
  [ 7; 12; 17; 22; 7; 12; 17; 22; 7; 12; 17; 22; 7; 12; 17; 22;
    5; 9; 14; 20; 5; 9; 14; 20; 5; 9; 14; 20; 5; 9; 14; 20;
    4; 11; 16; 23; 4; 11; 16; 23; 4; 11; 16; 23; 4; 11; 16; 23;
    6; 10; 15; 21; 6; 10; 15; 21; 6; 10; 15; 21; 6; 10; 15; 21 ].

Record state := mkState { sA : Z; sB : Z; sC : Z; sD : Z }.

Definition init : state :=
  mkState 1732584193 4023233417 2562383102 271733878.

(** Little-endian encodings. *)
Definition le_bytes (n : nat) (x : Z) : list Z :=
  map (fun i => (x / 2 ^ (8 * Z.of_nat i)) mod 256) (seq 0 n).

Fixpoint le_word (bs : list Z) : Z :=
  match bs with
  | [] => 0
  | b :: bs' => b + 256 * le_word bs'
  end.

Fixpoint words (n : nat) (bs : list Z) : list Z :=
  match n with
  | O => []
  | S n' => le_word (firstn 4 bs) :: words n' (skipn 4 bs)
  end.

(** One of the 64 operations of a block. *)
Definition step (M : list Z) (st : state) (i : nat) : state :=
  let '(mkState a b c d) := st in
  let iz := Z.of_nat i in
  let '(f, g) :=
    if iz <? 16 then (Z.lor (Z.land b c) (Z.land (not32 b) d), iz)
    else if iz <? 32 then
      (Z.lor (Z.land d b) (Z.land (not32 d) c), (5 * iz + 1) mod 16)
    else if iz <? 48 then (Z.lxor (Z.lxor b c) d, (3 * iz + 5) mod 16)
    else (Z.lxor c (Z.lor b (not32 d)), (7 * iz) mod 16) in
  let f' := wrap (f + a + nth i K 0 + nth (Z.to_nat g) M 0) in
  mkState d (wrap (b + rotl f' (nth i shifts 0))) b c.

Definition block (st : state) (chunk : list Z) : state :=
  let M := words 16 chunk in
  let st' := fold_left (step M) (seq 0 64) st in
  mkState (wrap (sA st + sA st')) (wrap (sB st + sB st'))
          (wrap (sC st + sC st')) (wrap (sD st + sD st')).

(** The message, a single 1 bit, zeros up to 56 mod 64 bytes, and the bit
    length of the message on 64 bits. *)
Definition pad (msg : list Z) : list Z :=
  let len := Z.of_nat (List.length msg) in
  let zeros := Z.to_nat ((55 - len) mod 64) in
  msg ++ [128] ++ repeat 0 zeros ++ le_bytes 8 ((8 * len) mod 2 ^ 64).

Fixpoint blocks (n : nat) (st : state) (bs : list Z) : state :=
  match n with
  | O => st
  | S n' => blocks n' (block st (firstn 64 bs)) (skipn 64 bs)
  end.

Definition digest (msg : list Z) : list Z :=
  let p := pad msg in
  let st := blocks (List.length p / 64) init p in
  le_bytes 4 (sA st) ++ le_bytes 4 (sB st)
    ++ le_bytes 4 (sC st) ++ le_bytes 4 (sD st).

Definition hexdigits : list ascii :=
  list_ascii_of_string "0123456789abcdef".

Definition hexdigit (n : Z) : ascii := nth (Z.to_nat n) hexdigits "0"%char.

Fixpoint hex (bs : list Z) : string :=
  match bs with
  | [] => EmptyString
  | b :: bs' => String (hexdigit (b / 16)) (String (hexdigit (b mod 16)) (hex bs'))
  end.

Definition bytes_of_string (s : string) : list Z :=
  map (fun a => Z.of_N (N_of_ascii a)) (list_ascii_of_string s).

(** [crypto.createHash('md5').update(s).digest('hex')], [s] given by its
    UTF-8 bytes. *)
Definition md5_hex (s : string) : string := hex (digest (bytes_of_string s)).

End MD5.

(* ------------------------------------------------------------------ *)
(** ** Association lists

    JavaScript objects and directories both keep their entries in order:
    [Object.values] and [readdirSync] enumerate them, so both are association
    lists.  A lookup takes the first entry of a name, an update replaces it in
    place or appends a new entry, a removal drops the name. *)

Section Assoc.

Context {A : Type}.

Fixpoint assoc (k : string) (l : list (string * A)) : option A :=
  match l with
  | [] => None
  | (k', v) :: l' => if String.eqb k k' then Some v else assoc k l'
  end.

Fixpoint set_entry (k : string) (v : A) (l : list (string * A)) : list (string * A) :=
  match l with
  | [] => [(k, v)]
  | (k', v') :: l' =>
      if String.eqb k k' then (k', v) :: l' else (k', v') :: set_entry k v l'
  end.

Definition remove_entry (k : string) (l : list (string * A)) : list (string * A) :=
  filter (fun e => negb (String.eqb k (fst e))) l.

End Assoc.

(* ------------------------------------------------------------------ *)
(** ** JavaScript numbers and their decimal literals *)

Module Double.

Local Open Scope Z_scope.

(** A Number: [NaN], an infinity, or the finite number
    [(-1)^neg * m * 2^e]; both zeros are there. *)
Inductive number : Type :=
| NaN
| Infinity (neg : bool)
| Finite (neg : bool) (m e : Z).

Definition two52 : Z := 4503599627370496.
Definition two53 : Z := 9007199254740992.

(** The finite terms that are binary64 numbers, each written in one way:
    53 bits of mantissa, the exponent of a normal number, or the least
    exponent for a subnormal number and for zero. *)
Definition is_double (x : number) : bool :=
  match x with
  | Finite _ m e =>
      (0 <=? m) && (m <? two53) && (-1074 <=? e) && (e <=? 971)
      && ((two52 <=? m) || (e =? -1074))
  | _ => true
  end.

Definition is_finite (x : number) : bool :=
  match x with
  | Finite _ _ _ => true
  | _ => false
  end.

(** [-0]. *)
Definition is_negative_zero (x : number) : bool :=
  match x with
  | Finite true 0 _ => true
  | _ => false
  end.

(** The number with the sign of a zero dropped. *)
Definition positive_zero (x : number) : number :=
  match x with
  | Finite _ 0 e => Finite false 0 e
  | _ => x
  end.

Definition number_eqb (x y : number) : bool :=
  match x, y with
  | NaN, NaN => true
  | Infinity a, Infinity b => Bool.eqb a b
  | Finite a m e, Finite b m' e' => Bool.eqb a b && (m =? m') && (e =? e')
  | _, _ => false
  end.

(** [ToBoolean] of a number: false for the zeros and [NaN]. *)
Definition number_truthy (x : number) : bool :=
  match x with
  | NaN => false
  | Infinity _ => true
  | Finite _ m _ => negb (m =? 0)
  end.

(** [q + r/d] rounded to the nearest integer, a tie to the even one
    ([0 <= r < d]). *)
Definition round_half_even (q r d : Z) : Z :=
  match 2 * r ?= d with
  | Lt => q
  | Gt => q + 1
  | Eq => if Z.even q then q else q + 1
  end.

(** The Number value of the ratio [n / d] ([0 <= n], [0 < d]) with the
    sign [neg]: the binary64 number nearest to it, a tie to the even
    mantissa, an infinity beyond the largest one.  [N + r/d] is the ratio
    in units of [2^-1074], of which every binary64 number is a multiple. *)
Definition number_of_ratio (neg : bool) (n d : Z) : number :=
  let a := n * 2 ^ 1074 in
  let N := a / d in
  let r := a mod d in
  let b := Z.log2 N in
  if b <=? 52 then
    let m := round_half_even N r d in
    if m =? two53 then Finite neg two52 (-1073) else Finite neg m (-1074)
  else
    let s := b - 52 in
    let m := round_half_even (N / 2 ^ s) ((N mod 2 ^ s) * d + r) (d * 2 ^ s) in
    let m' := if m =? two53 then two52 else m in
    let e' := if m =? two53 then s - 1073 else s - 1074 in
    if 971 <? e' then Infinity neg else Finite neg m' e'.

(** An integer as a Number. *)
Definition number_of_Z (z : Z) : number := number_of_ratio (z <? 0) (Z.abs z) 1.

(** A number literal of a JSON text: [(-1)^neg * digits * 10^exp]. *)
Record decimal : Type := mkDecimal { d_neg : bool; d_digits : Z; d_exp : Z }.

(** What [JSON.parse] reads a literal as. *)
Definition read_number (l : decimal) : number :=
  if 0 <=? d_exp l
  then number_of_ratio (d_neg l) (d_digits l * 10 ^ d_exp l) 1
  else number_of_ratio (d_neg l) (d_digits l) (10 ^ (- d_exp l)).

(** The literal whose value is exactly [m * 2^e]. *)
Definition exact_decimal (neg : bool) (m e : Z) : decimal :=
  if 0 <=? e then mkDecimal neg (m * 2 ^ e) 0 else mkDecimal neg (m * 5 ^ (- e)) e.

(** [vn / vd < 10^n]. *)
Definition below_pow10 (vn vd n : Z) : bool :=
  if 0 <=? n then vn <? vd * 10 ^ n else vn * 10 ^ (- n) <? vd.

(** The least [n] from a lower estimate on with [vn / vd < 10^n]. *)
Fixpoint decimal_exponent (fuel : nat) (vn vd n : Z) : Z :=
  match fuel with
  | O => n
  | S fuel' => if below_pow10 vn vd n then n else decimal_exponent fuel' vn vd (n + 1)
  end.

(** [floor ((vn / vd) / 10^t)]. *)
Definition scaled_floor (vn vd t : Z) : Z :=
  if 0 <=? t then vn / (vd * 10 ^ t) else (vn * 10 ^ (- t)) / vd.

(** Of [s * 10^t] and [(s + 1) * 10^t], whether the first is the nearer to
    [vn / vd] (the even one on a tie). *)
Definition nearer_low (vn vd s t : Z) : bool :=
  let c := if 0 <=? t then (2 * vn ?= (2 * s + 1) * 10 ^ t * vd)
           else (2 * vn * 10 ^ (- t) ?= (2 * s + 1) * vd) in
  match c with
  | Lt => true
  | Gt => false
  | Eq => Z.even s
  end.

(** [Number::toString]: the digits [s] and exponent of the shortest
    literal, of [k] digits or more, whose Number value is [x]; of two such
    literals of one length the nearer to [x]. *)
Fixpoint shortest (fuel : nat) (x : number) (neg : bool) (vn vd n10 k : Z)
  : option decimal :=
  match fuel with
  | O => None
  | S fuel' =>
      let t := n10 - k in
      let lo := scaled_floor vn vd t in
      let ok_lo := number_eqb (read_number (mkDecimal neg lo t)) x in
      let ok_hi := number_eqb (read_number (mkDecimal neg (lo + 1) t)) x in
      if ok_lo && ok_hi then
        Some (mkDecimal neg (if nearer_low vn vd lo t then lo else lo + 1) t)
      else if ok_lo then Some (mkDecimal neg lo t)
      else if ok_hi then Some (mkDecimal neg (lo + 1) t)
      else shortest fuel' x neg vn vd n10 (k + 1)
  end.

(** The literal that [JSON.stringify] writes for a number; none for [NaN]
    and the infinities, for which it writes [null].  Both zeros are written
    [0].  Seventeen digits are enough for every binary64 number; the exact
    literal stands for the case that the search ends without one. *)
Definition print_number (x : number) : option decimal :=
  match x with
  | NaN => None
  | Infinity _ => None
  | Finite neg m e =>
      if m =? 0 then Some (mkDecimal false 0 0)
      else
        let vn := if 0 <=? e then m * 2 ^ e else m in
        let vd := if 0 <=? e then 1 else 2 ^ (- e) in
        let est := ((Z.log2 vn - Z.log2 vd - 1) * 30103) / 100000 in
        let n10 := decimal_exponent 4 vn vd est in
        match shortest 17 x neg vn vd n10 1 with
        | Some l => Some l
        | None => Some (exact_decimal neg m e)
        end
  end.

End Double.

(* ------------------------------------------------------------------ *)
(** ** JavaScript values and exceptions *)

Module Js.

Import Double.

(** The numbers of a document: the binary64 numbers that are finite and not
    [-0].  They are the numbers that a JSON text written by [JSON.stringify]
    holds. *)
Definition stableb (x : number) : bool :=
  is_double x && is_finite x && negb (is_negative_zero x).

Record jnumber : Type := mkJnumber { jn_value : number; jn_stable : stableb jn_value = true }.

Definition stable_of (x : number) : option jnumber :=
  (if stableb x as b return stableb x = b -> option jnumber
   then fun H => Some (mkJnumber x H)
   else fun _ => None) eq_refl.

Definition jzero : jnumber := mkJnumber (Finite false 0 (-1074)) eq_refl.

(** An integer literal as a number of a document. *)
Definition jnumber_of_Z (z : Z) : jnumber :=
  match stable_of (number_of_Z z) with
  | Some n => n
  | None => jzero
  end.
Coercion jnumber_of_Z : Z >-> jnumber.
Bind Scope Z_scope with jnumber.


(** The values of the serialization format, as a document holds them.  The
    properties of an object are listed in the order in which JavaScript
    enumerates them. *)
#[warnings="-register-all"] Inductive json : Type :=
| JNull
| JBool (b : bool)
| JNumber (n : jnumber)
| JString (s : string)
| JArray (items : list json)
| JObject (props : list (string * json)).

(** A JavaScript value: [undefined] or a serializable value. *)
Inductive jsval : Type :=
| Undefined
| Val (j : json).

Inductive exn : Type :=
| TypeError (message : string)
| SyntaxError
| SystemError (code : string).

(** The values that a caller hands over and that the methods hold in
    memory: the same shapes, with every Number. *)
#[warnings="-register-all"] Inductive jsdata : Type :=
| DNull
| DBool (b : bool)
| DNumber (x : number)
| DString (s : string)
| DArray (items : list jsdata)
| DObject (props : list (string * jsdata)).

(** A value of a document is a value in memory. *)
Fixpoint embed (j : json) : jsdata :=
  match j with
  | JNull => DNull
  | JBool b => DBool b
  | JNumber n => DNumber (jn_value n)
  | JString s => DString s
  | JArray items => DArray (map embed items)
  | JObject props => DObject (map (fun e => (fst e, embed (snd e))) props)
  end.
Coercion embed : json >-> jsdata.

(** A JSON text, with its number literals. *)
#[warnings="-register-all"] Inductive jtext : Type :=
| TNull
| TBool (b : bool)
| TNumber (l : decimal)
| TString (s : string)
| TArray (items : list jtext)
| TObject (props : list (string * jtext)).

(** The text that [JSON.stringify] writes: [null] for [NaN] and the
    infinities, a decimal literal for every other number. *)
Fixpoint JSON_write (d : jsdata) : jtext :=
  match d with
  | DNull => TNull
  | DBool b => TBool b
  | DNumber x =>
      match print_number x with
      | Some l => TNumber l
      | None => TNull
      end
  | DString s => TString s
  | DArray items => TArray (map JSON_write items)
  | DObject props => TObject (map (fun e => (fst e, JSON_write (snd e))) props)
  end.

(** The document that [JSON.parse] reads from a text.  A literal that
    reads as [-0] or as an infinity has no place in a document here;
    [JSON.stringify] writes none (lemma [JSON_number_written]). *)
Fixpoint JSON_read (t : jtext) : json :=
  match t with
  | TNull => JNull
  | TBool b => JBool b
  | TNumber l =>
      match stable_of (read_number l) with
      | Some n => JNumber n
      | None => JNull
      end
  | TString s => JString s
  | TArray items => JArray (map JSON_read items)
  | TObject props => JObject (map (fun e => (fst e, JSON_read (snd e))) props)
  end.

(** What a value comes back as: written by [JSON.stringify], read by
    [JSON.parse]. *)
Definition JSON_value (d : jsdata) : json := JSON_read (JSON_write d).

(** The text of a file, seen through [JSON.parse]: either the parser throws
    a [SyntaxError] on it, or it reads the document [j] from it. *)
Inductive text : Type :=
| Unparsable (raw : string)
| Serialized (j : json).

Definition JSON_stringify (d : jsdata) : text := Serialized (JSON_read (JSON_write d)).

Definition JSON_parse (t : text) : exn + json :=
  match t with
  | Unparsable _ => inl SyntaxError
  | Serialized j => inr j
  end.

(** The values of the serialization format among the values in memory:
    every number is a finite binary64 number. *)
Fixpoint is_json_value (d : jsdata) : bool :=
  match d with
  | DNumber x => is_double x && is_finite x
  | DArray items => forallb is_json_value items
  | DObject props => forallb (fun e => is_json_value (snd e)) props
  | _ => true
  end.

(** Whether a value holds a [-0]. *)
Fixpoint has_negative_zero (d : jsdata) : bool :=
  match d with
  | DNumber x => is_negative_zero x
  | DArray items => existsb has_negative_zero items
  | DObject props => existsb (fun e => has_negative_zero (snd e)) props
  | _ => false
  end.

(** The value with the sign of every zero dropped. *)
Fixpoint positive_zeros (d : jsdata) : jsdata :=
  match d with
  | DNumber x => DNumber (positive_zero x)
  | DArray items => DArray (map positive_zeros items)
  | DObject props => DObject (map (fun e => (fst e, positive_zeros (snd e))) props)
  | _ => d
  end.

(** [ToBoolean]. *)
Definition truthy (v : jsval) : bool :=
  match v with
  | Undefined => false
  | Val JNull => false
  | Val (JBool b) => b
  | Val (JNumber n) => number_truthy (jn_value n)
  | Val (JString s) => negb (String.eqb s "")
  | Val (JArray _) => true
  | Val (JObject _) => true
  end.

(** [o[name]] for the names the class reads: a 32-character digest, ["key"]
    and ["value"].  None of them is an index or a built-in property of an
    array, a string, a number or a boolean, so only an object can hold one;
    reading a property of [null] or [undefined] throws. *)
Definition get_prop (o : jsval) (name : string) : exn + jsval :=
  match o with
  | Undefined => inl (TypeError "Cannot read properties of undefined")
  | Val JNull => inl (TypeError "Cannot read properties of null")
  | Val (JObject props) =>
      match assoc name props with
      | Some v => inr (Val v)
      | None => inr Undefined
      end
  | Val _ => inr Undefined
  end.

(** [o[name] = v] in strict mode (a class body), followed only by
    [JSON.stringify(o)]: an object gets or replaces the property; an array
    gets a non-index property, which the serializer does not print; a
    primitive or [null] throws. *)
Definition assign (o : jsdata) (name : string) (v : jsdata) : exn + jsdata :=
  match o with
  | DObject props => inr (DObject (set_entry name v props))
  | DArray items => inr (DArray items)
  | DNull => inl (TypeError "Cannot set properties of null")
  | _ => inl (TypeError "Cannot create property")
  end.

(** The same assignment on a document. *)
Definition set_prop (o : json) (name : string) (v : json) : exn + json :=
  match o with
  | JObject props => inr (JObject (set_entry name v props))
  | JArray items => inr (JArray items)
  | JNull => inl (TypeError "Cannot set properties of null")
  | _ => inl (TypeError "Cannot create property")
  end.

(** [delete o[name]]. *)
Definition delete_prop (o : json) (name : string) : json :=
  match o with
  | JObject props => JObject (remove_entry name props)
  | _ => o
  end.

(** [Object.keys(o).length]. *)
Definition Object_keys_length (o : json) : exn + nat :=
  match o with
  | JNull => inl (TypeError "Cannot convert undefined or null to object")
  | JObject props => inr (List.length props)
  | JArray items => inr (List.length items)
  | JString s => inr (String.length s)
  | _ => inr 0
  end.

(** [Object.values(o)]. *)
Definition Object_values (o : json) : exn + list json :=
  match o with
  | JNull => inl (TypeError "Cannot convert undefined or null to object")
  | JObject props => inr (map snd props)
  | JArray items => inr items
  | JString s => inr (map (fun c => JString (String c EmptyString)) (list_ascii_of_string s))
  | _ => inr []
  end.

(** [typeof v === 'string']. *)
Definition is_string (v : jsval) : bool :=
  match v with
  | Val (JString _) => true
  | _ => false
  end.

(** [s.charAt(i)]. *)
Definition charAt (s : string) (i : nat) : string :=
  match String.get i s with
  | Some c => String c EmptyString
  | None => EmptyString
  end.

(** [s.endsWith(suffix)]. *)
Definition endsWith (s suffix : string) : bool :=
  Nat.leb (String.length suffix) (String.length s)
  && String.eqb (String.substring (String.length s - String.length suffix)
                                  (String.length suffix) s) suffix.

End Js.

(* ------------------------------------------------------------------ *)
(** ** The file system *)

Module Fs.

Import Js.

#[warnings="-register-all"] Inductive node : Type :=
| File (content : text)
| Dir (entries : list (string * node)).

(** A path is the list of its segments, from the root of the tree. *)
Definition path := list string.

(** [path.join]: empty segments are dropped. *)
Definition path_join (base : path) (segments : list string) : path :=
  base ++ filter (fun s => negb (String.eqb s "")) segments.

Fixpoint find (n : node) (p : path) : option node :=
  match p with
  | [] => Some n
  | name :: p' =>
      match n with
      | File _ => None
      | Dir es =>
          match assoc name es with
          | Some c => find c p'
          | None => None
          end
      end
  end.

(** Replace or create the entry at [p]; the parent of [p] has to be there. *)
Fixpoint put (n : node) (p : path) (new : node) : node :=
  match p with
  | [] => new
  | name :: p' =>
      match n with
      | File _ => n
      | Dir es =>
          match p', assoc name es with
          | [], _ => Dir (set_entry name new es)
          | _, Some c => Dir (set_entry name (put c p' new) es)
          | _, None => n
          end
      end
  end.

(** Drop the entry at [p]. *)
Fixpoint del (n : node) (p : path) : node :=
  match p with
  | [] => n
  | name :: p' =>
      match n with
      | File _ => n
      | Dir es =>
          match p', assoc name es with
          | [], _ => Dir (remove_entry name es)
          | _, Some c => Dir (set_entry name (del c p') es)
          | _, None => n
          end
      end
  end.

(** [mkdir -p]: every missing directory of [p] is created; a file in the
    way makes it fail. *)
Fixpoint mkdirp (n : node) (p : path) : option node :=
  match n with
  | File _ => None
  | Dir es =>
      match p with
      | [] => Some n
      | name :: p' =>
          let c := match assoc name es with Some c => c | None => Dir [] end in
          match mkdirp c p' with
          | Some c' => Some (Dir (set_entry name c' es))
          | None => None
          end
      end
  end.

(** The longest chain of nested directories. *)
Fixpoint height (n : node) : nat :=
  match n with
  | File _ => 0
  | Dir es =>
      S ((fix go (es : list (string * node)) : nat :=
            match es with
            | [] => 0
            | e :: es' => Nat.max (height (snd e)) (go es')
            end) es)
  end.

(** *** The monad of the synchronous API: the tree is the state, a call
    returns, throws, or (for the recursive walks only) exhausts its fuel. *)

Inductive result (A : Type) : Type :=
| Ok (a : A)
| Throw (e : exn)
| OutOfFuel.
Arguments Ok {A} a.
Arguments Throw {A} e.
Arguments OutOfFuel {A}.

Definition M (A : Type) : Type := node -> result A * node.

Definition ret {A} (a : A) : M A := fun fs => (Ok a, fs).

Definition throw {A} (e : exn) : M A := fun fs => (Throw e, fs).

Definition out_of_fuel {A} : M A := fun fs => (OutOfFuel, fs).

Definition bind {A B} (m : M A) (k : A -> M B) : M B :=
  fun fs =>
    match m fs with
    | (Ok a, fs') => k a fs'
    | (Throw e, fs') => (Throw e, fs')
    | (OutOfFuel, fs') => (OutOfFuel, fs')
    end.

(** [try { body } catch (e) { handler }]. *)
Definition try_catch {A} (body : M A) (handler : exn -> M A) : M A :=
  fun fs =>
    match body fs with
    | (Throw e, fs') => handler e fs'
    | r => r
    end.

(** A runtime operation that returns or throws without touching the disk. *)
Definition lift {A} (r : exn + A) : M A :=
  match r with
  | inl e => throw e
  | inr a => ret a
  end.

Declare Scope fs_scope.
Delimit Scope fs_scope with fs.
Notation "x <- m ;; k" := (bind m (fun x => k))
  (at level 61, m at next level, right associativity) : fs_scope.
Notation "m ;; k" := (bind m (fun _ => k))
  (at level 61, right associativity) : fs_scope.
Local Open Scope fs_scope.

(** [xs.forEach(f)]. *)
Fixpoint forEach {A} (xs : list A) (f : A -> M unit) : M unit :=
  match xs with
  | [] => ret tt
  | x :: xs' => f x ;; forEach xs' f
  end.

(** [xs.forEach(f)] where [f] pushes to an array [acc] declared outside. *)
Fixpoint forEach_acc {A B} (xs : list A) (f : B -> A -> M B) (acc : B) : M B :=
  match xs with
  | [] => ret acc
  | x :: xs' => acc' <- f acc x ;; forEach_acc xs' f acc'
  end.

Definition existsSync (p : path) : M bool :=
  fun fs => (Ok (match find fs p with Some _ => true | None => false end), fs).

Definition statSync_isDirectory (p : path) : M bool :=
  fun fs =>
    match find fs p with
    | Some (Dir _) => (Ok true, fs)
    | Some (File _) => (Ok false, fs)
    | None => (Throw (SystemError "ENOENT"), fs)
    end.

(** [fs.readdirSync] returns the names of a directory.  Node documents no
    order for them (on Linux they come sorted by name); here they come in the
    order of the entries of the tree.  The properties of [keys], [clear] and
    [length] speak of which names and keys are listed, not of their order. *)
Definition readdirSync (p : path) : M (list string) :=
  fun fs =>
    match find fs p with
    | Some (Dir es) => (Ok (map fst es), fs)
    | Some (File _) => (Throw (SystemError "ENOTDIR"), fs)
    | None => (Throw (SystemError "ENOENT"), fs)
    end.

Definition readFileSync (p : path) : M text :=
  fun fs =>
    match find fs p with
    | Some (File t) => (Ok t, fs)
    | Some (Dir _) => (Throw (SystemError "EISDIR"), fs)
    | None => (Throw (SystemError "ENOENT"), fs)
    end.

Definition writeFileSync (p : path) (t : text) : M unit :=
  fun fs =>
    match find fs p with
    | Some (File _) => (Ok tt, put fs p (File t))
    | Some (Dir _) => (Throw (SystemError "EISDIR"), fs)
    | None =>
        match find fs (removelast p) with
        | Some (Dir _) => (Ok tt, put fs p (File t))
        | Some (File _) => (Throw (SystemError "ENOTDIR"), fs)
        | None => (Throw (SystemError "ENOENT"), fs)
        end
    end.

Definition unlinkSync (p : path) : M unit :=
  fun fs =>
    match p, find fs p with
    | [], _ => (Throw (SystemError "EISDIR"), fs)
    | _, Some (File _) => (Ok tt, del fs p)
    | _, Some (Dir _) => (Throw (SystemError "EISDIR"), fs)
    | _, None => (Throw (SystemError "ENOENT"), fs)
    end.

Definition rmdirSync (p : path) : M unit :=
  fun fs =>
    match p, find fs p with
    | [], _ => (Throw (SystemError "EBUSY"), fs)
    | _, Some (Dir []) => (Ok tt, del fs p)
    | _, Some (Dir (_ :: _)) => (Throw (SystemError "ENOTEMPTY"), fs)
    | _, Some (File _) => (Throw (SystemError "ENOTDIR"), fs)
    | _, None => (Throw (SystemError "ENOENT"), fs)
    end.

(** [fs.mkdirSync(p, { recursive: true })]. *)
Definition mkdirSync_recursive (p : path) : M unit :=
  fun fs =>
    match mkdirp fs p with
    | Some fs' => (Ok tt, fs')
    | None =>
        match find fs p with
        | Some _ => (Throw (SystemError "EEXIST"), fs)
        | None => (Throw (SystemError "ENOTDIR"), fs)
        end
    end.

End Fs.

(* ------------------------------------------------------------------ *)
(** ** The class [JsonFileCache] *)

Module Cache.

Import Js Fs.
Local Open Scope fs_scope.

Record JsonFileCache : Type := mkCache {
  cachePath : path;
  autoSave : bool
}.

Record FilePathInfo : Type := mkInfo {
  folderPath : path;
  filePath : path;
  md5 : string
}.

Definition key_error : exn := TypeError "Key must be a string".

(** [_getMd5(key)].  Its callers have checked [typeof key === 'string'],
    so [String(key)] is [key]. *)
Definition _getMd5 (key : string) : string := MD5.md5_hex key.
Arguments _getMd5 : simpl never.

Definition _getFilePath (this : JsonFileCache) (key : string) : FilePathInfo :=
  let md5 := _getMd5 key in
  let level1 := charAt md5 0 in
  let level2 := charAt md5 1 in
  let level3 := charAt md5 2 in
  let fileName := (charAt md5 3 ++ ".json")%string in
  let folderPath := path_join (cachePath this) [level1; level2; level3] in
  let filePath := path_join folderPath [fileName] in
  mkInfo folderPath filePath md5.

Definition _ensureDir (dirPath : path) : M unit :=
  ex <- existsSync dirPath ;;
  if negb ex then mkdirSync_recursive dirPath else ret tt.

(** [new JsonFileCache(cachePath, options)]; [autoSave] defaults to [true]. *)
Definition constructor (cachePath : path) (options : option bool) : M JsonFileCache :=
  let this := mkCache cachePath (match options with Some b => b | None => true end) in
  _ensureDir cachePath ;;
  ret this.

(** The [catch] branch only logs; the function then falls through to
    [return {}]. *)
Definition _readFile (filePath : path) : M json :=
  r <- try_catch
         (ex <- existsSync filePath ;;
          if ex then
            content <- readFileSync filePath ;;
            j <- lift (JSON_parse content) ;;
            ret (Some j)
          else ret None)
         (fun _ => ret None) ;;
  match r with
  | Some j => ret j
  | None => ret (JObject [])
  end.

(** The [catch] branch logs and throws the error again. *)
Definition _writeFile (filePath : path) (data : jsdata) : M unit :=
  try_catch (writeFileSync filePath (JSON_stringify data))
            (fun error => throw error).

(** What [Date.now()] returns: the time value [now], a whole number of
    milliseconds. *)
Definition Date_now (now : Z) : Double.number := jn_value now.

(** [{ key, value, timestamp: Date.now() }], in memory. *)
Definition new_record (key : string) (value : jsdata) (now : Z) : jsdata :=
  DObject [("key", DString key); ("value", value); ("timestamp", DNumber (Date_now now))].

(** The same Record, as a document holds it. *)
Definition record (key : string) (value : json) (now : Z) : json :=
  JObject [("key", JString key); ("value", value); ("timestamp", JNumber now)].

(** [setItem(key, value)]; [key] is any JavaScript value, [value] any value
    of the shapes of JSON, and [now] is what [Date.now()] returns. *)
Definition setItem (this : JsonFileCache) (key : jsval) (value : jsdata) (now : Z) : M unit :=
  match key with
  | Val (JString key) =>
      let info := _getFilePath this key in
      _ensureDir (folderPath info) ;;
      data <- _readFile (filePath info) ;;
      data' <- lift (assign data (md5 info) (new_record key value now)) ;;
      _writeFile (filePath info) data'
  | _ => throw key_error
  end.

Definition getItem (this : JsonFileCache) (key : jsval) : M jsval :=
  match key with
  | Val (JString key) =>
      let info := _getFilePath this key in
      ex <- existsSync (filePath info) ;;
      if negb ex then ret (Val JNull)
      else
        data <- _readFile (filePath info) ;;
        item <- lift (get_prop (Val data) (md5 info)) ;;
        if truthy item then lift (get_prop item "value")
        else ret (Val JNull)
  | _ => throw key_error
  end.

Definition removeItem (this : JsonFileCache) (key : jsval) : M unit :=
  match key with
  | Val (JString key) =>
      let info := _getFilePath this key in
      ex <- existsSync (filePath info) ;;
      if negb ex then ret tt
      else
        data <- _readFile (filePath info) ;;
        item <- lift (get_prop (Val data) (md5 info)) ;;
        if truthy item then
          let data' := delete_prop data (md5 info) in
          n <- lift (Object_keys_length data') ;;
          if Nat.eqb n 0 then unlinkSync (filePath info)
          else _writeFile (filePath info) data'
        else ret tt
  | _ => throw key_error
  end.

(** [_removeDir(dirPath)], the recursion bounded by [fuel]. *)
Fixpoint _removeDir_rec (fuel : nat) (dirPath : path) : M unit :=
  match fuel with
  | O => out_of_fuel
  | S fuel' =>
      ex <- existsSync dirPath ;;
      if ex then
        files <- readdirSync dirPath ;;
        forEach files (fun file =>
          let filePath := path_join dirPath [file] in
          isdir <- statSync_isDirectory filePath ;;
          if isdir then _removeDir_rec fuel' filePath
          else unlinkSync filePath) ;;
        rmdirSync dirPath
      else ret tt
  end.

(** The recursion follows the nesting of the directories, so the height of
    the tree at the time of the call bounds it. *)
Definition _removeDir (dirPath : path) : M unit :=
  fun fs => _removeDir_rec (S (height fs)) dirPath fs.

Definition clear (this : JsonFileCache) : M unit :=
  ex <- existsSync (cachePath this) ;;
  if ex then
    folders <- readdirSync (cachePath this) ;;
    forEach folders (fun folder =>
      let folderPath := path_join (cachePath this) [folder] in
      isdir <- statSync_isDirectory folderPath ;;
      if isdir then _removeDir folderPath else ret tt)
  else ret tt.

(** [_getAllJsonFiles(dirPath, fileList)]: [fileList] is one array, pushed
    to by every level of the recursion; it is threaded here. *)
Fixpoint _getAllJsonFiles_rec (fuel : nat) (dirPath : path) (fileList : list path)
  : M (list path) :=
  match fuel with
  | O => out_of_fuel
  | S fuel' =>
      ex <- existsSync dirPath ;;
      if negb ex then ret fileList
      else
        files <- readdirSync dirPath ;;
        forEach_acc files (fun fileList file =>
          let filePath := path_join dirPath [file] in
          isdir <- statSync_isDirectory filePath ;;
          if isdir then _getAllJsonFiles_rec fuel' filePath fileList
          else if endsWith file ".json" then ret (fileList ++ [filePath])
          else ret fileList) fileList
  end.

Definition _getAllJsonFiles (dirPath : path) (fileList : list path) : M (list path) :=
  fun fs => _getAllJsonFiles_rec (S (height fs)) dirPath fileList fs.

(** The keys pushed for one document: [item.key] for every value [item]
    of the document with [item && item.key]. *)
Definition push_keys (allKeys : list json) (item : json) : M (list json) :=
  if truthy (Val item) then
    k <- lift (get_prop (Val item) "key") ;;
    match k with
    | Val j => if truthy k then ret (allKeys ++ [j]) else ret allKeys
    | Undefined => ret allKeys
    end
  else ret allKeys.

Definition keys (this : JsonFileCache) : M (list json) :=
  jsonFiles <- _getAllJsonFiles (cachePath this) [] ;;
  forEach_acc jsonFiles (fun allKeys filePath =>
    data <- _readFile filePath ;;
    items <- lift (Object_values data) ;;
    forEach_acc items push_keys allKeys) [].

Definition length (this : JsonFileCache) : M nat :=
  ks <- keys this ;;
  ret (List.length ks).

End Cache.

(* ------------------------------------------------------------------ *)
(** ** What the properties are stated with *)

Module Store.

Import Js Fs Cache.

(** What a path holds, without the subtree below it. *)
Inductive kind : Type :=
| KFile (t : text)
| KDir.

Definition kind_of (n : node) : kind :=
  match n with
  | File t => KFile t
  | Dir _ => KDir
  end.

Definition kind_at (fs : node) (p : path) : option kind :=
  option_map kind_of (find fs p).

Definition file_at (fs : node) (p : path) : option text :=
  match kind_at fs p with
  | Some (KFile t) => Some t
  | _ => None
  end.

Definition path_eq_dec : forall p q : path, {p = q} + {p <> q} :=
  list_eq_dec string_dec.

Fixpoint is_prefix (q p : path) : bool :=
  match q, p with
  | [], _ => true
  | a :: q', b :: p' => String.eqb a b && is_prefix q' p'
  | _ :: _, [] => false
  end.

(** The document that [_readFile] returns for a path. *)
Definition document_at (fs : node) (p : path) : json :=
  match kind_at fs p with
  | Some (KFile (Serialized j)) => j
  | _ => JObject []
  end.

(** The entries of the shard document at a path; none when the file is
    missing, unparsable, or not an object. *)
Definition props_at (fs : node) (p : path) : list (string * json) :=
  match document_at fs p with
  | JObject props => props
  | _ => []
  end.

(** [fs'] is [fs] after [_ensureDir p] created what was missing of [p]. *)
Definition grown (fs : node) (p : path) (fs' : node) : Prop :=
  forall q,
    kind_at fs' q
    = match kind_at fs q with
      | Some k => Some k
      | None => if is_prefix q p then Some KDir else None
      end.

(** [fs'] is [fs] with the file [p] written with [t]. *)
Definition wrote (fs : node) (p : path) (t : text) (fs' : node) : Prop :=
  forall q, kind_at fs' q = if path_eq_dec q p then Some (KFile t) else kind_at fs q.

(** [fs'] is [fs] without the entry [p]. *)
Definition removed (fs : node) (p : path) (fs' : node) : Prop :=
  forall q, kind_at fs' q = if path_eq_dec q p then None else kind_at fs q.

(** An entry without children: a file or an empty directory. *)
Definition leaf (n : node) : Prop :=
  match n with
  | File _ => True
  | Dir [] => True
  | Dir (_ :: _) => False
  end.

(** A Record of the data model: [{ key, value, timestamp }]. *)
Definition is_record (j : json) : Prop :=
  exists key value now, j = record key value now.

(** What a shard file may hold: a document of Records, or text that does
    not parse. *)
Definition shard_text (t : text) : Prop :=
  match t with
  | Unparsable _ => True
  | Serialized (JObject doc) => Forall (fun e => is_record (snd e)) doc
  | Serialized _ => False
  end.

(** A store state: the layout [<root>/<d1>/<d2>/<d3>/<name>.json] of the
    persisted state.  The root is a directory; one, two and three levels
    below it there are only directories, four levels below only shard
    files. *)
Definition store_state (this : JsonFileCache) (fs : node) : Prop :=
  kind_at fs (cachePath this) = Some KDir
  /\ forall q k,
       q <> [] -> kind_at fs (cachePath this ++ q) = Some k ->
       match k with
       | KDir => List.length q <= 3
       | KFile t =>
           List.length q = 4 /\ endsWith (last q "") ".json" = true /\ shard_text t
       end.

(** The shard of [key] can be written: no file stands where its folders
    go, and its file is missing, unparsable, or holds an object. *)
Definition usable (this : JsonFileCache) (fs : node) (key : string) : Prop :=
  (forall q t, is_prefix q (folderPath (_getFilePath this key)) = true ->
               kind_at fs q <> Some (KFile t))
  /\ match kind_at fs (filePath (_getFilePath this key)) with
     | None => True
     | Some KDir => False
     | Some (KFile (Unparsable _)) => True
     | Some (KFile (Serialized (JObject _))) => True
     | Some (KFile (Serialized _)) => False
     end.


(** *** Two concrete stores used to exercise the statements *)

Definition demo : JsonFileCache := mkCache ["cache"] true.

(** The disk right after [new JsonFileCache("cache")]. *)
Definition fresh : node := Dir [("cache", Dir [])].

(** *** Well-formed directories: no name twice, no empty name *)

Fixpoint nodupb (l : list string) : bool :=
  match l with
  | [] => true
  | x :: l' => negb (existsb (String.eqb x) l') && nodupb l'
  end.

Definition names_ok (l : list string) : bool :=
  nodupb l && negb (existsb (String.eqb "") l).

Fixpoint wf_nodeb (n : node) : bool :=
  match n with
  | File _ => true
  | Dir es =>
      names_ok (map fst es)
      && (fix all (es : list (string * node)) : bool :=
            match es with
            | [] => true
            | e :: es' => wf_nodeb (snd e) && all es'
            end) es
  end.

Definition wf_node (n : node) : Prop := wf_nodeb n = true.

(** *** The walk of [_getAllJsonFiles] as a traversal of the tree *)

Fixpoint json_files (dirPath : path) (n : node) : list path :=
  match n with
  | File _ => []
  | Dir es =>
      (fix walk (es : list (string * node)) : list path :=
         match es with
         | [] => []
         | e :: es' =>
             match snd e with
             | Dir _ => json_files (dirPath ++ [fst e]) (snd e)
             | File _ =>
                 if endsWith (fst e) ".json" then [dirPath ++ [fst e]] else []
             end ++ walk es'
         end) es
  end.

(** What [json_files] does with one entry of a directory. *)
Definition json_files_entry (dirPath : path) (e : string * node) : list path :=
  match snd e with
  | Dir _ => json_files (dirPath ++ [fst e]) (snd e)
  | File _ => if endsWith (fst e) ".json" then [dirPath ++ [fst e]] else []
  end.

(** *** The keys a store holds, read off the tree *)

(** The shard files, in the order of the traversal. *)
Definition shard_files (this : JsonFileCache) (fs : node) : list path :=
  match find fs (cachePath this) with
  | Some n => json_files (cachePath this) n
  | None => []
  end.

(** The entries of a shard document. *)
Definition records_of (data : json) : list json :=
  match data with
  | JObject doc => map snd doc
  | _ => []
  end.

(** The [key] field of an entry. *)
Definition key_field (item : json) : list json :=
  match item with
  | JObject props =>
      match assoc "key" props with
      | Some k => [k]
      | None => []
      end
  | _ => []
  end.

(** The [key] field of every record of every shard document, one element
    per record, in the order of the traversal. *)
Definition stored_keys (this : JsonFileCache) (fs : node) : list json :=
  flat_map (fun p => flat_map key_field (records_of (document_at fs p)))
           (shard_files this fs).

(** [ToBoolean] on a serializable value: for a key, "is not the empty
    string". *)
Definition nonempty (k : json) : bool := truthy (Val k).

(** A call that leaves the disk as it is, whatever it returns. *)
Definition readonly {A} (m : M A) : Prop := forall fs, snd (m fs) = fs.

(** [fs'] is [fs] less some entries at or below [p]. *)
Definition pruned (p : path) (fs fs' : node) : Prop :=
  forall q,
    kind_at fs' q = kind_at fs q
    \/ (kind_at fs' q = None /\ is_prefix p q = true).

(** Every run of [m] takes a disk to one related to it by [R]. *)
Definition steps {A} (R : node -> node -> Prop) (m : M A) : Prop :=
  forall fs, R fs (snd (m fs)).

(** *** Operations and invariants *)

(** No shard file holds the empty document. *)
Definition no_empty_shards (this : JsonFileCache) (fs : node) : Prop :=
  forall q, file_at fs (cachePath this ++ q) <> Some (Serialized (JObject [])).

(** The operations of the public interface. *)
Inductive operation : Type :=
| SetItem (key : jsval) (value : json) (now : Z)
| GetItem (key : jsval)
| RemoveItem (key : jsval)
| Clear
| Keys
| Length.

(** The disk that an operation leaves, whether it returns or throws. *)
Definition after (this : JsonFileCache) (op : operation) (fs : node) : node :=
  match op with
  | SetItem key value now => snd (setItem this key value now fs)
  | GetItem key => snd (getItem this key fs)
  | RemoveItem key => snd (removeItem this key fs)
  | Clear => snd (clear this fs)
  | Keys => snd (keys this fs)
  | Length => snd (length this fs)
  end.

(** Every file below the root is a document; each of its records is stored
    under the digest of its own key, in the shard file of that key. *)
Definition digest_inv (this : JsonFileCache) (fs : node) : Prop :=
  forall q t,
    file_at fs (cachePath this ++ q) = Some t ->
    exists doc,
      t = Serialized (JObject doc)
      /\ forall d r, In (d, r) doc ->
           exists key value now,
             r = record key value now
             /\ d = _getMd5 key
             /\ cachePath this ++ q = filePath (_getFilePath this key).

(** The states that the store reaches from an empty root directory by its
    own operations. *)
Inductive reachable (this : JsonFileCache) : node -> Prop :=
| reach_fresh fs :
    find fs (cachePath this) = Some (Dir []) -> reachable this fs
| reach_step fs op :
    reachable this fs -> reachable this (after this op fs).

(** The disk after [setItem("username", "zhangsan")] on the fresh store. *)
Definition with_username : node :=
  snd (setItem demo (Val (JString "username")) (JString "zhangsan") 1700000000000 fresh).

(** The disk after [setItem("", 1)] on the fresh store. *)
Definition with_empty_key : node :=
  snd (setItem demo (Val (JString "")) (JNumber 1) 1700000000000 fresh).

(** [with_username] with the text of its shard file replaced by text that
    does not parse. *)
Definition corrupt_username : node :=
  put with_username (filePath (_getFilePath demo "username"))
      (File (Unparsable "{ not json")).

(** A disk on which the root path of [demo] is a file. *)
Definition root_is_file : node := Dir [("cache", File (Unparsable "not a directory"))].

(** [with_username] with the text of its shard file replaced by [null]. *)
Definition null_username : node :=
  put with_username (filePath (_getFilePath demo "username"))
      (File (Serialized JNull)).

(** [with_username] with the text of its shard file replaced by [[]]. *)
Definition array_username : node :=
  put with_username (filePath (_getFilePath demo "username"))
      (File (Serialized (JArray []))).

(** [with_username] with a file put beside the shard directories. *)
Definition with_stray_file : node :=
  put with_username ["cache"; "notes.txt"] (File (Unparsable "hello")).

(** What [statSync(p).isDirectory()] does not hold for. *)
Definition is_file (n : node) : bool :=
  match n with
  | File _ => true
  | Dir _ => false
  end.

(** The store holds [value] for [key]: the shard document of the key has,
    under the digest of the key, a record of this key with this value. *)
Definition holds (this : JsonFileCache) (fs : node) (key : string) (value : json) : Prop :=
  exists now,
    assoc (_getMd5 key) (props_at fs (filePath (_getFilePath this key)))
    = Some (record key value now).

(** No document below the root has two properties of the same name. *)
Definition distinct_slots (this : JsonFileCache) (fs : node) : Prop :=
  forall q doc,
    file_at fs (cachePath this ++ q) = Some (Serialized (JObject doc)) ->
    NoDup (map fst doc).

(** The disk after a sequence of operations. *)
Definition run (this : JsonFileCache) (ops : list operation) (fs : node) : node :=
  fold_left (fun fs op => after this op fs) ops fs.

(** The disk after three calls on the fresh store. *)
Definition after_three_calls : node :=
  run demo [SetItem (Val (JString "username")) (JString "zhangsan") 1;
            SetItem (Val (JString "key171")) (JNumber 1) 2;
            RemoveItem (Val (JString "username"))] fresh.

(** What the store has under the digest of a key, in the shard file of the
    key. *)
Definition slot (this : JsonFileCache) (fs : node) (key : string) : option json :=
  assoc (_getMd5 key) (props_at fs (filePath (_getFilePath this key))).

(** *** The store as an abstract map

    What one operation does to a map from digests to records: [setItem]
    and [removeItem] of a string key update the entry of its digest,
    [clear] empties the map, and every other call (a read, or a call with
    a key that is not a string) leaves it as it is. *)
Definition apply_op (m : string -> option json) (op : operation) : string -> option json :=
  match op with
  | SetItem (Val (JString key)) value now =>
      fun d => if string_dec d (_getMd5 key) then Some (record key value now) else m d
  | RemoveItem (Val (JString key)) =>
      fun d => if string_dec d (_getMd5 key) then None else m d
  | Clear => fun _ => None
  | _ => m
  end.

(** The map after a sequence of operations on the empty map. *)
Definition model (ops : list operation) : string -> option json :=
  fold_left apply_op ops (fun _ => None).

(** *** Values used to exercise the statements on numbers *)

(** [0.5], and [-0]. *)
Definition half : Double.number := Double.Finite false 4503599627370496 (-53).
Definition negative_zero : Double.number := Double.Finite true 0 (-1074).

(** [[0.5, -0, "x", { "n": 1700000000000 }]]. *)
Definition sample_value : jsdata :=
  DArray [DNumber half; DNumber negative_zero; DString "x";
          DObject [("n", DNumber (Double.number_of_Z 1700000000000))]].

(** *** The test suite of RFC 1321 (appendix A.5): messages and digests *)
Definition rfc1321_suite : list (string * string) :=
  [("", "d41d8cd98f00b204e9800998ecf8427e");
   ("a", "0cc175b9c0f1b6a831c399e269772661");
   ("abc", "900150983cd24fb0d6963f7d28e17f72");
   ("message digest", "f96b697d7cb7938d525a2f31aaf161d0");
   ("abcdefghijklmnopqrstuvwxyz", "c3fcd3d76192e4007dfb496cca67e13b");
   ("ABCDEFGHIJKLMNOPQRSTUVWXYZabcdefghijklmnopqrstuvwxyz0123456789",
    "d174ab98d277d9f5a5611c2c9f419d9f");
   ("12345678901234567890123456789012345678901234567890123456789012345678901234567890",
    "57edf4a22be3c955ac49da2e2107b67a")].

End Store.

(* ================================================================== *)
(** * Properties *)

Example md5_empty : MD5.md5_hex "" = "d41d8cd98f00b204e9800998ecf8427e".
Proof. vm_compute. reflexivity. Qed.

Example md5_abc : MD5.md5_hex "abc" = "900150983cd24fb0d6963f7d28e17f72".
Proof. vm_compute. reflexivity. Qed.

Example md5_username : MD5.md5_hex "username" = "14c4b06b824ec593239362517f538b29".
Proof. vm_compute. reflexivity. Qed.

Example md5_long :
  MD5.md5_hex "12345678901234567890123456789012345678901234567890123456789012345678901234567890"
  = "57edf4a22be3c955ac49da2e2107b67a".
Proof. vm_compute. reflexivity. Qed.

(* ------------------------------------------------------------------ *)
(** ** Numbers: a binary64 number is read back from its literal *)

Section NumberFacts.

Import Double.
Local Open Scope Z_scope.

Lemma number_eqb_eq x y : number_eqb x y = true <-> x = y.
Proof.
  split.
  - destruct x as [|a|a m e], y as [|b|b m' e']; simpl; try discriminate; auto.
    + intros H. apply Bool.eqb_prop in H. congruence.
    + rewrite !andb_true_iff, !Z.eqb_eq. intros [[H ->] ->].
      apply Bool.eqb_prop in H. congruence.
  - intros <-. destruct x as [|a|a m e]; simpl; auto.
    + apply Bool.eqb_reflx.
    + now rewrite Bool.eqb_reflx, !Z.eqb_refl.
Qed.

Lemma two52_pow : two52 = 2 ^ 52.
Proof. reflexivity. Qed.

Lemma is_double_finite neg m e :
  is_double (Finite neg m e) = true ->
  0 <= m < two53 /\ -1074 <= e <= 971 /\ (two52 <= m \/ e = -1074).
Proof.
  unfold is_double. rewrite !andb_true_iff, orb_true_iff.
  rewrite !Z.leb_le, Z.ltb_lt, Z.eqb_eq. tauto.
Qed.

Lemma round_half_even_exact q d : 0 < d -> round_half_even q 0 d = q.
Proof.
  intros Hd. unfold round_half_even.
  destruct (Z.compare_spec (2 * 0) d); [lia|reflexivity|lia].
Qed.

(** The Number value of a ratio that is a binary64 number is that number:
    nothing is rounded. *)
Lemma number_of_ratio_exact neg n d m e :
  0 < d -> 0 < m -> is_double (Finite neg m e) = true ->
  (0 <= e -> n = m * 2 ^ e * d) ->
  (e < 0 -> n * 2 ^ (- e) = m * d) ->
  number_of_ratio neg n d = Finite neg m e.
Proof.
  intros Hd Hm Hx Hpos Hneg.
  apply is_double_finite in Hx as (Hm53 & He & Hcanon).
  assert (Ha : n * 2 ^ 1074 = m * 2 ^ (e + 1074) * d).
  { destruct (Z_lt_le_dec e 0) as [Hlt|Hge].
    - replace 1074 with (- e + (e + 1074)) at 1 by lia.
      rewrite Z.pow_add_r by lia. rewrite Z.mul_assoc, (Hneg Hlt). ring.
    - rewrite (Hpos Hge), Z.pow_add_r by lia. ring. }
  unfold number_of_ratio. cbv zeta. rewrite Ha.
  rewrite Z.div_mul, Z.mod_mul by lia.
  rewrite Z.log2_mul_pow2 by lia.
  destruct Hcanon as [Hnorm | ->].
  - assert (Hl : Z.log2 m = 52).
    { apply Z.log2_unique; [lia|]. rewrite <- two52_pow.
      change (2 ^ Z.succ 52) with two53. lia. }
    rewrite Hl.
    destruct (Z.eq_dec e (-1074)) as [->|Hne].
    + change (-1074 + 1074) with 0. cbn [Z.add Z.leb Z.compare].
      rewrite Z.pow_0_r, Z.mul_1_r, round_half_even_exact by lia.
      destruct (Z.eqb_spec m two53); [lia|reflexivity].
    + destruct (Z.leb_spec (e + 1074 + 52) 52); [lia|].
      replace (e + 1074 + 52 - 52) with (e + 1074) by lia.
      rewrite Z.div_mul, Z.mod_mul by (apply Z.pow_nonzero; lia).
      rewrite Z.mul_0_l, Z.add_0_l, round_half_even_exact
        by (apply Z.mul_pos_pos; [lia|apply Z.pow_pos_nonneg; lia]).
      destruct (Z.eqb_spec m two53); [lia|].
      replace (e + 1074 - 1074) with e by lia.
      destruct (Z.ltb_spec 971 e); [lia|reflexivity].
  - change (-1074 + 1074) with 0. rewrite Z.pow_0_r, Z.mul_1_r, Z.add_0_l.
    assert (Hl : Z.log2 m <= 52).
    { apply Z.lt_succ_r, Z.log2_lt_pow2; [lia|]. change (2 ^ Z.succ 52) with two53. lia. }
    destruct (Z.leb_spec (Z.log2 m) 52); [|lia].
    rewrite round_half_even_exact by lia.
    destruct (Z.eqb_spec m two53); [lia|reflexivity].
Qed.

Lemma read_exact neg m e :
  0 < m -> is_double (Finite neg m e) = true ->
  read_number (exact_decimal neg m e) = Finite neg m e.
Proof.
  intros Hm Hx. unfold exact_decimal.
  destruct (Z.leb_spec 0 e) as [Hge|Hlt].
  - unfold read_number. cbn [d_exp d_neg d_digits Z.leb Z.compare].
    apply number_of_ratio_exact; [lia|exact Hm|exact Hx| |lia].
    intros _. rewrite Z.pow_0_r. ring.
  - unfold read_number. cbn [d_exp d_neg d_digits].
    destruct (Z.leb_spec 0 e); [lia|].
    apply number_of_ratio_exact;
      [apply Z.pow_pos_nonneg; lia|exact Hm|exact Hx|lia|].
    intros _. change 10 with (5 * 2). rewrite Z.pow_mul_l. ring.
Qed.

Lemma shortest_sound fuel x neg vn vd n10 : forall k l,
  shortest fuel x neg vn vd n10 k = Some l -> read_number l = x.
Proof.
  induction fuel as [|fuel IH]; intros k l; [discriminate|].
  cbn [shortest]. cbv zeta.
  destruct (number_eqb (read_number (mkDecimal neg (scaled_floor vn vd (n10 - k)) (n10 - k))) x)
    eqn:Elo;
  destruct (number_eqb (read_number (mkDecimal neg (scaled_floor vn vd (n10 - k) + 1) (n10 - k))) x)
    eqn:Ehi; cbn [andb].
  - intros [= <-]. destruct (nearer_low _ _ _ _); now apply number_eqb_eq.
  - intros [= <-]. now apply number_eqb_eq.
  - intros [= <-]. now apply number_eqb_eq.
  - apply IH.
Qed.

Lemma print_number_finite x :
  is_finite x = true -> exists l, print_number x = Some l.
Proof.
  destruct x as [|neg|neg m e]; try discriminate. intros _. cbn [print_number].
  destruct (m =? 0); [eauto|]. cbv zeta.
  destruct (shortest 17 _ _ _ _ _ _); eauto.
Qed.

(** The literal written for a binary64 number reads as that number, the
    sign of a zero dropped. *)
Lemma print_read x l :
  is_double x = true -> print_number x = Some l -> read_number l = positive_zero x.
Proof.
  destruct x as [|neg|neg m e]; try discriminate.
  intros Hx. cbn [print_number].
  destruct (Z.eqb_spec m 0) as [->|Hm].
  - intros [= <-]. apply is_double_finite in Hx as (_ & _ & [H | ->]).
    + unfold two52 in H. lia.
    + reflexivity.
  - assert (Hpos : 0 < m) by (apply is_double_finite in Hx; lia).
    assert (Hz : positive_zero (Finite neg m e) = Finite neg m e)
      by (destruct m; [lia|reflexivity|reflexivity]).
    rewrite Hz. cbv zeta.
    destruct (shortest 17 _ _ _ _ _ _) as [l0|] eqn:Es.
    + intros [= <-]. eapply shortest_sound; eauto.
    + intros [= <-]. now apply read_exact.
Qed.

End NumberFacts.

(* ------------------------------------------------------------------ *)
(** ** What a value comes back as from a JSON text *)

Section CodecFacts.

Import Double Js.

Lemma json_induction (P : json -> Prop) :
  P JNull -> (forall b, P (JBool b)) -> (forall n, P (JNumber n)) ->
  (forall s, P (JString s)) ->
  (forall items, Forall P items -> P (JArray items)) ->
  (forall props, Forall (fun e => P (snd e)) props -> P (JObject props)) ->
  forall j, P j.
Proof.
  intros HN HB HX HS HA HO. fix IH 1. intros [|b|n|s|items|props].
  - exact HN.
  - apply HB.
  - apply HX.
  - apply HS.
  - apply HA. induction items as [|a items IHl]; constructor; [apply IH|exact IHl].
  - apply HO. induction props as [|a props IHl]; constructor; [apply IH|exact IHl].
Qed.

Lemma jsdata_induction (P : jsdata -> Prop) :
  P DNull -> (forall b, P (DBool b)) -> (forall x, P (DNumber x)) ->
  (forall s, P (DString s)) ->
  (forall items, Forall P items -> P (DArray items)) ->
  (forall props, Forall (fun e => P (snd e)) props -> P (DObject props)) ->
  forall d, P d.
Proof.
  intros HN HB HX HS HA HO. fix IH 1. intros [|b|x|s|items|props].
  - exact HN.
  - apply HB.
  - apply HX.
  - apply HS.
  - apply HA. induction items as [|a items IHl]; constructor; [apply IH|exact IHl].
  - apply HO. induction props as [|a props IHl]; constructor; [apply IH|exact IHl].
Qed.

Lemma stable_of_some x (H : stableb x = true) : stable_of x = Some (mkJnumber x H).
Proof.
  unfold stable_of.
  assert (G : forall b (E : stableb x = b),
             (if b as b0 return stableb x = b0 -> option jnumber
              then fun H0 => Some (mkJnumber x H0) else fun _ => None) E
             = Some (mkJnumber x H)).
  { intros [|] E; [|congruence].
    do 2 f_equal. apply Eqdep_dec.UIP_dec, Bool.bool_dec. }
  apply G.
Qed.

Lemma stable_of_value n : stable_of (jn_value n) = Some n.
Proof. destruct n as [x H]. apply stable_of_some. Qed.

Lemma stable_of_inv x n : stable_of x = Some n -> jn_value n = x.
Proof.
  destruct (stableb x) eqn:E.
  - rewrite (stable_of_some x E). now intros [= <-].
  - unfold stable_of.
    assert (G : forall b (E0 : stableb x = b), b = false ->
               (if b as b0 return stableb x = b0 -> option jnumber
                then fun H0 => Some (mkJnumber x H0) else fun _ => None) E0
               = None).
    { intros [|] E0 Hb; [discriminate|reflexivity]. }
    rewrite (G _ eq_refl E). discriminate.
Qed.

Lemma stableb_finite x : stableb x = true -> is_double x = true /\ is_finite x = true.
Proof. unfold stableb. rewrite !andb_true_iff. tauto. Qed.

Lemma positive_zero_stable x : stableb x = true -> positive_zero x = x.
Proof.
  unfold stableb. rewrite !andb_true_iff, negb_true_iff.
  intros [_ H]. destruct x as [|neg|[|] [| |] e]; auto; discriminate.
Qed.

Lemma is_double_sign neg neg' m e :
  is_double (Finite neg m e) = is_double (Finite neg' m e).
Proof. reflexivity. Qed.

Lemma stableb_positive_zero x :
  is_double x = true -> is_finite x = true -> stableb (positive_zero x) = true.
Proof.
  destruct x as [|neg|neg m e]; try discriminate. intros Hd _.
  destruct (Z.eq_dec m 0) as [->|Hm].
  - cbn [positive_zero]. unfold stableb.
    rewrite (is_double_sign false neg), Hd. reflexivity.
  - assert (Hz : positive_zero (Finite neg m e) = Finite neg m e)
      by (destruct m; [congruence|reflexivity|reflexivity]).
    rewrite Hz. unfold stableb. rewrite Hd. cbn [is_finite andb].
    destruct neg, m; try reflexivity; congruence.
Qed.

(** [JSON.stringify] writes no literal that would read as [-0] or as an
    infinity: a finite binary64 number comes back, the sign of a zero
    dropped. *)
Lemma JSON_number_written x :
  is_double x = true -> is_finite x = true ->
  exists n, JSON_value (DNumber x) = JNumber n /\ jn_value n = positive_zero x.
Proof.
  intros Hd Hf. destruct (print_number_finite x Hf) as [l Hl].
  unfold JSON_value. cbn [JSON_write]. rewrite Hl. cbn [JSON_read].
  rewrite (print_read x l Hd Hl).
  rewrite (stable_of_some _ (stableb_positive_zero x Hd Hf)). eauto.
Qed.

Lemma JSON_value_number n : JSON_value (DNumber (jn_value n)) = JNumber n.
Proof.
  destruct (stableb_finite _ (jn_stable n)) as [Hd Hf].
  destruct (print_number_finite _ Hf) as [l Hl].
  unfold JSON_value. cbn [JSON_write]. rewrite Hl. cbn [JSON_read].
  rewrite (print_read _ l Hd Hl), (positive_zero_stable _ (jn_stable n)).
  now rewrite stable_of_value.
Qed.

Lemma JSON_value_array items :
  JSON_value (DArray items) = JArray (map JSON_value items).
Proof. unfold JSON_value. cbn [JSON_write JSON_read]. now rewrite map_map. Qed.

Lemma JSON_value_object props :
  JSON_value (DObject props)
  = JObject (map (fun e => (fst e, JSON_value (snd e))) props).
Proof. unfold JSON_value. cbn [JSON_write JSON_read]. now rewrite map_map. Qed.

Lemma map_id_Forall {A} (f : A -> A) (l : list A) :
  Forall (fun x => f x = x) l -> map f l = l.
Proof. induction 1; simpl; congruence. Qed.

(** A document comes back as it is. *)
Lemma JSON_value_embed (j : json) : JSON_value j = j.
Proof.
  induction j as [|b|n|s|items IH|props IH] using json_induction; try reflexivity.
  - apply JSON_value_number.
  - cbn [embed]. rewrite JSON_value_array, map_map. f_equal.
    now apply map_id_Forall.
  - cbn [embed]. rewrite JSON_value_object, map_map. f_equal.
    apply map_id_Forall. eapply Forall_impl; [|exact IH].
    intros [k v] H. cbn [fst snd] in *. now rewrite H.
Qed.

Lemma JSON_stringify_eq (d : jsdata) : JSON_stringify d = Serialized (JSON_value d).
Proof. reflexivity. Qed.

Lemma JSON_stringify_embed (j : json) : JSON_stringify j = Serialized j.
Proof. now rewrite JSON_stringify_eq, JSON_value_embed. Qed.

Lemma map_set_entry {A B} (f : A -> B) k v (l : list (string * A)) :
  map (fun e => (fst e, f (snd e))) (set_entry k v l)
  = set_entry k (f v) (map (fun e => (fst e, f (snd e))) l).
Proof.
  induction l as [|[k0 v0] l IH]; simpl; auto.
  destruct (String.eqb k k0); simpl; congruence.
Qed.

(** An assignment in memory, written and read back, is the assignment on
    the document. *)
Lemma assign_value (data : json) name (r : jsdata) :
  match assign data name r with
  | inr d => inr (JSON_value d)
  | inl e => inl e
  end = set_prop data name (JSON_value r).
Proof.
  destruct data as [|b|n|s|items|props]; try reflexivity.
  - cbn [embed assign set_prop]. f_equal.
    exact (JSON_value_embed (JArray items)).
  - cbn [embed assign set_prop]. f_equal.
    rewrite JSON_value_object, map_set_entry. f_equal. f_equal.
    pose proof (JSON_value_embed (JObject props)) as H.
    cbn [embed] in H. rewrite JSON_value_object in H. now injection H.
Qed.

(** A value of the serialization format comes back with the sign of its
    zeros dropped, and is otherwise the same. *)
Lemma JSON_value_json (d : jsdata) :
  is_json_value d = true -> embed (JSON_value d) = positive_zeros d.
Proof.
  induction d as [|b|x|s|items IH|props IH] using jsdata_induction;
    try reflexivity.
  - cbn [is_json_value]. rewrite andb_true_iff. intros [Hd Hf].
    destruct (JSON_number_written x Hd Hf) as (n & -> & Hn).
    cbn [embed positive_zeros]. now rewrite Hn.
  - cbn [is_json_value positive_zeros]. rewrite forallb_forall. intros Hall.
    rewrite JSON_value_array. cbn [embed]. rewrite map_map. f_equal.
    apply map_ext_in. intros a Ha. rewrite Forall_forall in IH. auto.
  - cbn [is_json_value positive_zeros]. rewrite forallb_forall. intros Hall.
    rewrite JSON_value_object. cbn [embed]. rewrite map_map. f_equal.
    apply map_ext_in. intros a Ha. cbn [fst snd]. rewrite Forall_forall in IH.
    f_equal. auto.
Qed.

Lemma positive_zero_same x : positive_zero x = x <-> is_negative_zero x = false.
Proof.
  destruct x as [|neg|[|] [| |] e]; simpl; split; congruence.
Qed.

(** Dropping the sign of the zeros changes a value exactly when it holds a
    [-0]. *)
Lemma positive_zeros_same (d : jsdata) :
  positive_zeros d = d <-> has_negative_zero d = false.
Proof.
  induction d as [|b|x|s|items IH|props IH] using jsdata_induction;
    try (simpl; tauto).
  - cbn [positive_zeros has_negative_zero]. rewrite <- positive_zero_same.
    split; congruence.
  - cbn [positive_zeros has_negative_zero]. split.
    + intros [= H]. induction IH as [|a l Ha _ IHl]; [reflexivity|].
      simpl in *. injection H as H1 H2. apply orb_false_iff. split; [now apply Ha|auto].
    + intros H. f_equal. induction IH as [|a l Ha _ IHl]; [reflexivity|].
      simpl in *. apply orb_false_iff in H as [H1 H2]. f_equal; [now apply Ha|auto].
  - cbn [positive_zeros has_negative_zero]. split.
    + intros [= H]. induction IH as [|[k a] l Ha _ IHl]; [reflexivity|].
      simpl in *. injection H as H1 H2. apply orb_false_iff. split; [now apply Ha|auto].
    + intros H. f_equal. induction IH as [|[k a] l Ha _ IHl]; [reflexivity|].
      simpl in *. apply orb_false_iff in H as [H1 H2].
      f_equal; [f_equal; now apply Ha|auto].
Qed.

End CodecFacts.

(* ------------------------------------------------------------------ *)
(** ** Association lists *)

Section AssocFacts.

Context {A : Type}.
Implicit Types (k : string) (v : A) (l : list (string * A)).

Lemma assoc_set_entry_same k v l : assoc k (set_entry k v l) = Some v.
Proof.
  induction l as [|[k' v'] l IH]; simpl.
  - now rewrite String.eqb_refl.
  - destruct (String.eqb k k') eqn:E; simpl; rewrite E; auto.
Qed.

Lemma assoc_set_entry_other k k' v l :
  k <> k' -> assoc k' (set_entry k v l) = assoc k' l.
Proof.
  intros Hne. induction l as [|[k0 v0] l IH]; simpl.
  - destruct (String.eqb k' k) eqn:E; auto.
    apply String.eqb_eq in E. congruence.
  - destruct (String.eqb k k0) eqn:E; simpl.
    + apply String.eqb_eq in E. subst k0.
      destruct (String.eqb k' k) eqn:E'; auto.
      apply String.eqb_eq in E'. congruence.
    + now rewrite IH.
Qed.

Lemma assoc_remove_entry_same k l : assoc k (remove_entry k l) = None.
Proof.
  unfold remove_entry. induction l as [|[k' v'] l IH]; simpl; auto.
  destruct (String.eqb k k') eqn:E; simpl; auto. now rewrite E.
Qed.

Lemma assoc_remove_entry_other k k' l :
  k <> k' -> assoc k' (remove_entry k l) = assoc k' l.
Proof.
  intros Hne. unfold remove_entry.
  induction l as [|[k0 v0] l IH]; simpl; auto.
  destruct (String.eqb k k0) eqn:E; simpl.
  - apply String.eqb_eq in E. subst k0.
    destruct (String.eqb k' k) eqn:E'; auto.
    apply String.eqb_eq in E'. congruence.
  - now rewrite IH.
Qed.

Lemma assoc_In k v l : assoc k l = Some v -> In (k, v) l.
Proof.
  induction l as [|[k' v'] l IH]; simpl; [discriminate|].
  destruct (String.eqb k k') eqn:E.
  - apply String.eqb_eq in E. intros [= ->]. subst. now left.
  - auto.
Qed.

Lemma In_assoc k v l : NoDup (map fst l) -> In (k, v) l -> assoc k l = Some v.
Proof.
  induction l as [|[k' v'] l IH]; simpl; [tauto|].
  intros Hnd [Heq | Hin].
  - injection Heq as -> ->. now rewrite String.eqb_refl.
  - inversion Hnd as [|? ? Hni Hnd']; subst.
    destruct (String.eqb k k') eqn:E; auto.
    apply String.eqb_eq in E. subst k'.
    exfalso. apply Hni. now apply (in_map fst) in Hin.
Qed.

Lemma set_entry_In k v l e :
  In e (set_entry k v l) -> e = (k, v) \/ In e l.
Proof.
  induction l as [|[k' v'] l IH]; simpl.
  - intros [<- | []]. now left.
  - destruct (String.eqb k k') eqn:E; simpl.
    + apply String.eqb_eq in E. subst k'. intros [<- | H]; auto.
    + intros [<- | H]; auto. destruct (IH H); auto.
Qed.

Lemma remove_entry_In k l e : In e (remove_entry k l) -> In e l /\ fst e <> k.
Proof.
  unfold remove_entry. rewrite filter_In. intros [H E]. split; auto.
  intros <-. now rewrite String.eqb_refl in E.
Qed.

Lemma set_entry_not_nil k v l : set_entry k v l <> [].
Proof.
  destruct l as [|[k' v'] l]; simpl; [discriminate|].
  destruct (String.eqb k k'); discriminate.
Qed.

Lemma set_entry_names_present k v v0 l :
  assoc k l = Some v0 -> map fst (set_entry k v l) = map fst l.
Proof.
  induction l as [|[k' v'] l IH]; simpl; [discriminate|].
  destruct (String.eqb k k') eqn:E; simpl; auto.
  intros H. now rewrite IH.
Qed.

Lemma set_entry_names_absent k v l :
  assoc k l = None -> map fst (set_entry k v l) = map fst l ++ [k].
Proof.
  induction l as [|[k' v'] l IH]; simpl; auto.
  destruct (String.eqb k k') eqn:E; simpl; [discriminate|].
  intros H. now rewrite IH.
Qed.

Lemma assoc_None_names k l : assoc k l = None -> ~ In k (map fst l).
Proof.
  induction l as [|[k' v'] l IH]; simpl; auto.
  destruct (String.eqb k k') eqn:E; [discriminate|].
  apply String.eqb_neq in E. intros H [Heq | Hin]; [congruence|].
  now apply IH.
Qed.

End AssocFacts.

(* ------------------------------------------------------------------ *)
(** ** The directory tree: what a path holds after an update *)

Section TreeFacts.

Import Js Fs Cache Store.
Implicit Types (fs n c : node) (p q : path) (t : text).

Lemma find_app fs p q :
  find fs (p ++ q) = match find fs p with Some n => find n q | None => None end.
Proof.
  revert fs. induction p as [|name p IH]; intros fs; simpl; auto.
  destruct fs as [t|es]; auto. destruct (assoc name es); auto.
Qed.

Lemma kind_at_app fs p q n :
  find fs p = Some n -> kind_at fs (p ++ q) = kind_at n q.
Proof. intros H. unfold kind_at. now rewrite find_app, H. Qed.

Lemma kind_at_File t q :
  kind_at (File t) q = match q with [] => Some (KFile t) | _ => None end.
Proof. destruct q; reflexivity. Qed.

Lemma kind_at_Dir_nil es : kind_at (Dir es) [] = Some KDir.
Proof. reflexivity. Qed.

Lemma kind_at_Dir_cons es name q :
  kind_at (Dir es) (name :: q)
  = match assoc name es with Some c => kind_at c q | None => None end.
Proof. unfold kind_at. simpl. destruct (assoc name es); reflexivity. Qed.

(** Below a file, and below a missing entry, there is nothing. *)
Lemma kind_at_below_none fs p q :
  q <> [] -> kind_at fs p <> Some KDir -> kind_at fs (p ++ q) = None.
Proof.
  intros Hq Hk. unfold kind_at in *. rewrite find_app.
  destruct (find fs p) as [[t|es]|]; simpl in *; try congruence.
  destruct q; simpl; congruence.
Qed.

(** Whatever holds an entry is a directory. *)
Lemma kind_at_parent fs p q k :
  kind_at fs (p ++ q) = Some k -> q <> [] -> kind_at fs p = Some KDir.
Proof.
  intros H Hq. destruct (kind_at fs p) as [[t|]|] eqn:E; auto.
  - rewrite kind_at_below_none in H; congruence.
  - rewrite kind_at_below_none in H; congruence.
Qed.

Lemma removelast_cons2 (a b : string) (r : list string) :
  removelast (a :: b :: r) = a :: removelast (b :: r).
Proof. reflexivity. Qed.

Lemma put_cons2 es name a r new :
  put (Dir es) (name :: a :: r) new
  = match assoc name es with
    | Some c => Dir (set_entry name (put c (a :: r) new) es)
    | None => Dir es
    end.
Proof. reflexivity. Qed.

Lemma del_cons2 es name a r :
  del (Dir es) (name :: a :: r)
  = match assoc name es with
    | Some c => Dir (set_entry name (del c (a :: r)) es)
    | None => Dir es
    end.
Proof. reflexivity. Qed.

(** Writing a file where there is a file, or nothing in a directory. *)
Lemma kind_at_put_file p : forall fs t q,
  (kind_at fs p = None -> kind_at fs (removelast p) = Some KDir) ->
  kind_at fs p <> Some KDir ->
  kind_at (put fs p (File t)) q
  = if path_eq_dec q p then Some (KFile t) else kind_at fs q.
Proof.
  induction p as [|name p' IH]; intros fs t q Hpar Hnd.
  - simpl. destruct fs as [t0|es]; [|now elim Hnd].
    rewrite !kind_at_File. destruct q; destruct (path_eq_dec _ _); congruence.
  - destruct fs as [t0|es].
    + exfalso. destruct p' as [|a r].
      * specialize (Hpar eq_refl). discriminate.
      * specialize (Hpar eq_refl). rewrite removelast_cons2 in Hpar. discriminate.
    + destruct p' as [|a r].
      * simpl put. destruct q as [|n' q'].
        { destruct (path_eq_dec _ _); [discriminate|reflexivity]. }
        rewrite !kind_at_Dir_cons.
        destruct (string_dec name n') as [<-|Hne].
        -- rewrite assoc_set_entry_same, kind_at_File.
           destruct q' as [|b q''].
           ++ destruct (path_eq_dec _ _); congruence.
           ++ destruct (path_eq_dec _ _); [congruence|].
              rewrite kind_at_Dir_cons in Hnd.
              destruct (assoc name es) as [[t1|es1]|]; auto.
              now elim Hnd.
        -- rewrite assoc_set_entry_other by auto.
           destruct (path_eq_dec _ _); congruence.
      * rewrite removelast_cons2 in Hpar.
        rewrite !kind_at_Dir_cons in *.
        rewrite put_cons2. destruct (assoc name es) as [c|] eqn:Ea.
        2:{ specialize (Hpar eq_refl). discriminate. }
        destruct q as [|n' q'].
        { destruct (path_eq_dec _ _); [discriminate|reflexivity]. }
        rewrite !kind_at_Dir_cons.
        destruct (string_dec name n') as [<-|Hne].
        -- rewrite assoc_set_entry_same, Ea. rewrite IH by auto.
           destruct (path_eq_dec q' (a :: r)), (path_eq_dec (name :: q') (name :: a :: r));
             congruence.
        -- rewrite assoc_set_entry_other by auto.
           destruct (path_eq_dec _ _); congruence.
Qed.

Lemma leaf_below n q : leaf n -> q <> [] -> kind_at n q = None.
Proof.
  destruct n as [t|[|e es]]; simpl; intros H Hq; try tauto.
  - rewrite kind_at_File. destruct q; congruence.
  - destruct q; [congruence|reflexivity].
Qed.

Lemma kind_at_del p : forall fs n q,
  p <> [] -> find fs p = Some n -> leaf n ->
  kind_at (del fs p) q = if path_eq_dec q p then None else kind_at fs q.
Proof.
  induction p as [|name p' IH]; intros fs n q Hp Hf Hl; [congruence|].
  destruct fs as [t0|es]; [discriminate|].
  simpl in Hf. destruct (assoc name es) as [c|] eqn:Ea; [|discriminate].
  destruct p' as [|a r].
  - simpl in Hf. injection Hf as ->. simpl del.
    destruct q as [|n' q'].
    { destruct (path_eq_dec _ _); [discriminate|reflexivity]. }
    rewrite !kind_at_Dir_cons.
    destruct (string_dec name n') as [<-|Hne].
    + rewrite assoc_remove_entry_same, Ea.
      destruct (path_eq_dec _ _); auto.
      symmetry. apply leaf_below; auto. congruence.
    + rewrite assoc_remove_entry_other by auto.
      destruct (path_eq_dec _ _); congruence.
  - rewrite del_cons2, Ea.
    destruct q as [|n' q'].
    { destruct (path_eq_dec _ _); [discriminate|reflexivity]. }
    rewrite !kind_at_Dir_cons.
    destruct (string_dec name n') as [<-|Hne].
    + rewrite assoc_set_entry_same, Ea.
      rewrite (IH c n) by (auto; discriminate).
      destruct (path_eq_dec q' (a :: r)), (path_eq_dec (name :: q') (name :: a :: r));
        congruence.
    + rewrite assoc_set_entry_other by auto.
      destruct (path_eq_dec _ _); congruence.
Qed.

Lemma is_prefix_app q r : is_prefix q (q ++ r) = true.
Proof. induction q; simpl; auto. now rewrite String.eqb_refl. Qed.

Lemma is_prefix_refl q : is_prefix q q = true.
Proof. induction q; simpl; auto. now rewrite String.eqb_refl. Qed.

Lemma is_prefix_true q p : is_prefix q p = true -> exists r, p = q ++ r.
Proof.
  revert p. induction q as [|a q IH]; intros p H; simpl in *.
  - now exists p.
  - destruct p as [|b p]; [discriminate|].
    apply andb_true_iff in H as [E H]. apply String.eqb_eq in E. subst b.
    destruct (IH _ H) as [r ->]. now exists r.
Qed.

Lemma kind_at_mkdirp p : forall fs fs' q,
  mkdirp fs p = Some fs' ->
  kind_at fs' q
  = match kind_at fs q with
    | Some k => Some k
    | None => if is_prefix q p then Some KDir else None
    end.
Proof.
  induction p as [|name p' IH]; intros fs fs' q H.
  - destruct fs as [t|es]; simpl in H; [discriminate|]. injection H as <-.
    destruct (kind_at (Dir es) q) eqn:E; auto.
    destruct q; [discriminate|reflexivity].
  - destruct fs as [t|es]; simpl in H; [discriminate|].
    destruct (mkdirp _ p') as [c'|] eqn:Em; [|discriminate]. injection H as <-.
    destruct q as [|n' q']; [reflexivity|].
    rewrite !kind_at_Dir_cons. simpl is_prefix.
    destruct (string_dec name n') as [<-|Hne].
    + rewrite assoc_set_entry_same, String.eqb_refl. simpl.
      rewrite (IH _ _ q' Em).
      destruct (assoc name es) as [c|]; auto.
      destruct q'; reflexivity.
    + rewrite assoc_set_entry_other by auto.
      destruct (String.eqb n' name) eqn:E.
      * apply String.eqb_eq in E. congruence.
      * simpl. destruct (assoc n' es) as [c|]; auto. destruct (kind_at c q'); auto.
Qed.

Lemma mkdirp_success p : forall fs,
  (forall q t, is_prefix q p = true -> kind_at fs q <> Some (KFile t)) ->
  exists fs', mkdirp fs p = Some fs'.
Proof.
  induction p as [|name p' IH]; intros fs H.
  - destruct fs as [t|es]; [|now eexists].
    exfalso. apply (H [] t); reflexivity.
  - destruct fs as [t|es]; [exfalso; apply (H [] t); reflexivity|].
    simpl.
    destruct (IH (match assoc name es with Some c => c | None => Dir [] end)) as [c' Hc'].
    + intros q t Hq Hk. apply (H (name :: q) t).
      * simpl. now rewrite String.eqb_refl.
      * rewrite kind_at_Dir_cons. destruct (assoc name es) as [c|]; auto.
        destruct q; discriminate.
    + rewrite Hc'. now eexists.
Qed.

End TreeFacts.

(* ------------------------------------------------------------------ *)
(** ** The calls of the file-system API and the private helpers *)

Section CallFacts.

Import Js Fs Cache Store.
Local Open Scope fs_scope.
Implicit Types (fs : node) (p q : path) (t : text) (data : json).

Lemma bind_Ok {A B} (m : M A) (k : A -> M B) fs a fs' :
  m fs = (Ok a, fs') -> bind m k fs = k a fs'.
Proof. unfold bind. now intros ->. Qed.

Lemma bind_Throw {A B} (m : M A) (k : A -> M B) fs e fs' :
  m fs = (Throw e, fs') -> bind m k fs = (Throw e, fs').
Proof. unfold bind. now intros ->. Qed.

Lemma try_catch_rethrow {A} (m : M A) fs :
  try_catch m (fun e => throw e) fs = m fs.
Proof. unfold try_catch, throw. destruct (m fs) as [[a|e|] fs']; reflexivity. Qed.

Lemma existsSync_eq p fs :
  existsSync p fs
  = (Ok (match kind_at fs p with Some _ => true | None => false end), fs).
Proof. unfold existsSync, kind_at. destruct (find fs p); reflexivity. Qed.

Lemma readFile_eq p fs : _readFile p fs = (Ok (document_at fs p), fs).
Proof.
  unfold _readFile, document_at, kind_at, bind, try_catch, existsSync, readFileSync.
  destruct (find fs p) as [[[raw|j]|es]|] eqn:E; cbn; rewrite ?E; reflexivity.
Qed.

Lemma writeFile_value p (d : jsdata) fs :
  _writeFile p d fs = writeFileSync p (Serialized (JSON_value d)) fs.
Proof. unfold _writeFile. apply try_catch_rethrow. Qed.

Lemma writeFile_eq p data fs :
  _writeFile p data fs = writeFileSync p (Serialized data) fs.
Proof. now rewrite writeFile_value, JSON_value_embed. Qed.

Lemma kind_at_find_None fs p : kind_at fs p = None <-> find fs p = None.
Proof. unfold kind_at. destruct (find fs p); simpl; split; congruence. Qed.

(** A write succeeds on a file, and on a free name of a directory. *)
Lemma writeFileSync_ok p t fs :
  kind_at fs p <> Some KDir ->
  (kind_at fs p = None -> kind_at fs (removelast p) = Some KDir) ->
  exists fs', writeFileSync p t fs = (Ok tt, fs') /\ wrote fs p t fs'.
Proof.
  intros Hnd Hpar. exists (put fs p (File t)). split.
  - unfold writeFileSync. unfold kind_at in *.
    destruct (find fs p) as [[t0|es]|]; simpl in *; auto; [congruence|].
    specialize (Hpar eq_refl).
    destruct (find fs (removelast p)) as [[t1|es1]|]; simpl in *; congruence.
  - intros q. now apply kind_at_put_file.
Qed.

(** Whatever a write returns, it wrote the file or changed nothing. *)
Lemma writeFileSync_post p t fs r fs' :
  writeFileSync p t fs = (r, fs') ->
  (r = Ok tt /\ wrote fs p t fs') \/ (fs' = fs /\ exists code, r = Throw (SystemError code)).
Proof.
  unfold writeFileSync. intros H.
  destruct (find fs p) as [[t0|es]|] eqn:Ef.
  - injection H as <- <-. left. split; auto.
    intros q. apply kind_at_put_file; unfold kind_at; rewrite Ef; simpl; congruence.
  - injection H as <- <-. right. eauto.
  - destruct (find fs (removelast p)) as [[t1|es1]|] eqn:Ep;
      injection H as <- <-; [right; eauto| |right; eauto].
    left. split; auto.
    intros q. apply kind_at_put_file; unfold kind_at; rewrite ?Ef, ?Ep; simpl; congruence.
Qed.

Lemma unlinkSync_post p fs r fs' :
  unlinkSync p fs = (r, fs') ->
  (r = Ok tt /\ removed fs p fs' /\ exists t, kind_at fs p = Some (KFile t))
  \/ (fs' = fs /\ exists code, r = Throw (SystemError code)).
Proof.
  unfold unlinkSync. intros H.
  destruct p as [|name p']; [injection H as <- <-; right; eauto|].
  destruct (find fs (name :: p')) as [[t0|es]|] eqn:Ef;
    injection H as <- <-; [|right; eauto|right; eauto].
  left. split; [|split]; auto.
  - intros q. apply (kind_at_del (name :: p') fs (File t0)); simpl; auto. discriminate.
  - exists t0. unfold kind_at. now rewrite Ef.
Qed.

Lemma unlinkSync_ok p fs t :
  p <> [] -> kind_at fs p = Some (KFile t) ->
  exists fs', unlinkSync p fs = (Ok tt, fs') /\ removed fs p fs'.
Proof.
  intros Hp Hk. destruct (unlinkSync p fs) as [r fs'] eqn:E.
  destruct (unlinkSync_post _ _ _ _ E) as [(-> & Hr & _) | (_ & e & ->)]; eauto.
  exfalso. unfold unlinkSync, kind_at in *.
  destruct p; [congruence|].
  destruct (find fs (s :: p)) as [[t0|es]|]; simpl in *; congruence.
Qed.

Lemma rmdirSync_post p fs r fs' :
  rmdirSync p fs = (r, fs') ->
  (r = Ok tt /\ removed fs p fs' /\ kind_at fs p = Some KDir)
  \/ (fs' = fs /\ exists code, r = Throw (SystemError code)).
Proof.
  unfold rmdirSync. intros H.
  destruct p as [|name p']; [injection H as <- <-; right; eauto|].
  destruct (find fs (name :: p')) as [[t0|[|e0 es]]|] eqn:Ef;
    injection H as <- <-; [right; eauto| |right; eauto|right; eauto].
  left. split; [|split]; auto.
  - intros q. apply (kind_at_del (name :: p') fs (Dir [])); simpl; auto. discriminate.
  - unfold kind_at. now rewrite Ef.
Qed.

Lemma grown_refl fs p : kind_at fs p <> None -> grown fs p fs.
Proof.
  intros H q. destruct (kind_at fs q) eqn:E; auto.
  destruct (is_prefix q p) eqn:Ep; auto.
  apply is_prefix_true in Ep as [r ->].
  destruct (kind_at fs (q ++ r)) as [k|] eqn:Ek; [|congruence].
  destruct r as [|a r]; [rewrite app_nil_r in Ek; congruence|].
  apply kind_at_parent in Ek; [congruence|discriminate].
Qed.

(** Whatever [_ensureDir] returns, it created missing directories of its
    path or changed nothing. *)
Lemma ensureDir_post p fs r fs' :
  _ensureDir p fs = (r, fs') ->
  (r = Ok tt /\ grown fs p fs') \/ (fs' = fs /\ exists code, r = Throw (SystemError code)).
Proof.
  unfold _ensureDir. rewrite (bind_Ok _ _ _ _ _ (existsSync_eq p fs)).
  destruct (kind_at fs p) as [k|] eqn:Ek; simpl.
  - intros [= <- <-]. left. split; auto. apply grown_refl. congruence.
  - unfold mkdirSync_recursive. destruct (mkdirp fs p) as [fs1|] eqn:Em.
    + intros [= <- <-]. left. split; auto. intros q. now apply kind_at_mkdirp.
    + destruct (find fs p); intros [= <- <-]; right; eauto.
Qed.

Lemma ensureDir_ok p fs :
  (forall q t, is_prefix q p = true -> kind_at fs q <> Some (KFile t)) ->
  exists fs', _ensureDir p fs = (Ok tt, fs') /\ grown fs p fs'.
Proof.
  intros H. destruct (_ensureDir p fs) as [r fs'] eqn:E.
  destruct (ensureDir_post _ _ _ _ E) as [(-> & Hg) | (_ & e & ->)]; eauto.
  exfalso. revert E. unfold _ensureDir.
  rewrite (bind_Ok _ _ _ _ _ (existsSync_eq p fs)).
  destruct (kind_at fs p) as [k|] eqn:Ek; simpl; [discriminate|].
  unfold mkdirSync_recursive.
  destruct (mkdirp_success p fs H) as [fs1 ->]. discriminate.
Qed.

(** Created directories leave every file, and every document, as it was. *)
Lemma grown_file_at fs p fs' q : grown fs p fs' -> file_at fs' q = file_at fs q.
Proof.
  intros H. unfold file_at. rewrite (H q).
  destruct (kind_at fs q) as [k|]; auto. destruct (is_prefix q p); auto.
Qed.

Lemma grown_document_at fs p fs' q :
  grown fs p fs' -> document_at fs' q = document_at fs q.
Proof.
  intros H. unfold document_at. rewrite (H q).
  destruct (kind_at fs q) as [k|]; auto. destruct (is_prefix q p); auto.
Qed.

Lemma wrote_file_at_same fs p t fs' : wrote fs p t fs' -> file_at fs' p = Some t.
Proof.
  intros H. unfold file_at. rewrite (H p). destruct (path_eq_dec p p); congruence.
Qed.

Lemma wrote_file_at_other fs p t fs' q :
  wrote fs p t fs' -> q <> p -> file_at fs' q = file_at fs q.
Proof.
  intros H Hq. unfold file_at. rewrite (H q). destruct (path_eq_dec q p); congruence.
Qed.

Lemma removed_file_at_same fs p fs' : removed fs p fs' -> file_at fs' p = None.
Proof.
  intros H. unfold file_at. rewrite (H p). destruct (path_eq_dec p p); congruence.
Qed.

Lemma removed_file_at_other fs p fs' q :
  removed fs p fs' -> q <> p -> file_at fs' q = file_at fs q.
Proof.
  intros H Hq. unfold file_at. rewrite (H q). destruct (path_eq_dec q p); congruence.
Qed.

End CallFacts.

(* ------------------------------------------------------------------ *)
(** ** The digest and the shard path *)

Section PathFacts.

Import Js Fs Cache Store.
Implicit Types (this : JsonFileCache) (key : string)
  (value v old : json).

Lemma hexdigit_hex n : In (MD5.hexdigit n) MD5.hexdigits.
Proof.
  unfold MD5.hexdigit.
  destruct (nth_in_or_default (Z.to_nat n) MD5.hexdigits "0"%char) as [H|H]; auto.
  rewrite H. left. reflexivity.
Qed.

Lemma hex_length bs : String.length (MD5.hex bs) = 2 * List.length bs.
Proof. induction bs as [|b bs IH]; simpl; auto. rewrite IH. lia. Qed.

Lemma digest_length msg : List.length (MD5.digest msg) = 16.
Proof. reflexivity. Qed.

Lemma getMd5_length key : String.length (_getMd5 key) = 32.
Proof. unfold _getMd5, MD5.md5_hex. now rewrite hex_length, digest_length. Qed.

Lemma getMd5_shape key :
  exists c0 c1 c2 c3 rest,
    _getMd5 key = String c0 (String c1 (String c2 (String c3 rest)))
    /\ In c0 MD5.hexdigits /\ In c1 MD5.hexdigits
    /\ In c2 MD5.hexdigits /\ In c3 MD5.hexdigits.
Proof.
  unfold _getMd5, MD5.md5_hex.
  destruct (MD5.digest (MD5.bytes_of_string key)) as [|b0 [|b1 bs]] eqn:E;
    try (apply (f_equal (@List.length Z)) in E; rewrite digest_length in E;
         discriminate).
  cbn [MD5.hex]. do 5 eexists. split; [reflexivity|].
  repeat split; apply hexdigit_hex.
Qed.

Lemma getFilePath_md5 this key : md5 (_getFilePath this key) = _getMd5 key.
Proof. reflexivity. Qed.

(** The shard path, segment by segment. *)
Lemma getFilePath_shape this key :
  exists c0 c1 c2 c3 rest,
    _getMd5 key = String c0 (String c1 (String c2 (String c3 rest)))
    /\ In c0 MD5.hexdigits /\ In c1 MD5.hexdigits
    /\ In c2 MD5.hexdigits /\ In c3 MD5.hexdigits
    /\ folderPath (_getFilePath this key)
       = cachePath this ++ [String c0 ""; String c1 ""; String c2 ""]
    /\ filePath (_getFilePath this key)
       = cachePath this
           ++ [String c0 ""; String c1 ""; String c2 ""; String c3 ".json"].
Proof.
  destruct (getMd5_shape key) as (c0 & c1 & c2 & c3 & rest & E & H0 & H1 & H2 & H3).
  exists c0, c1, c2, c3, rest. repeat (split; auto).
  - unfold _getFilePath. rewrite E. reflexivity.
  - unfold _getFilePath. rewrite E. cbn. unfold path_join. cbn. now rewrite <- app_assoc.
Qed.

Lemma filePath_folderPath this key :
  exists name,
    filePath (_getFilePath this key) = folderPath (_getFilePath this key) ++ [name]
    /\ endsWith name ".json" = true.
Proof.
  destruct (getFilePath_shape this key)
    as (c0 & c1 & c2 & c3 & rest & _ & _ & _ & _ & _ & Hf & Hp).
  exists (String c3 ".json"). rewrite Hf, Hp, <- app_assoc. split; reflexivity.
Qed.

Lemma filePath_parent this key :
  removelast (filePath (_getFilePath this key)) = folderPath (_getFilePath this key).
Proof.
  destruct (filePath_folderPath this key) as (name & -> & _).
  apply removelast_last.
Qed.

Lemma filePath_not_nil this key : filePath (_getFilePath this key) <> [].
Proof.
  destruct (filePath_folderPath this key) as (name & -> & _).
  destruct (folderPath _); discriminate.
Qed.

Lemma filePath_not_prefix this key :
  is_prefix (filePath (_getFilePath this key)) (folderPath (_getFilePath this key))
  = false.
Proof.
  destruct (filePath_folderPath this key) as (name & -> & _).
  induction (folderPath (_getFilePath this key)) as [|a l IH]; simpl; auto.
  rewrite String.eqb_refl. exact IH.
Qed.

End PathFacts.

(* ------------------------------------------------------------------ *)
(** ** [setItem], [getItem] and [removeItem], step by step *)

Section MethodFacts.

Import Js Fs Cache Store.
Local Open Scope fs_scope.
Implicit Types (this : JsonFileCache) (key : string) (fs : node)
  (value v old : json).

Lemma new_record_value key (d : jsdata) now :
  JSON_value (new_record key d now) = record key (JSON_value d) now.
Proof.
  unfold new_record, record. rewrite JSON_value_object. cbn [map fst snd].
  unfold Date_now. now rewrite JSON_value_number.
Qed.

(** [setItem] of any value: what is written is the document with the
    Record of the value as it comes back from the JSON text. *)
Lemma setItem_value this key (d : jsdata) now fs :
  setItem this (Val (JString key)) d now fs
  = match _ensureDir (folderPath (_getFilePath this key)) fs with
    | (Ok _, fs1) =>
        match set_prop (document_at fs1 (filePath (_getFilePath this key)))
                       (_getMd5 key) (record key (JSON_value d) now) with
        | inr data' =>
            writeFileSync (filePath (_getFilePath this key)) (Serialized data') fs1
        | inl e => (Throw e, fs1)
        end
    | (Throw e, fs1) => (Throw e, fs1)
    | (OutOfFuel, fs1) => (OutOfFuel, fs1)
    end.
Proof.
  unfold setItem. cbv zeta. unfold bind at 1.
  destruct (_ensureDir _ fs) as [[[]|e|] fs1]; auto.
  rewrite (bind_Ok _ _ _ _ _ (readFile_eq _ fs1)).
  rewrite getFilePath_md5. unfold bind.
  pose proof (assign_value (document_at fs1 (filePath (_getFilePath this key)))
                (_getMd5 key) (new_record key d now)) as Ha.
  rewrite new_record_value in Ha. rewrite <- Ha.
  destruct (assign _ _ _) as [e|d']; cbn [lift ret throw]; auto.
  apply writeFile_value.
Qed.

Lemma setItem_unfold this key v now fs :
  setItem this (Val (JString key)) v now fs
  = match _ensureDir (folderPath (_getFilePath this key)) fs with
    | (Ok _, fs1) =>
        match set_prop (document_at fs1 (filePath (_getFilePath this key)))
                       (_getMd5 key) (record key v now) with
        | inr data' =>
            writeFileSync (filePath (_getFilePath this key)) (Serialized data') fs1
        | inl e => (Throw e, fs1)
        end
    | (Throw e, fs1) => (Throw e, fs1)
    | (OutOfFuel, fs1) => (OutOfFuel, fs1)
    end.
Proof. now rewrite setItem_value, JSON_value_embed. Qed.

Lemma getItem_eq this key fs :
  getItem this (Val (JString key)) fs
  = (match kind_at fs (filePath (_getFilePath this key)) with
     | None => Ok (Val JNull)
     | Some _ =>
         match get_prop (Val (document_at fs (filePath (_getFilePath this key))))
                        (_getMd5 key) with
         | inl e => Throw e
         | inr item =>
             if truthy item then
               match get_prop item "value" with
               | inl e => Throw e
               | inr v => Ok v
               end
             else Ok (Val JNull)
         end
     end, fs).
Proof.
  unfold getItem. cbv zeta.
  rewrite (bind_Ok _ _ _ _ _ (existsSync_eq _ fs)).
  destruct (kind_at fs _) as [k|]; cbn [negb]; auto.
  rewrite (bind_Ok _ _ _ _ _ (readFile_eq _ fs)).
  rewrite getFilePath_md5. unfold bind.
  destruct (get_prop (Val _) _) as [e|item]; cbn [lift ret throw]; auto.
  destruct (truthy item); auto.
  destruct (get_prop item "value"); reflexivity.
Qed.

Lemma removeItem_unfold this key fs :
  removeItem this (Val (JString key)) fs
  = match kind_at fs (filePath (_getFilePath this key)) with
    | None => (Ok tt, fs)
    | Some _ =>
        let data := document_at fs (filePath (_getFilePath this key)) in
        match get_prop (Val data) (_getMd5 key) with
        | inl e => (Throw e, fs)
        | inr item =>
            if truthy item then
              match Object_keys_length (delete_prop data (_getMd5 key)) with
              | inl e => (Throw e, fs)
              | inr n =>
                  if Nat.eqb n 0
                  then unlinkSync (filePath (_getFilePath this key)) fs
                  else writeFileSync (filePath (_getFilePath this key))
                         (Serialized (delete_prop data (_getMd5 key))) fs
              end
            else (Ok tt, fs)
        end
    end.
Proof.
  unfold removeItem. cbv zeta.
  rewrite (bind_Ok _ _ _ _ _ (existsSync_eq _ fs)).
  destruct (kind_at fs _) as [k|]; cbn [negb]; auto.
  rewrite (bind_Ok _ _ _ _ _ (readFile_eq _ fs)).
  rewrite getFilePath_md5. unfold bind.
  destruct (get_prop (Val _) _) as [e|item]; cbn [lift ret throw]; auto.
  destruct (truthy item); auto.
  destruct (Object_keys_length _) as [e|n]; cbn [lift ret throw]; auto.
  destruct (Nat.eqb n 0); auto. apply writeFile_eq.
Qed.

(** [getItem] does not write. *)
Lemma getItem_state this (k : jsval) fs : snd (getItem this k fs) = fs.
Proof.
  destruct k as [|[]]; try reflexivity. now rewrite getItem_eq.
Qed.

Lemma get_prop_error o name e : get_prop o name = inl e -> e <> key_error.
Proof.
  destruct o as [|[| | | | |props]]; simpl; intros H;
    try (injection H as <-; discriminate); try discriminate.
  destruct (assoc name props); discriminate.
Qed.

Lemma set_prop_error o name v e : set_prop o name v = inl e -> e <> key_error.
Proof.
  destruct o; simpl; intros H; try (injection H as <-; discriminate); discriminate.
Qed.

Lemma Object_keys_length_error o e : Object_keys_length o = inl e -> e <> key_error.
Proof.
  destruct o; simpl; intros H; try (injection H as <-; discriminate); discriminate.
Qed.

Lemma SystemError_not_key_error code : SystemError code <> key_error.
Proof. discriminate. Qed.

(** Whatever [setItem] returns: it may have created directories of the
    folder path, and it wrote the shard file with the updated document or
    it wrote no file. *)
Lemma setItem_post this key v now fs r fs' :
  setItem this (Val (JString key)) v now fs = (r, fs') ->
  let info := _getFilePath this key in
  exists fs1,
    (grown fs (folderPath info) fs1 \/ fs1 = fs)
    /\ ((exists data',
           set_prop (document_at fs (filePath info)) (_getMd5 key)
                    (record key v now) = inr data'
           /\ wrote fs1 (filePath info) (Serialized data') fs'
           /\ grown fs (folderPath info) fs1 /\ r = Ok tt)
        \/ (fs' = fs1 /\ exists e, r = Throw e /\ e <> key_error)).
Proof.
  rewrite setItem_unfold. cbv zeta.
  destruct (_ensureDir _ fs) as [r1 fs1] eqn:E1.
  destruct (ensureDir_post _ _ _ _ E1) as [(-> & Hg) | (-> & e & ->)].
  - rewrite (grown_document_at _ _ _ _ Hg).
    destruct (set_prop _ _ _) as [e|data'] eqn:Es.
    + intros [= <- <-]. exists fs1. split; auto. right.
      split; auto. exists e. split; auto. eapply set_prop_error; eauto.
    + intros Hw. exists fs1. split; auto.
      destruct (writeFileSync_post _ _ _ _ _ Hw) as [(-> & Hwr) | (-> & e & ->)].
      * left. exists data'. auto.
      * right. split; auto. eexists. split; eauto. discriminate.
  - intros [= <- <-]. exists fs. split; auto. right.
    split; auto. eexists. split; eauto. discriminate.
Qed.

(** Whatever [removeItem] returns: it wrote the shard file with the document
    less the record, or unlinked it because that document was empty, or
    changed nothing. *)
Lemma removeItem_post this key fs r fs' :
  removeItem this (Val (JString key)) fs = (r, fs') ->
  let info := _getFilePath this key in
  let data' := delete_prop (document_at fs (filePath info)) (_getMd5 key) in
  (fs' = fs /\ (r = Ok tt \/ exists e, r = Throw e /\ e <> key_error))
  \/ (r = Ok tt /\ wrote fs (filePath info) (Serialized data') fs'
      /\ exists n, Object_keys_length data' = inr (S n))
  \/ (r = Ok tt /\ removed fs (filePath info) fs'
      /\ Object_keys_length data' = inr 0).
Proof.
  rewrite removeItem_unfold. cbv zeta.
  destruct (kind_at fs _) as [k|]; [|intros [= <- <-]; auto].
  destruct (get_prop (Val _) _) as [e|item] eqn:Eg.
  { intros [= <- <-]. left. split; auto. right. exists e. split; auto.
    eapply get_prop_error; eauto. }
  destruct (truthy item); [|intros [= <- <-]; auto].
  destruct (Object_keys_length _) as [e|[|n]] eqn:El.
  - intros [= <- <-]. left. split; auto. right. exists e. split; auto.
    eapply Object_keys_length_error; eauto.
  - simpl Nat.eqb; cbv iota.
    intros Hu. destruct (unlinkSync_post _ _ _ _ Hu) as [(-> & Hr & _) | (-> & c & ->)]; auto.
    left. split; auto. right. eexists. split; eauto. discriminate.
  - simpl Nat.eqb; cbv iota.
    intros Hw. destruct (writeFileSync_post _ _ _ _ _ Hw) as [(-> & Hwr) | (-> & c & ->)].
    + right. left. eauto.
    + left. split; auto. right. eexists. split; eauto. discriminate.
Qed.

End MethodFacts.

(* ------------------------------------------------------------------ *)
(** ** Writing a shard and reading it back *)

Section ShardFacts.

Import Js Fs Cache Store.
Local Open Scope fs_scope.
Implicit Types (this : JsonFileCache) (key : string) (fs : node)
  (value v old : json).

Lemma is_prefix_app_inv q a b :
  is_prefix q (a ++ b) = true ->
  (exists r, a = q ++ r) \/ (exists q', q = a ++ q' /\ is_prefix q' b = true).
Proof.
  revert q. induction a as [|x a IH]; intros q H; simpl in *.
  - right. now exists q.
  - destruct q as [|y q]; [left; now eexists|].
    simpl in H. apply andb_true_iff in H as [E H].
    apply String.eqb_eq in E. subst y.
    destruct (IH _ H) as [[r ->] | (q' & -> & Hq')].
    + left. now exists r.
    + right. now exists q'.
Qed.

Lemma is_prefix_length q p : is_prefix q p = true -> List.length q <= List.length p.
Proof.
  intros H. apply is_prefix_true in H as [r ->]. rewrite length_app. lia.
Qed.

(** In a store state every shard can be written. *)
Lemma store_state_usable this fs key : store_state this fs -> usable this fs key.
Proof.
  intros [Hroot Hlay].
  destruct (getFilePath_shape this key)
    as (c0 & c1 & c2 & c3 & rest & _ & _ & _ & _ & _ & Hf & Hp).
  split.
  - rewrite Hf. intros q t Hq Hk.
    apply is_prefix_app_inv in Hq as [[r Hr] | (q' & -> & Hq')].
    + destruct r as [|a r].
      * rewrite app_nil_r in Hr. subst q. congruence.
      * rewrite Hr in Hroot. apply kind_at_parent in Hroot; [congruence|discriminate].
    + destruct q' as [|a q'].
      * rewrite app_nil_r in Hk. congruence.
      * apply Hlay in Hk; [|discriminate]. destruct Hk as [Hl _].
        apply is_prefix_length in Hq'. simpl in *. lia.
  - rewrite Hp.
    destruct (kind_at fs (cachePath this ++ _)) as [[t|]|] eqn:Ek; auto.
    + apply Hlay in Ek; [|discriminate]. destruct Ek as (_ & _ & Ht).
      destruct t as [raw|[]]; simpl in Ht; auto.
    + apply Hlay in Ek; [|discriminate]. simpl in Ek. lia.
Qed.

Lemma usable_document this fs key :
  usable this fs key ->
  document_at fs (filePath (_getFilePath this key))
  = JObject (props_at fs (filePath (_getFilePath this key))).
Proof.
  intros [_ H]. unfold props_at, document_at in *.
  destruct (kind_at fs _) as [[[raw|[]]|]|]; simpl in *; tauto.
Qed.

(** On a usable shard [setItem] returns, and the shard file then holds the
    former document with the record of the key set. *)
Lemma setItem_ok this fs key v now :
  usable this fs key ->
  let info := _getFilePath this key in
  exists fs1 fs',
    grown fs (folderPath info) fs1
    /\ setItem this (Val (JString key)) v now fs = (Ok tt, fs')
    /\ wrote fs1 (filePath info)
             (Serialized (JObject (set_entry (_getMd5 key) (record key v now)
                                             (props_at fs (filePath info))))) fs'.
Proof.
  intros Hu. cbv zeta. destruct Hu as [Hpre Hfile].
  destruct (ensureDir_ok _ fs Hpre) as (fs1 & E1 & Hg).
  assert (Hk1 : kind_at fs1 (filePath (_getFilePath this key))
                = kind_at fs (filePath (_getFilePath this key))).
  { rewrite (Hg (filePath _)), filePath_not_prefix. now destruct (kind_at fs _). }
  destruct (writeFileSync_ok (filePath (_getFilePath this key))
              (Serialized (JObject (set_entry (_getMd5 key) (record key v now)
                 (props_at fs (filePath (_getFilePath this key)))))) fs1)
    as (fs' & Ew & Hw).
  - rewrite Hk1. destruct (kind_at fs (filePath _)) as [[|]|];
      [discriminate|tauto|discriminate].
  - intros _. rewrite filePath_parent.
    rewrite (Hg (folderPath _)), is_prefix_refl.
    destruct (kind_at fs (folderPath _)) as [[t|]|] eqn:Ek; auto.
    exfalso. apply (Hpre _ t (is_prefix_refl _)). exact Ek.
  - exists fs1, fs'. split; auto. split; auto.
    rewrite setItem_unfold, E1.
    rewrite (grown_document_at _ _ _ _ Hg).
    rewrite (usable_document this fs key (conj Hpre Hfile)).
    simpl set_prop. exact Ew.
Qed.

End ShardFacts.

(* ------------------------------------------------------------------ *)
(** ** Round trip, shard path, not-found and key type *)

Section Basics.

Import Js Fs Cache Store.
Local Open Scope fs_scope.
Implicit Types (this : JsonFileCache) (key : string) (fs : node)
  (value v old : json).

Lemma store_state_fresh this fs :
  find fs (cachePath this) = Some (Dir []) -> store_state this fs.
Proof.
  intros H. split.
  - unfold kind_at. now rewrite H.
  - intros q k Hq Hk. rewrite (kind_at_app _ _ _ _ H) in Hk.
    destruct q; [congruence|discriminate].
Qed.

(** Reading the value of a record that the shard document holds. *)
Lemma getItem_document this key fs doc key' v now :
  kind_at fs (filePath (_getFilePath this key)) = Some (KFile (Serialized (JObject doc))) ->
  assoc (_getMd5 key) doc = Some (record key' v now) ->
  getItem this (Val (JString key)) fs = (Ok (Val v), fs).
Proof.
  intros Hk Ha. rewrite getItem_eq. unfold document_at. rewrite Hk.
  simpl get_prop. rewrite Ha. reflexivity.
Qed.

Lemma getItem_absent this key fs :
  file_at fs (filePath (_getFilePath this key)) = None ->
  getItem this (Val (JString key)) fs = (Ok (Val JNull), fs).
Proof.
  intros Hf. rewrite getItem_eq. unfold document_at, file_at in *.
  destruct (kind_at fs _) as [[t|]|]; try discriminate; reflexivity.
Qed.

Lemma getItem_no_record this key fs doc :
  file_at fs (filePath (_getFilePath this key)) = Some (Serialized (JObject doc)) ->
  assoc (_getMd5 key) doc = None ->
  getItem this (Val (JString key)) fs = (Ok (Val JNull), fs).
Proof.
  intros Hf Ha. rewrite getItem_eq. unfold document_at, file_at in *.
  destruct (kind_at fs _) as [[t|]|]; try discriminate.
  injection Hf as ->. simpl get_prop. rewrite Ha. reflexivity.
Qed.

Lemma wrote_kind_at fs p t fs' : wrote fs p t fs' -> kind_at fs' p = Some (KFile t).
Proof. intros H. rewrite (H p). destruct (path_eq_dec p p); congruence. Qed.

(** [setItem] and then [getItem] of a document value. *)
Lemma set_then_get_document this fs key value now :
  store_state this fs ->
  exists fs',
    setItem this (Val (JString key)) value now fs = (Ok tt, fs')
    /\ getItem this (Val (JString key)) fs' = (Ok (Val value), fs').
Proof.
  intros Hs.
  destruct (setItem_ok this fs key value now (store_state_usable _ _ key Hs))
    as (fs1 & fs' & _ & Eset & Hw).
  exists fs'. split; auto.
  eapply getItem_document.
  - exact (wrote_kind_at _ _ _ _ Hw).
  - apply assoc_set_entry_same.
Qed.

(** [setItem] of a value is [setItem] of what the value comes back as from
    the JSON text. *)
Lemma setItem_as_document this (k : jsval) (d : jsdata) now fs :
  setItem this k d now fs = setItem this k (JSON_value d) now fs.
Proof.
  destruct k as [|[| | |key| |]]; try reflexivity.
  now rewrite !setItem_value, JSON_value_embed.
Qed.

(** C1. In every store state, for every string key and every value of the
    serialization format (null, a boolean, a finite binary64 number, a
    string, an array or an object of such values), [setItem(key, value)]
    returns and [getItem(key)] on the state it leaves returns the value
    that [JSON.parse] reads from the text that [JSON.stringify] wrote for
    it: [value] with the sign of every zero dropped.  So [getItem] returns
    [value] itself exactly when [value] holds no [-0]. *)
Theorem set_then_get this fs key (data : jsdata) now :
  store_state this fs -> is_json_value data = true ->
  exists fs',
    setItem this (Val (JString key)) data now fs = (Ok tt, fs')
    /\ getItem this (Val (JString key)) fs' = (Ok (Val (JSON_value data)), fs')
    /\ embed (JSON_value data) = positive_zeros data
    /\ (embed (JSON_value data) = data <-> has_negative_zero data = false).
Proof.
  intros Hs Hv.
  destruct (set_then_get_document this fs key (JSON_value data) now Hs)
    as (fs' & Es & Eg).
  exists fs'. rewrite setItem_as_document.
  split; [exact Es|]. split; [exact Eg|].
  pose proof (JSON_value_json data Hv) as E.
  split; [exact E|]. rewrite E. apply positive_zeros_same.
Qed.

Lemma set_then_get_witness :
  exists fs',
    setItem demo (Val (JString "username")) sample_value 1700000000000 fresh
    = (Ok tt, fs')
    /\ getItem demo (Val (JString "username")) fs'
       = (Ok (Val (JSON_value sample_value)), fs')
    /\ embed (JSON_value sample_value) = positive_zeros sample_value
    /\ (embed (JSON_value sample_value) = sample_value
        <-> has_negative_zero sample_value = false).
Proof.
  apply (set_then_get demo fresh "username" sample_value 1700000000000).
  - apply store_state_fresh. reflexivity.
  - vm_compute. reflexivity.
Defined.

(** The claim as the specification words it fails on [-0]: a value of the
    serialization format that [getItem] does not return as it was set.
    [setItem("k", -0)] on the fresh store returns, and [getItem("k")] then
    returns [0]. *)
Lemma set_then_get_negative_zero :
  is_json_value (DNumber negative_zero) = true
  /\ exists fs',
       setItem demo (Val (JString "k")) (DNumber negative_zero) 1700000000000 fresh
       = (Ok tt, fs')
       /\ getItem demo (Val (JString "k")) fs' = (Ok (Val (JNumber 0)), fs')
       /\ embed (JNumber 0) <> DNumber negative_zero.
Proof.
  split; [reflexivity|].
  eexists. split; [vm_compute; reflexivity|].
  split; [vm_compute; reflexivity|].
  vm_compute. discriminate.
Qed.

(** C2. The shard location is a function of the key and the root path
    alone.  The digest is the MD5 digest of the key (the function of
    RFC 1321, which gives the digests of the test suite of the RFC); it has
    32 lowercase hexadecimal characters, the first three name three nested
    one-character directories under the root, and the fourth, followed by
    [.json], names the file.  So the key [username], whose digest starts
    with [14c4], is stored in [<root>/1/4/c/4.json]. *)
Theorem shard_path_of_digest this key :
  md5 (_getFilePath this key) = MD5.md5_hex key
  /\ map (fun t => MD5.md5_hex (fst t)) rfc1321_suite = map snd rfc1321_suite
  /\ (exists d1 d2 d3 d4 rest,
        MD5.md5_hex key = String d1 (String d2 (String d3 (String d4 rest)))
        /\ String.length (MD5.md5_hex key) = 32
        /\ In d1 MD5.hexdigits /\ In d2 MD5.hexdigits
        /\ In d3 MD5.hexdigits /\ In d4 MD5.hexdigits
        /\ _getFilePath this key
           = mkInfo (cachePath this ++ [String d1 ""; String d2 ""; String d3 ""])
                    (cachePath this
                       ++ [String d1 ""; String d2 ""; String d3 ""; String d4 ".json"])
                    (MD5.md5_hex key))
  /\ _getFilePath this "username"
     = mkInfo (cachePath this ++ ["1"; "4"; "c"])
              (cachePath this ++ ["1"; "4"; "c"; "4.json"])
              "14c4b06b824ec593239362517f538b29"
  /\ forall other, cachePath other = cachePath this ->
                   _getFilePath other key = _getFilePath this key.
Proof.
  split; [reflexivity|]. split; [vm_compute; reflexivity|].
  split; [|split].
  - destruct (getFilePath_shape this key)
      as (c0 & c1 & c2 & c3 & rest & E & H0 & H1 & H2 & H3 & Hf & Hp).
    exists c0, c1, c2, c3, rest.
    repeat (split; [assumption || apply getMd5_length|]).
    rewrite <- Hf, <- Hp. reflexivity.
  - destruct (getFilePath_shape this "username")
      as (c0 & c1 & c2 & c3 & rest & E & _ & _ & _ & _ & Hf & Hp).
    assert (Em : _getMd5 "username" = "14c4b06b824ec593239362517f538b29")
      by exact md5_username.
    rewrite Em in E. injection E as <- <- <- <- _.
    transitivity (mkInfo (folderPath (_getFilePath this "username"))
                         (filePath (_getFilePath this "username"))
                         (_getMd5 "username")); [reflexivity|].
    now rewrite Hf, Hp, Em.
  - intros other Ho. unfold _getFilePath. now rewrite Ho.
Qed.

(** C5. When the shard file of a string key is missing, or its document has
    no record under the digest of the key, [getItem] returns [null] and
    throws nothing; when the document has a record whose value is [null],
    [getItem] returns that [null]: the same result. *)
Theorem get_not_found this fs key :
  file_at fs (filePath (_getFilePath this key)) = None
  \/ (exists doc,
        file_at fs (filePath (_getFilePath this key)) = Some (Serialized (JObject doc))
        /\ assoc (_getMd5 key) doc = None)
  \/ (exists doc now,
        file_at fs (filePath (_getFilePath this key)) = Some (Serialized (JObject doc))
        /\ assoc (_getMd5 key) doc = Some (record key JNull now)) ->
  getItem this (Val (JString key)) fs = (Ok (Val JNull), fs).
Proof.
  intros [Hf | [(doc & Hf & Ha) | (doc & now & Hf & Ha)]].
  - now apply getItem_absent.
  - eapply getItem_no_record; eauto.
  - eapply getItem_document; eauto.
    unfold file_at in Hf. destruct (kind_at fs _) as [[t|]|]; congruence.
Qed.

Lemma get_not_found_witness :
  file_at fresh (filePath (_getFilePath demo "nonexistent")) = None
  /\ getItem demo (Val (JString "nonexistent")) fresh = (Ok (Val JNull), fresh).
Proof.
  assert (H : file_at fresh (filePath (_getFilePath demo "nonexistent")) = None)
    by (vm_compute; reflexivity).
  split; [exact H|]. apply get_not_found. left. exact H.
Defined.

End Basics.

(* ------------------------------------------------------------------ *)
(** ** Two keys in one shard *)

Section Sharing.

Import Js Fs Cache Store.
Local Open Scope fs_scope.
Implicit Types (this : JsonFileCache) (key : string) (fs : node)
  (value v old : json).



(** [removeItem] of a record that is not the last of its document rewrites
    the file without it. *)
Lemma removeItem_rewrite this key fs doc r :
  kind_at fs (filePath (_getFilePath this key)) = Some (KFile (Serialized (JObject doc))) ->
  assoc (_getMd5 key) doc = Some r ->
  truthy (Val r) = true ->
  remove_entry (_getMd5 key) doc <> [] ->
  exists fs',
    removeItem this (Val (JString key)) fs = (Ok tt, fs')
    /\ wrote fs (filePath (_getFilePath this key))
             (Serialized (JObject (remove_entry (_getMd5 key) doc))) fs'.
Proof.
  intros Hk Ha Ht Hne.
  destruct (writeFileSync_ok (filePath (_getFilePath this key))
              (Serialized (JObject (remove_entry (_getMd5 key) doc))) fs)
    as (fs' & Ew & Hw); try (rewrite Hk; discriminate).
  exists fs'. split; auto.
  rewrite removeItem_unfold. cbv zeta. unfold document_at. rewrite Hk.
  simpl get_prop. rewrite Ha, Ht. simpl delete_prop. simpl Object_keys_length.
  destruct (remove_entry (_getMd5 key) doc); [congruence|]. exact Ew.
Qed.

(** [removeItem] of the last record of a document unlinks the file. *)
Lemma removeItem_unlink this key fs doc r :
  kind_at fs (filePath (_getFilePath this key)) = Some (KFile (Serialized (JObject doc))) ->
  assoc (_getMd5 key) doc = Some r ->
  truthy (Val r) = true ->
  remove_entry (_getMd5 key) doc = [] ->
  exists fs',
    removeItem this (Val (JString key)) fs = (Ok tt, fs')
    /\ removed fs (filePath (_getFilePath this key)) fs'.
Proof.
  intros Hk Ha Ht Hnil.
  destruct (unlinkSync_ok (filePath (_getFilePath this key)) fs _
              (filePath_not_nil this key) Hk) as (fs' & Eu & Hr).
  exists fs'. split; auto.
  rewrite removeItem_unfold. cbv zeta. unfold document_at. rewrite Hk.
  simpl get_prop. rewrite Ha, Ht. simpl delete_prop. simpl Object_keys_length.
  rewrite Hnil. exact Eu.
Qed.



End Sharing.

(* ------------------------------------------------------------------ *)
(** ** The directory tree: subtrees after an update *)

Section SubtreeFacts.

Import Js Fs Cache Store.
Implicit Types (fs n c : node) (p q : path) (es : list (string * node)).

Lemma set_entry_set_entry {A} k (v v' : A) (l : list (string * A)) :
  set_entry k v (set_entry k v' l) = set_entry k v l.
Proof.
  induction l as [|[k0 v0] l IH]; simpl.
  - now rewrite String.eqb_refl.
  - destruct (String.eqb k k0) eqn:E; simpl; rewrite E; congruence.
Qed.

Lemma remove_set_entry {A} k (v : A) (l : list (string * A)) :
  remove_entry k (set_entry k v l) = remove_entry k l.
Proof.
  unfold remove_entry. induction l as [|[k0 v0] l IH]; simpl.
  - now rewrite String.eqb_refl.
  - destruct (String.eqb k k0) eqn:E; simpl; rewrite E; simpl; congruence.
Qed.

Lemma remove_entry_fresh {A} k (l : list (string * A)) :
  ~ In k (map fst l) -> remove_entry k l = l.
Proof.
  unfold remove_entry. induction l as [|[k0 v0] l IH]; simpl; auto.
  intros H. destruct (String.eqb k k0) eqn:E; simpl.
  - apply String.eqb_eq in E. subst. tauto.
  - rewrite IH; auto.
Qed.

Lemma remove_entry_head {A} k (v : A) (l : list (string * A)) :
  ~ In k (map fst l) -> remove_entry k ((k, v) :: l) = l.
Proof.
  intros H. unfold remove_entry. simpl. rewrite String.eqb_refl. simpl.
  now apply remove_entry_fresh.
Qed.

Lemma find_cons es name q :
  find (Dir es) (name :: q)
  = match assoc name es with Some c => find c q | None => None end.
Proof. reflexivity. Qed.

Lemma find_put_same p : forall fs n c,
  find fs p = Some n -> find (put fs p c) p = Some c.
Proof.
  induction p as [|name p IH]; intros fs n c H; [reflexivity|].
  destruct fs as [t|es]; [discriminate|].
  rewrite find_cons in H. destruct (assoc name es) as [ch|] eqn:Ea; [|discriminate].
  destruct p as [|a r].
  - simpl. now rewrite assoc_set_entry_same.
  - rewrite put_cons2, Ea, find_cons, assoc_set_entry_same. eapply IH; eauto.
Qed.

Lemma find_del_child p : forall fs es name,
  find fs p = Some (Dir es) ->
  find (del fs (p ++ [name])) p = Some (Dir (remove_entry name es)).
Proof.
  induction p as [|a p IH]; intros fs es name H.
  - simpl in H. injection H as ->. reflexivity.
  - destruct fs as [t|es0]; [discriminate|].
    rewrite find_cons in H. destruct (assoc a es0) as [ch|] eqn:Ea; [|discriminate].
    change ((a :: p) ++ [name]) with (a :: (p ++ [name])).
    destruct (p ++ [name]) as [|b r] eqn:Epn; [destruct p; discriminate|].
    rewrite del_cons2, Ea, find_cons, assoc_set_entry_same, <- Epn. now apply IH.
Qed.

Lemma put_del_below p : forall fs q c,
  q <> [] -> put (del fs (p ++ q)) p c = put fs p c.
Proof.
  induction p as [|a p IH]; intros fs q c Hq; [reflexivity|].
  destruct fs as [t|es]; [reflexivity|].
  change ((a :: p) ++ q) with (a :: (p ++ q)).
  destruct (p ++ q) as [|b r] eqn:Epq.
  { apply app_eq_nil in Epq as [_ ->]. congruence. }
  rewrite del_cons2. destruct (assoc a es) as [ch|] eqn:Ea; [|reflexivity].
  destruct p as [|a' p'].
  - simpl. now rewrite set_entry_set_entry.
  - rewrite !put_cons2, assoc_set_entry_same, Ea, set_entry_set_entry.
    rewrite <- Epq, IH; auto.
Qed.

Lemma del_put_same p : forall fs n c,
  p <> [] -> find fs p = Some n -> del (put fs p c) p = del fs p.
Proof.
  induction p as [|a p IH]; intros fs n c Hp H; [congruence|].
  destruct fs as [t|es]; [discriminate|].
  rewrite find_cons in H. destruct (assoc a es) as [ch|] eqn:Ea; [|discriminate].
  destruct p as [|a' p'].
  - simpl. now rewrite remove_set_entry.
  - rewrite put_cons2, Ea, !del_cons2, assoc_set_entry_same, Ea, set_entry_set_entry.
    erewrite IH; eauto. discriminate.
Qed.

(** *** Height *)

Lemma height_child es name c : assoc name es = Some c -> height c < height (Dir es).
Proof.
  induction es as [|[k v] es IH]; simpl; [discriminate|].
  destruct (String.eqb name k).
  - intros [= ->]. lia.
  - intros H. specialize (IH H). simpl in IH. lia.
Qed.

Lemma height_In es e : In e es -> height (snd e) < height (Dir es).
Proof.
  induction es as [|e0 es IH]; simpl; [tauto|].
  intros [-> | H]; [lia|]. specialize (IH H). simpl in IH. lia.
Qed.

Lemma find_height p : forall fs n, find fs p = Some n -> height n <= height fs.
Proof.
  induction p as [|a p IH]; intros fs n H.
  - injection H as ->. auto.
  - destruct fs as [t|es]; [discriminate|]. rewrite find_cons in H.
    destruct (assoc a es) as [c|] eqn:Ea; [|discriminate].
    apply IH in H. apply height_child in Ea. lia.
Qed.

(** *** Well-formedness *)

Lemma nodupb_NoDup l : nodupb l = true -> NoDup l.
Proof.
  induction l as [|x l IH]; simpl; [constructor|].
  intros H. apply andb_true_iff in H as [Hx Hl]. constructor; auto.
  intros Hin. apply negb_true_iff in Hx.
  assert (existsb (String.eqb x) l = true); [|congruence].
  apply existsb_exists. exists x. split; auto. apply String.eqb_refl.
Qed.

Lemma names_ok_inv l : names_ok l = true -> NoDup l /\ ~ In "" l.
Proof.
  unfold names_ok. intros H. apply andb_true_iff in H as [Hn He]. split.
  - now apply nodupb_NoDup.
  - intros Hin. apply negb_true_iff in He.
    assert (existsb (String.eqb "") l = true); [|congruence].
    apply existsb_exists. exists "". split; auto.
Qed.

Lemma names_ok_tail x l : names_ok (x :: l) = true -> names_ok l = true.
Proof.
  unfold names_ok. simpl. intros H.
  apply andb_true_iff in H as [Hn He]. apply andb_true_iff in Hn as [_ Hn].
  rewrite Hn. simpl. apply negb_true_iff in He. apply negb_true_iff.
  apply orb_false_iff in He. tauto.
Qed.

Lemma wf_Dir_cons e es :
  wf_node (Dir (e :: es)) ->
  wf_node (snd e) /\ wf_node (Dir es) /\ ~ In (fst e) (map fst es) /\ fst e <> "".
Proof.
  unfold wf_node. simpl. intros H.
  apply andb_true_iff in H as [Hn Ha]. apply andb_true_iff in Ha as [He Ha].
  pose proof (names_ok_inv _ Hn) as [Hnd Hne].
  repeat split; auto.
  - rewrite (names_ok_tail _ _ Hn). exact Ha.
  - now inversion Hnd.
  - intros E. apply Hne. left. auto.
Qed.

Lemma wf_Dir_In es e : wf_node (Dir es) -> In e es -> wf_node (snd e) /\ fst e <> "".
Proof.
  induction es as [|e0 es IH]; [simpl; tauto|].
  intros H Hin. apply wf_Dir_cons in H as (H0 & Hes & _ & Hne).
  destruct Hin as [-> | Hin]; auto.
Qed.

Lemma wf_Dir_names es : wf_node (Dir es) -> NoDup (map fst es).
Proof.
  unfold wf_node. simpl. intros H. apply andb_true_iff in H as [Hn _].
  now apply names_ok_inv in Hn.
Qed.

Lemma wf_find p : forall fs n, wf_node fs -> find fs p = Some n -> wf_node n.
Proof.
  induction p as [|a p IH]; intros fs n Hw H.
  - injection H as ->. auto.
  - destruct fs as [t|es]; [discriminate|]. rewrite find_cons in H.
    destruct (assoc a es) as [c|] eqn:Ea; [|discriminate].
    apply assoc_In in Ea. apply (wf_Dir_In _ _ Hw) in Ea as [Hc _]. eauto.
Qed.

Lemma path_join_one p name : name <> "" -> path_join p [name] = p ++ [name].
Proof.
  intros H. unfold path_join. simpl.
  destruct (String.eqb name "") eqn:E; auto.
  apply String.eqb_eq in E. congruence.
Qed.

Lemma json_files_Dir p es :
  json_files p (Dir es) = flat_map (json_files_entry p) es.
Proof.
  simpl. induction es as [|e es IH]; [reflexivity|].
  simpl. unfold json_files_entry at 1. now rewrite IH.
Qed.

End SubtreeFacts.

(* ------------------------------------------------------------------ *)
(** ** Calls that only read *)

Section ReadOnly.

Import Js Fs Cache Store.
Local Open Scope fs_scope.

Lemma readonly_ret {A} (a : A) : readonly (ret a).
Proof. intros fs. reflexivity. Qed.

Lemma readonly_throw {A} e : readonly (@throw A e).
Proof. intros fs. reflexivity. Qed.

Lemma readonly_out_of_fuel {A} : readonly (@out_of_fuel A).
Proof. intros fs. reflexivity. Qed.

Lemma readonly_lift {A} (r : exn + A) : readonly (lift r).
Proof. destruct r; intros fs; reflexivity. Qed.

Lemma readonly_bind {A B} (m : M A) (k : A -> M B) :
  readonly m -> (forall a, readonly (k a)) -> readonly (bind m k).
Proof.
  intros Hm Hk fs. unfold bind. specialize (Hm fs).
  destruct (m fs) as [[a|e|] fs1]; simpl in *; subst; auto. apply Hk.
Qed.

Lemma readonly_try_catch {A} (m : M A) (h : exn -> M A) :
  readonly m -> (forall e, readonly (h e)) -> readonly (try_catch m h).
Proof.
  intros Hm Hh fs. unfold try_catch. specialize (Hm fs).
  destruct (m fs) as [[a|e|] fs1]; simpl in *; subst; auto. apply Hh.
Qed.

Lemma readonly_forEach_acc {A B} (xs : list A) (f : B -> A -> M B) :
  (forall acc x, readonly (f acc x)) -> forall acc, readonly (forEach_acc xs f acc).
Proof.
  intros Hf. induction xs as [|x xs IH]; intros acc; simpl.
  - apply readonly_ret.
  - apply readonly_bind; auto.
Qed.

Lemma readonly_existsSync p : readonly (existsSync p).
Proof. intros fs. reflexivity. Qed.

Lemma readonly_statSync p : readonly (statSync_isDirectory p).
Proof. intros fs. unfold statSync_isDirectory. destruct (find fs p) as [[]|]; reflexivity. Qed.

Lemma readonly_readdirSync p : readonly (readdirSync p).
Proof. intros fs. unfold readdirSync. destruct (find fs p) as [[]|]; reflexivity. Qed.

Lemma readonly_readFile p : readonly (_readFile p).
Proof. intros fs. now rewrite readFile_eq. Qed.

(** One step of a proof that a call only reads: the primitives that read,
    then the structure of the program. *)
Ltac read_only :=
  repeat first
    [ apply readonly_ret | apply readonly_throw | apply readonly_out_of_fuel
    | apply readonly_lift | apply readonly_existsSync | apply readonly_statSync
    | apply readonly_readdirSync | apply readonly_readFile
    | apply readonly_bind; [|intro]
    | apply readonly_forEach_acc; intros
    | match goal with
      | |- readonly (if ?b then _ else _) => destruct b
      | |- readonly (match ?x with _ => _ end) => destruct x
      end ].

Lemma readonly_getAllJsonFiles_rec fuel :
  forall p acc, readonly (_getAllJsonFiles_rec fuel p acc).
Proof.
  induction fuel as [|fuel IH]; intros p acc; simpl; read_only. apply IH.
Qed.

Lemma readonly_push_keys acc item : readonly (push_keys acc item).
Proof. unfold push_keys. read_only. Qed.

Lemma readonly_keys this : readonly (keys this).
Proof.
  unfold keys. apply readonly_bind.
  - intros fs. unfold _getAllJsonFiles. apply readonly_getAllJsonFiles_rec.
  - intros files. read_only. apply readonly_push_keys.
Qed.

Lemma readonly_length this : readonly (length this).
Proof. unfold length. apply readonly_bind; [apply readonly_keys|]. intro. read_only. Qed.

End ReadOnly.

(* ------------------------------------------------------------------ *)
(** ** [keys]: the walk of the directories is the traversal of the tree *)

Section Walk.

Import Js Fs Cache Store.
Local Open Scope fs_scope.
Implicit Types (this : JsonFileCache) (fs : node) (p : path)
  (value v old : json).

Lemma readdirSync_eq p fs es :
  find fs p = Some (Dir es) -> readdirSync p fs = (Ok (map fst es), fs).
Proof. unfold readdirSync. now intros ->. Qed.

Lemma statSync_eq p fs n :
  find fs p = Some n ->
  statSync_isDirectory p fs
  = (Ok (match n with Dir _ => true | File _ => false end), fs).
Proof. unfold statSync_isDirectory. intros ->. now destruct n. Qed.

Lemma find_child fs p es name :
  find fs p = Some (Dir es) -> find fs (p ++ [name]) = assoc name es.
Proof.
  intros H. rewrite find_app, H. simpl. now destruct (assoc name es).
Qed.

Lemma getAllJsonFiles_rec_eq fuel : forall fs p es acc,
  find fs p = Some (Dir es) ->
  wf_node (Dir es) ->
  height (Dir es) <= fuel ->
  _getAllJsonFiles_rec fuel p acc fs = (Ok (acc ++ json_files p (Dir es)), fs).
Proof.
  induction fuel as [|fuel IH]; intros fs p es acc Hf Hw Hh.
  { simpl in Hh. lia. }
  cbn [_getAllJsonFiles_rec].
  rewrite (bind_Ok _ _ _ _ _ (existsSync_eq p fs)).
  unfold kind_at. rewrite Hf. cbn [option_map negb].
  rewrite (bind_Ok _ _ _ _ _ (readdirSync_eq p fs es Hf)).
  rewrite json_files_Dir.
  assert (Hall : forall e, In e es ->
            assoc (fst e) es = Some (snd e) /\ fst e <> ""
            /\ wf_node (snd e) /\ height (snd e) <= fuel).
  { intros [name c] Hin. simpl. split; [|split; [|split]].
    - apply In_assoc; auto. now apply wf_Dir_names.
    - apply (wf_Dir_In _ _ Hw Hin).
    - apply (wf_Dir_In _ _ Hw Hin).
    - apply height_In in Hin. simpl in *. lia. }
  clear Hw Hh. revert acc Hall.
  generalize es at 1 3 4 as l.
  induction l as [|[name c] l IHl]; intros acc Hall.
  - simpl. now rewrite app_nil_r.
  - destruct (Hall (name, c) (or_introl eq_refl)) as (Ha & Hne & Hwc & Hhc).
    simpl in Ha, Hne, Hwc, Hhc.
    cbn [map fst forEach_acc flat_map].
    rewrite (path_join_one _ _ Hne).
    assert (Hc : find fs (p ++ [name]) = Some c)
      by (rewrite (find_child _ _ _ _ Hf); exact Ha).
    assert (Hbody :
      (isdir <- statSync_isDirectory (p ++ [name]) ;;
       if isdir then _getAllJsonFiles_rec fuel (p ++ [name]) acc
       else if endsWith name ".json" then ret (acc ++ [p ++ [name]])
       else ret acc) fs
      = (Ok (acc ++ json_files_entry p (name, c)), fs)).
    { rewrite (bind_Ok _ _ _ _ _ (statSync_eq _ _ _ Hc)).
      unfold json_files_entry. cbn [fst snd]. destruct c as [t|es'].
      - destruct (endsWith name ".json"); [reflexivity|].
        now rewrite app_nil_r.
      - now apply IH. }
    rewrite (bind_Ok _ _ _ _ _ Hbody).
    rewrite IHl by (intros e He; apply Hall; now right).
    now rewrite <- app_assoc.
Qed.

End Walk.

(* ------------------------------------------------------------------ *)
(** ** [keys] on a store state *)

Section Keys.

Import Js Fs Cache Store.
Local Open Scope fs_scope.
Implicit Types (this : JsonFileCache) (fs : node) (p : path)
  (value v old : json).

Lemma push_keys_eq acc item fs :
  push_keys acc item fs = (Ok (acc ++ filter nonempty (key_field item)), fs).
Proof.
  unfold push_keys, nonempty.
  destruct item as [|b|n|s| |props].
  6:{ change (truthy (Val (JObject props))) with true. cbv iota.
      cbn [get_prop key_field].
      destruct (assoc "key" props) as [k|]; cbn [lift filter]; unfold bind, ret.
      - destruct (truthy (Val k)); [reflexivity|]. now rewrite app_nil_r.
      - now rewrite app_nil_r. }
  all: cbn [truthy key_field filter]; rewrite ?app_nil_r; try reflexivity.
  - destruct b; reflexivity.
  - destruct (Double.number_truthy (jn_value n)); reflexivity.
  - destruct (negb (String.eqb s "")); reflexivity.
Qed.

Lemma forEach_push_keys items : forall acc fs,
  forEach_acc items push_keys acc fs
  = (Ok (acc ++ flat_map (fun item => filter nonempty (key_field item)) items), fs).
Proof.
  induction items as [|item items IH]; intros acc fs; cbn [forEach_acc flat_map].
  - unfold ret. now rewrite app_nil_r.
  - rewrite (bind_Ok _ _ _ _ _ (push_keys_eq acc item fs)), IH.
    now rewrite <- app_assoc.
Qed.

Lemma filter_flat_map {A B} (f : B -> bool) (g : A -> list B) (l : list A) :
  filter f (flat_map g l) = flat_map (fun x => filter f (g x)) l.
Proof.
  induction l as [|x l IH]; simpl; auto. now rewrite filter_app, IH.
Qed.

(** [keys] when every shard file holds an object or does not parse. *)
Lemma keys_eq this fs es :
  find fs (cachePath this) = Some (Dir es) ->
  wf_node (Dir es) ->
  (forall p, In p (json_files (cachePath this) (Dir es)) ->
             exists doc, document_at fs p = JObject doc) ->
  keys this fs = (Ok (filter nonempty (stored_keys this fs)), fs).
Proof.
  intros Hf Hw Hdocs. unfold keys.
  assert (Hfiles : _getAllJsonFiles (cachePath this) [] fs
                   = (Ok (json_files (cachePath this) (Dir es)), fs)).
  { unfold _getAllJsonFiles.
    rewrite (getAllJsonFiles_rec_eq _ fs _ es [] Hf Hw); auto.
    apply find_height in Hf. lia. }
  rewrite (bind_Ok _ _ _ _ _ Hfiles). clear Hfiles.
  unfold stored_keys, shard_files. rewrite Hf.
  rewrite filter_flat_map.
  change (Ok (flat_map ?f ?l), fs) with (Ok ([] ++ flat_map f l), fs).
  revert Hdocs. generalize (@nil json) as acc.
  induction (json_files (cachePath this) (Dir es)) as [|p l IH]; intros acc Hdocs.
  - simpl. unfold ret. now rewrite app_nil_r.
  - cbn [forEach_acc flat_map].
    destruct (Hdocs p (or_introl eq_refl)) as [doc Hdoc].
    assert (Hbody :
      (data <- _readFile p ;;
       items <- lift (Object_values data) ;;
       forEach_acc items push_keys acc) fs
      = (Ok (acc ++ filter nonempty
                      (flat_map key_field (records_of (document_at fs p)))), fs)).
    { rewrite (bind_Ok _ _ _ _ _ (readFile_eq p fs)), Hdoc.
      cbn [Object_values lift records_of].
      unfold bind at 1. cbn [ret].
      now rewrite forEach_push_keys, filter_flat_map. }
    rewrite (bind_Ok _ _ _ _ _ Hbody).
    rewrite IH by (intros q Hq; apply Hdocs; now right).
    now rewrite <- app_assoc.
Qed.

(** Every path of the traversal leads to a file. *)
Lemma json_files_sound h : forall n dp p,
  height n <= h -> wf_node n -> In p (json_files dp n) ->
  exists q t, p = dp ++ q /\ q <> [] /\ find n q = Some (File t).
Proof.
  induction h as [|h IH]; intros n dp p Hh Hw Hin.
  - destruct n as [t|es]; simpl in *; [tauto|lia].
  - destruct n as [t|es]; [simpl in Hin; tauto|].
    rewrite json_files_Dir in Hin. apply in_flat_map in Hin as ([name c] & He & Hp).
    assert (Ha : assoc name es = Some c)
      by (apply In_assoc; auto; now apply wf_Dir_names).
    unfold json_files_entry in Hp. cbn [fst snd] in Hp.
    destruct c as [t|es'].
    + destruct (endsWith name ".json"); [|simpl in Hp; tauto].
      destruct Hp as [<- | []]. exists [name], t. repeat split; [discriminate|].
      simpl. now rewrite Ha.
    + destruct (IH (Dir es') (dp ++ [name]) p) as (q & t & -> & Hq & Hfq); auto.
      * apply height_In in He. simpl in *. lia.
      * apply (wf_Dir_In _ _ Hw He).
      * exists (name :: q), t. rewrite <- app_assoc. repeat split; [discriminate|].
        rewrite find_cons, Ha. exact Hfq.
Qed.

Lemma store_state_root this fs :
  store_state this fs -> exists es, find fs (cachePath this) = Some (Dir es).
Proof.
  intros [H _]. unfold kind_at in H.
  destruct (find fs (cachePath this)) as [[t|es]|]; try discriminate. now exists es.
Qed.

(** In a store state the traversal finds documents only. *)
Lemma store_state_documents this fs es :
  store_state this fs -> wf_node fs ->
  find fs (cachePath this) = Some (Dir es) ->
  forall p, In p (json_files (cachePath this) (Dir es)) ->
    exists doc, document_at fs p = JObject doc
                /\ Forall (fun e => is_record (snd e)) doc.
Proof.
  intros [_ Hlay] Hw Hf p Hin.
  destruct (json_files_sound _ (Dir es) (cachePath this) p (le_n _)
              (wf_find _ _ _ Hw Hf) Hin) as (q & t & -> & Hq & Hfq).
  assert (Hk : kind_at fs (cachePath this ++ q) = Some (KFile t)).
  { rewrite (kind_at_app _ _ _ _ Hf). unfold kind_at. now rewrite Hfq. }
  destruct (Hlay _ _ Hq Hk) as (_ & _ & Ht).
  unfold document_at. rewrite Hk.
  destruct t as [raw|[| | | | |doc]]; simpl in Ht; try tauto; eauto.
Qed.

Lemma keys_store_state this fs :
  store_state this fs -> wf_node fs ->
  keys this fs = (Ok (filter nonempty (stored_keys this fs)), fs).
Proof.
  intros Hs Hw. destruct (store_state_root _ _ Hs) as [es Hf].
  apply (keys_eq this fs es Hf (wf_find _ _ _ Hw Hf)).
  intros p Hin.
  destruct (store_state_documents this fs es Hs Hw Hf p Hin) as (doc & Hd & _).
  eauto.
Qed.

(** The keys stored in a store state are strings. *)
Lemma stored_keys_strings this fs :
  store_state this fs -> wf_node fs ->
  Forall (fun k => exists s, k = JString s) (stored_keys this fs).
Proof.
  intros Hs Hw. destruct (store_state_root _ _ Hs) as [es Hf].
  unfold stored_keys, shard_files. rewrite Hf.
  apply Forall_forall. intros k Hk.
  apply in_flat_map in Hk as (p & Hp & Hk).
  destruct (store_state_documents this fs es Hs Hw Hf p Hp) as (doc & Hd & Hrec).
  rewrite Hd in Hk. simpl in Hk.
  apply in_flat_map in Hk as (item & Hi & Hk).
  apply in_map_iff in Hi as (e & <- & He).
  rewrite Forall_forall in Hrec. destruct (Hrec e He) as (key & v & now & Hr).
  rewrite Hr in Hk. simpl in Hk. destruct Hk as [<- | []]. eauto.
Qed.

End Keys.

(* ------------------------------------------------------------------ *)
(** ** [_removeDir] and [clear] only remove *)

Section Pruning.

Import Js Fs Cache Store.
Local Open Scope fs_scope.
Implicit Types (this : JsonFileCache) (fs : node) (p q : path)
  (value v old : json).

Lemma steps_ret {A} (R : node -> node -> Prop) (a : A) :
  (forall fs, R fs fs) -> steps R (ret a).
Proof. intros Hr fs. apply Hr. Qed.

Lemma steps_bind {A B} (R : node -> node -> Prop) (m : M A) (k : A -> M B) :
  (forall a b c, R a b -> R b c -> R a c) ->
  steps R m -> (forall a, steps R (k a)) -> steps R (bind m k).
Proof.
  intros Ht Hm Hk fs. unfold bind. specialize (Hm fs).
  destruct (m fs) as [[a|e|] fs1]; simpl in *; auto.
  eapply Ht; [exact Hm|]. apply Hk.
Qed.

Lemma steps_forEach {A} (R : node -> node -> Prop) (xs : list A) (f : A -> M unit) :
  (forall fs, R fs fs) ->
  (forall a b c, R a b -> R b c -> R a c) ->
  (forall x, steps R (f x)) -> steps R (forEach xs f).
Proof.
  intros Hr Ht Hf. induction xs as [|x xs IH]; simpl.
  - now apply steps_ret.
  - apply steps_bind; auto.
Qed.

Lemma steps_readonly {A} (R : node -> node -> Prop) (m : M A) :
  (forall fs, R fs fs) -> readonly m -> steps R m.
Proof. intros Hr Hm fs. rewrite Hm. apply Hr. Qed.

Lemma pruned_refl p fs : pruned p fs fs.
Proof. intros q. now left. Qed.

Lemma pruned_trans p a b c : pruned p a b -> pruned p b c -> pruned p a c.
Proof.
  intros H1 H2 q. destruct (H2 q) as [E2 | [E2 Hp]]; [|now right].
  rewrite E2. apply H1.
Qed.

Lemma is_prefix_trans a b c :
  is_prefix a b = true -> is_prefix b c = true -> is_prefix a c = true.
Proof.
  intros H1 H2. apply is_prefix_true in H1 as [r1 ->].
  apply is_prefix_true in H2 as [r2 ->]. rewrite <- app_assoc. apply is_prefix_app.
Qed.

Lemma pruned_weaken p p' fs fs' :
  is_prefix p p' = true -> pruned p' fs fs' -> pruned p fs fs'.
Proof.
  intros Hp H q. destruct (H q) as [E | [E Hq]]; [now left|right].
  split; auto. eapply is_prefix_trans; eauto.
Qed.

Lemma removed_pruned p fs fs' : removed fs p fs' -> pruned p fs fs'.
Proof.
  intros H q. rewrite (H q). destruct (path_eq_dec q p) as [->|]; [right|now left].
  split; auto. apply is_prefix_refl.
Qed.

Lemma unlinkSync_pruned p : steps (pruned p) (unlinkSync p).
Proof.
  intros fs. destruct (unlinkSync p fs) as [r fs'] eqn:E.
  destruct (unlinkSync_post _ _ _ _ E) as [(_ & Hr & _) | (-> & _)]; simpl.
  - now apply removed_pruned.
  - apply pruned_refl.
Qed.

Lemma rmdirSync_pruned p : steps (pruned p) (rmdirSync p).
Proof.
  intros fs. destruct (rmdirSync p fs) as [r fs'] eqn:E.
  destruct (rmdirSync_post _ _ _ _ E) as [(_ & Hr & _) | (-> & _)]; simpl.
  - now apply removed_pruned.
  - apply pruned_refl.
Qed.

Lemma is_prefix_path_join p file : is_prefix p (path_join p [file]) = true.
Proof. unfold path_join. apply is_prefix_app. Qed.

(** Whatever it returns, [_removeDir] removes at or below its path only. *)
Lemma removeDir_rec_pruned fuel : forall p, steps (pruned p) (_removeDir_rec fuel p).
Proof.
  induction fuel as [|fuel IH]; intros p; cbn [_removeDir_rec].
  - intros fs. apply pruned_refl.
  - apply steps_bind; [apply pruned_trans| |].
    + apply steps_readonly; [apply pruned_refl|apply readonly_existsSync].
    + intros ex. destruct ex; [|apply steps_ret, pruned_refl].
      apply steps_bind; [apply pruned_trans| |].
      * apply steps_readonly; [apply pruned_refl|apply readonly_readdirSync].
      * intros files. apply steps_bind; [apply pruned_trans| |].
        -- apply steps_forEach; [apply pruned_refl|apply pruned_trans|].
           intros file. apply steps_bind; [apply pruned_trans| |].
           ++ apply steps_readonly; [apply pruned_refl|apply readonly_statSync].
           ++ intros isdir fs.
              apply (pruned_weaken p (path_join p [file]));
                [apply is_prefix_path_join|].
              destruct isdir; [apply IH|apply unlinkSync_pruned].
        -- intros _. apply rmdirSync_pruned.
Qed.

Lemma removeDir_pruned p : steps (pruned p) (_removeDir p).
Proof. intros fs. unfold _removeDir. apply removeDir_rec_pruned. Qed.

(** Whatever it returns, [clear] removes at or below the root only. *)
Lemma clear_pruned this : steps (pruned (cachePath this)) (clear this).
Proof.
  unfold clear. apply steps_bind; [apply pruned_trans| |].
  - apply steps_readonly; [apply pruned_refl|apply readonly_existsSync].
  - intros ex. destruct ex; [|apply steps_ret, pruned_refl].
    apply steps_bind; [apply pruned_trans| |].
    + apply steps_readonly; [apply pruned_refl|apply readonly_readdirSync].
    + intros folders. apply steps_forEach; [apply pruned_refl|apply pruned_trans|].
      intros folder. apply steps_bind; [apply pruned_trans| |].
      * apply steps_readonly; [apply pruned_refl|apply readonly_statSync].
      * intros isdir fs. destruct isdir; [|apply pruned_refl].
        apply (pruned_weaken _ (path_join (cachePath this) [folder]));
          [apply is_prefix_path_join|apply removeDir_pruned].
Qed.

(** Pruning creates no file and changes none. *)
Lemma pruned_file_at p fs fs' q t :
  pruned p fs fs' -> file_at fs' q = Some t -> file_at fs q = Some t.
Proof.
  intros H. unfold file_at. destruct (H q) as [-> | [-> _]]; auto. discriminate.
Qed.

End Pruning.

(* ------------------------------------------------------------------ *)
(** ** Invariants of the shard files *)

Section Invariants.

Import Js Fs Cache Store.
Local Open Scope fs_scope.
Implicit Types (this : JsonFileCache) (fs : node) (p q : path) (key : string)
  (value v old : json).

Lemma document_at_file_at fs p :
  document_at fs p
  = match file_at fs p with
    | Some (Serialized j) => j
    | _ => JObject []
    end.
Proof.
  unfold document_at, file_at. destruct (kind_at fs p) as [[[raw|j]|]|]; reflexivity.
Qed.

(** [setItem] touches no file but the shard file of its key. *)
Lemma setItem_frame this key value now fs q :
  q <> filePath (_getFilePath this key) ->
  file_at (snd (setItem this (Val (JString key)) value now fs)) q = file_at fs q.
Proof.
  intros Hq.
  destruct (setItem this (Val (JString key)) value now fs) as [r fs'] eqn:E.
  destruct (setItem_post _ _ _ _ _ _ _ E) as (fs1 & Hg & Hw). cbn [snd].
  assert (H1 : file_at fs1 q = file_at fs q).
  { destruct Hg as [Hg | ->]; auto. eapply grown_file_at; eauto. }
  destruct Hw as [(d & _ & Hw & _) | (-> & _)]; auto.
  now rewrite (wrote_file_at_other _ _ _ _ _ Hw Hq).
Qed.

(** The shard file of the key after [setItem]: as before, or the document
    with the record set. *)
Lemma setItem_target this key value now fs :
  let file := filePath (_getFilePath this key) in
  let fs' := snd (setItem this (Val (JString key)) value now fs) in
  file_at fs' file = file_at fs file
  \/ exists data',
       set_prop (document_at fs file) (_getMd5 key) (record key value now) = inr data'
       /\ file_at fs' file = Some (Serialized data').
Proof.
  cbv zeta.
  destruct (setItem this (Val (JString key)) value now fs) as [r fs'] eqn:E.
  destruct (setItem_post _ _ _ _ _ _ _ E) as (fs1 & Hg & Hw). cbn [snd].
  assert (H1 : file_at fs1 (filePath (_getFilePath this key))
               = file_at fs (filePath (_getFilePath this key))).
  { destruct Hg as [Hg | ->]; auto. eapply grown_file_at; eauto. }
  destruct Hw as [(d & Hd & Hw & _) | (-> & _)]; auto.
  right. exists d. split; auto. eapply wrote_file_at_same; eauto.
Qed.

Lemma removeItem_frame this key fs q :
  q <> filePath (_getFilePath this key) ->
  file_at (snd (removeItem this (Val (JString key)) fs)) q = file_at fs q.
Proof.
  intros Hq.
  destruct (removeItem this (Val (JString key)) fs) as [r fs'] eqn:E.
  destruct (removeItem_post _ _ _ _ _ E)
    as [(-> & _) | [(_ & Hw & _) | (_ & Hr & _)]]; cbn [snd]; auto.
  - eapply wrote_file_at_other; eauto.
  - eapply removed_file_at_other; eauto.
Qed.

(** The shard file of the key after [removeItem]: as before, or the
    document less the record and not empty, or no file. *)
Lemma removeItem_target this key fs :
  let file := filePath (_getFilePath this key) in
  let fs' := snd (removeItem this (Val (JString key)) fs) in
  let data' := delete_prop (document_at fs file) (_getMd5 key) in
  file_at fs' file = file_at fs file
  \/ (file_at fs' file = Some (Serialized data')
      /\ exists n, Object_keys_length data' = inr (S n))
  \/ file_at fs' file = None.
Proof.
  cbv zeta.
  destruct (removeItem this (Val (JString key)) fs) as [r fs'] eqn:E.
  destruct (removeItem_post _ _ _ _ _ E)
    as [(-> & _) | [(_ & Hw & Hn) | (_ & Hr & _)]]; cbn [snd]; auto.
  - right. left. split; auto. eapply wrote_file_at_same; eauto.
  - right. right. eapply removed_file_at_same; eauto.
Qed.

(** No operation makes a file hold the empty document. *)
Lemma no_new_empty_document this op fs q :
  file_at (after this op fs) q = Some (Serialized (JObject [])) ->
  file_at fs q = Some (Serialized (JObject [])).
Proof.
  destruct op as [k value now|k|k| | |]; cbn [after].
  - destruct k as [|[| | |key| |]]; auto.
    destruct (path_eq_dec q (filePath (_getFilePath this key))) as [->|Hq].
    + destruct (setItem_target this key value now fs) as [-> | (d & Hd & ->)]; auto.
      intros E. exfalso. assert (E2 : d = JObject []) by congruence. subst d.
      destruct (document_at fs _) as [| | | |items|props]; simpl in Hd; try discriminate.
      injection Hd as Hd. now apply set_entry_not_nil in Hd.
    + now rewrite setItem_frame.
  - now rewrite getItem_state.
  - destruct k as [|[| | |key| |]]; auto.
    destruct (path_eq_dec q (filePath (_getFilePath this key))) as [->|Hq].
    + destruct (removeItem_target this key fs) as [-> | [(-> & n & Hn) | ->]]; auto.
      * intros E. exfalso.
        assert (E2 : delete_prop (document_at fs (filePath (_getFilePath this key)))
                                 (_getMd5 key) = JObject []) by congruence.
        rewrite E2 in Hn. discriminate.
      * discriminate.
    + now rewrite removeItem_frame.
  - apply (pruned_file_at _ _ _ _ _ (clear_pruned this fs)).
  - now rewrite readonly_keys.
  - now rewrite readonly_length.
Qed.

Lemma no_empty_shards_fresh this fs :
  find fs (cachePath this) = Some (Dir []) -> no_empty_shards this fs.
Proof.
  intros H q. unfold file_at. rewrite (kind_at_app _ _ _ _ H).
  destruct q; discriminate.
Qed.

(** C4. An operation run on a state without empty shard files leaves a
    state without empty shard files, whether it returns or throws; and
    [removeItem] of the key whose record is the only entry of its shard
    document returns with the shard file removed from the disk, the other
    entries of the disk being as before. *)
Theorem no_empty_shard_persists this fs :
  (forall op, no_empty_shards this fs -> no_empty_shards this (after this op fs))
  /\ (forall key value now,
        file_at fs (filePath (_getFilePath this key))
        = Some (Serialized (JObject [(_getMd5 key, record key value now)])) ->
        exists fs',
          removeItem this (Val (JString key)) fs = (Ok tt, fs')
          /\ kind_at fs' (filePath (_getFilePath this key)) = None
          /\ forall q, q <> filePath (_getFilePath this key) ->
                       kind_at fs' q = kind_at fs q).
Proof.
  split.
  - intros op H q Hq. apply (H q). eapply no_new_empty_document; eauto.
  - intros key value now Hf.
    assert (Hk : kind_at fs (filePath (_getFilePath this key))
                 = Some (KFile (Serialized
                      (JObject [(_getMd5 key, record key value now)])))).
    { unfold file_at in Hf. destruct (kind_at fs _) as [[t|]|]; congruence. }
    destruct (removeItem_unlink this key fs _ (record key value now) Hk)
      as (fs' & Er & Hr).
    + cbn [assoc]. now rewrite String.eqb_refl.
    + reflexivity.
    + unfold remove_entry. cbn [filter fst]. now rewrite String.eqb_refl.
    + exists fs'. split; auto. split.
      * rewrite (Hr _). destruct (path_eq_dec _ _); congruence.
      * intros q Hq. rewrite (Hr q). destruct (path_eq_dec _ _); congruence.
Qed.

Lemma no_empty_shard_persists_witness :
  (no_empty_shards demo fresh
   /\ no_empty_shards demo
        (after demo (SetItem (Val (JString "username")) (JString "zhangsan") 5) fresh))
  /\ (file_at with_username (filePath (_getFilePath demo "username"))
      = Some (Serialized
                (JObject [(_getMd5 "username",
                           record "username" (JString "zhangsan") 1700000000000)]))
      /\ exists fs',
           removeItem demo (Val (JString "username")) with_username = (Ok tt, fs')
           /\ kind_at fs' (filePath (_getFilePath demo "username")) = None
           /\ forall q, q <> filePath (_getFilePath demo "username") ->
                        kind_at fs' q = kind_at with_username q).
Proof.
  assert (H1 : no_empty_shards demo fresh)
    by (apply no_empty_shards_fresh; reflexivity).
  assert (H2 : file_at with_username (filePath (_getFilePath demo "username"))
               = Some (Serialized
                         (JObject [(_getMd5 "username",
                                    record "username" (JString "zhangsan")
                                           1700000000000)])))
    by (vm_compute; reflexivity).
  split; split; auto.
  - exact (proj1 (no_empty_shard_persists demo fresh) _ H1).
  - exact (proj2 (no_empty_shard_persists demo with_username) _ _ _ H2).
Defined.

Lemma digest_inv_fresh this fs :
  find fs (cachePath this) = Some (Dir []) -> digest_inv this fs.
Proof.
  intros H q t. unfold file_at. rewrite (kind_at_app _ _ _ _ H).
  destruct q; discriminate.
Qed.

Lemma filePath_under_root this key :
  exists q, filePath (_getFilePath this key) = cachePath this ++ q.
Proof.
  destruct (getFilePath_shape this key)
    as (c0 & c1 & c2 & c3 & rest & _ & _ & _ & _ & _ & _ & Hp).
  rewrite Hp. eauto.
Qed.

(** What the shard document of a key holds when the invariant holds. *)
Lemma digest_inv_document this fs key :
  digest_inv this fs ->
  exists doc,
    document_at fs (filePath (_getFilePath this key)) = JObject doc
    /\ forall d r, In (d, r) doc ->
         exists key' value now,
           r = record key' value now /\ d = _getMd5 key'
           /\ filePath (_getFilePath this key) = filePath (_getFilePath this key').
Proof.
  intros Hinv. destruct (filePath_under_root this key) as [q Hq].
  rewrite document_at_file_at, Hq.
  destruct (file_at fs (cachePath this ++ q)) as [t|] eqn:Ef.
  - destruct (Hinv q t Ef) as (doc & -> & Hdoc). exists doc. split; auto.
  - exists []. split; auto. intros d r [].
Qed.

(** Every operation keeps the invariant, whether it returns or throws. *)
Lemma digest_inv_after this op fs :
  digest_inv this fs -> digest_inv this (after this op fs).
Proof.
  intros Hinv. destruct op as [k value now|k|k| | |]; cbn [after].
  - destruct k as [|[| | |key| |]]; auto.
    intros q t Hf.
    destruct (path_eq_dec (cachePath this ++ q) (filePath (_getFilePath this key)))
      as [Eq|Hq].
    + rewrite Eq in Hf.
      destruct (setItem_target this key value now fs) as [E | (d & Hd & E)];
        rewrite E in Hf.
      * rewrite <- Eq in Hf. destruct (Hinv q t Hf) as (doc & -> & Hdoc). eauto.
      * injection Hf as <-.
        destruct (digest_inv_document this fs key Hinv) as (doc & Edoc & Hdoc).
        rewrite Edoc in Hd. simpl in Hd. injection Hd as <-.
        eexists. split; [reflexivity|]. intros d r Hin.
        apply set_entry_In in Hin as [[= -> ->] | Hin].
        -- exists key, value, now. auto.
        -- destruct (Hdoc d r Hin) as (key' & v' & n' & -> & -> & Ep).
           exists key', v', n'. repeat split. congruence.
    + rewrite setItem_frame in Hf by auto. apply (Hinv q t Hf).
  - now rewrite getItem_state.
  - destruct k as [|[| | |key| |]]; auto.
    intros q t Hf.
    destruct (path_eq_dec (cachePath this ++ q) (filePath (_getFilePath this key)))
      as [Eq|Hq].
    + rewrite Eq in Hf.
      destruct (removeItem_target this key fs) as [E | [(E & _) | E]];
        rewrite E in Hf.
      * rewrite <- Eq in Hf. destruct (Hinv q t Hf) as (doc & -> & Hdoc). eauto.
      * assert (Et : Serialized (delete_prop
                         (document_at fs (filePath (_getFilePath this key)))
                         (_getMd5 key)) = t) by congruence.
        subst t. clear Hf.
        destruct (digest_inv_document this fs key Hinv) as (doc & Edoc & Hdoc).
        rewrite Edoc. cbn [delete_prop]. eexists. split; [reflexivity|].
        intros d r Hin.
        apply remove_entry_In in Hin as [Hin _].
        destruct (Hdoc d r Hin) as (key' & v' & n' & -> & -> & Ep).
        exists key', v', n'. repeat split. congruence.
      * discriminate.
    + rewrite removeItem_frame in Hf by auto. apply (Hinv q t Hf).
  - intros q t Hf. apply (Hinv q t).
    eapply pruned_file_at; [apply clear_pruned|exact Hf].
  - now rewrite readonly_keys.
  - now rewrite readonly_length.
Qed.

(** C10. In every state that the store reaches from an empty root by its
    own operations, each record of a shard document is stored under the MD5
    digest of its own key, in the file that the digest of that key resolves
    to; and [setItem] of a key leaves every file other than the shard file
    of that key as it was: none created, changed or removed. *)
Theorem digest_invariant this fs :
  reachable this fs ->
  digest_inv this fs
  /\ forall key value now q,
       q <> filePath (_getFilePath this key) ->
       file_at (snd (setItem this (Val (JString key)) value now fs)) q = file_at fs q.
Proof.
  intros Hr. split.
  - induction Hr as [fs Hf | fs op Hr IH].
    + now apply digest_inv_fresh.
    + now apply digest_inv_after.
  - intros key value now q Hq. now apply setItem_frame.
Qed.

Lemma digest_invariant_witness :
  reachable demo with_username
  /\ digest_inv demo with_username
  /\ forall key value now q,
       q <> filePath (_getFilePath demo key) ->
       file_at (snd (setItem demo (Val (JString key)) value now with_username)) q
       = file_at with_username q.
Proof.
  assert (H : reachable demo with_username).
  { apply (reach_step demo fresh
             (SetItem (Val (JString "username")) (JString "zhangsan") 1700000000000)).
    apply reach_fresh. reflexivity. }
  split; [exact H|]. exact (digest_invariant demo with_username H).
Defined.

End Invariants.

(* ------------------------------------------------------------------ *)
(** ** [_removeDir] and [clear] on a well-formed tree *)

Section Clearing.

Import Js Fs Cache Store.
Local Open Scope fs_scope.
Implicit Types (this : JsonFileCache) (fs : node) (p q : path)
  (value v old : json).

Lemma set_entry_same {A} k (v : A) (l : list (string * A)) :
  assoc k l = Some v -> set_entry k v l = l.
Proof.
  induction l as [|[k0 v0] l IH]; simpl; [discriminate|].
  destruct (String.eqb k k0) eqn:E.
  - intros [= ->]. reflexivity.
  - intros H. now rewrite IH.
Qed.

Lemma put_same p : forall fs n, find fs p = Some n -> put fs p n = fs.
Proof.
  induction p as [|a p IH]; intros fs n H.
  - simpl in *. congruence.
  - destruct fs as [t|es]; [discriminate|]. rewrite find_cons in H.
    destruct (assoc a es) as [c|] eqn:Ea; [|discriminate].
    destruct p as [|b r].
    + simpl in *. injection H as <-. now rewrite set_entry_same.
    + rewrite put_cons2, Ea, (IH c n H). now rewrite set_entry_same.
Qed.

(** A loop over the names of a directory whose body deletes the entry it is
    given leaves the directory empty. *)
Lemma forEach_deletes (P : string -> node -> Prop) (body : string -> M unit) p :
  (forall fs name c,
     find fs (p ++ [name]) = Some c -> P name c ->
     body name fs = (Ok tt, del fs (p ++ [name]))) ->
  forall l fs,
    find fs p = Some (Dir l) ->
    NoDup (map fst l) ->
    (forall e, In e l -> P (fst e) (snd e)) ->
    forEach (map fst l) body fs = (Ok tt, put fs p (Dir [])).
Proof.
  intros Hbody. induction l as [|[name c] l IH]; intros fs Hf Hnd HP.
  - simpl. unfold ret. now rewrite (put_same _ _ _ Hf).
  - cbn [map fst forEach].
    assert (Hc : find fs (p ++ [name]) = Some c).
    { rewrite (find_child _ _ _ _ Hf). simpl. now rewrite String.eqb_refl. }
    rewrite (bind_Ok _ _ _ _ _ (Hbody fs name c Hc (HP (name, c) (or_introl eq_refl)))).
    inversion Hnd as [|? ? Hni Hnd']; subst.
    rewrite IH; auto.
    + now rewrite put_del_below by discriminate.
    + rewrite (find_del_child _ _ _ name Hf). now rewrite remove_entry_head.
    + intros e He. apply HP. now right.
Qed.

Lemma unlinkSync_file p fs t :
  p <> [] -> find fs p = Some (File t) -> unlinkSync p fs = (Ok tt, del fs p).
Proof.
  intros Hp H. destruct p as [|a r]; [congruence|].
  unfold unlinkSync. now rewrite H.
Qed.

Lemma rmdirSync_empty p fs :
  p <> [] -> find fs p = Some (Dir []) -> rmdirSync p fs = (Ok tt, del fs p).
Proof.
  intros Hp H. destruct p as [|a r]; [congruence|].
  unfold rmdirSync. now rewrite H.
Qed.

(** With fuel for the height of the directory, [_removeDir] returns and the
    directory is gone. *)
Lemma removeDir_rec_ok fuel : forall fs p es,
  p <> [] ->
  find fs p = Some (Dir es) ->
  wf_node (Dir es) ->
  height (Dir es) <= fuel ->
  _removeDir_rec fuel p fs = (Ok tt, del fs p).
Proof.
  induction fuel as [|fuel IH]; intros fs p es Hp Hf Hw Hh.
  { simpl in Hh. lia. }
  cbn [_removeDir_rec].
  rewrite (bind_Ok _ _ _ _ _ (existsSync_eq p fs)).
  unfold kind_at. rewrite Hf. cbn [option_map].
  rewrite (bind_Ok _ _ _ _ _ (readdirSync_eq p fs es Hf)).
  erewrite bind_Ok.
  2:{ apply (forEach_deletes
               (fun name c => name <> "" /\ wf_node c /\ height c <= fuel) _ p).
      - intros fs0 name c Hc (Hne & Hwc & Hhc).
        rewrite (path_join_one _ _ Hne).
        rewrite (bind_Ok _ _ _ _ _ (statSync_eq _ _ _ Hc)).
        destruct c as [t|es'].
        + apply (unlinkSync_file _ _ t); auto. destruct p; discriminate.
        + apply (IH fs0 (p ++ [name]) es'); auto. destruct p; discriminate.
      - exact Hf.
      - now apply wf_Dir_names.
      - intros e He. destruct (wf_Dir_In _ _ Hw He) as [Hwe Hne].
        repeat split; auto. apply height_In in He. simpl in *. lia. }
  rewrite (rmdirSync_empty p _ Hp (find_put_same _ _ _ _ Hf)).
  now rewrite (del_put_same _ _ _ _ Hp Hf).
Qed.

(** [clear] when the root holds directories only: it returns and the root
    is empty. *)
Lemma clear_ok this fs es :
  find fs (cachePath this) = Some (Dir es) ->
  wf_node (Dir es) ->
  (forall e, In e es -> exists es', snd e = Dir es') ->
  clear this fs = (Ok tt, put fs (cachePath this) (Dir [])).
Proof.
  intros Hf Hw Hdirs. unfold clear.
  rewrite (bind_Ok _ _ _ _ _ (existsSync_eq _ fs)).
  unfold kind_at. rewrite Hf. cbn [option_map].
  rewrite (bind_Ok _ _ _ _ _ (readdirSync_eq _ fs es Hf)).
  apply (forEach_deletes
           (fun name c => name <> "" /\ wf_node c /\ exists es', c = Dir es')).
  - intros fs0 name c Hc (Hne & Hwc & es' & ->).
    rewrite (path_join_one _ _ Hne).
    rewrite (bind_Ok _ _ _ _ _ (statSync_eq _ _ _ Hc)).
    unfold _removeDir. apply (removeDir_rec_ok _ fs0 _ es'); auto.
    + destruct (cachePath this); discriminate.
    + apply find_height in Hc. lia.
  - exact Hf.
  - now apply wf_Dir_names.
  - intros e He. destruct (wf_Dir_In _ _ Hw He) as [Hwe Hne]. auto.
Qed.

(** In a store state the entries of the root are directories. *)
Lemma store_state_root_dirs this fs es :
  store_state this fs -> wf_node fs ->
  find fs (cachePath this) = Some (Dir es) ->
  forall e, In e es -> exists es', snd e = Dir es'.
Proof.
  intros [_ Hlay] Hw Hf [name c] He.
  assert (Ha : assoc name es = Some c).
  { apply In_assoc; auto. apply wf_Dir_names. eapply wf_find; eauto. }
  assert (Hk : kind_at fs (cachePath this ++ [name]) = Some (kind_of c)).
  { unfold kind_at. now rewrite (find_child _ _ _ _ Hf), Ha. }
  apply Hlay in Hk; [|discriminate].
  destruct c as [t|es']; simpl in *; [|eauto]. destruct Hk as [Hl _]. discriminate.
Qed.

Lemma keys_empty_root this fs :
  find fs (cachePath this) = Some (Dir []) -> keys this fs = (Ok [], fs).
Proof.
  intros Hf. rewrite (keys_eq this fs [] Hf).
  - unfold stored_keys, shard_files. now rewrite Hf.
  - reflexivity.
  - intros p [].
Qed.

Lemma length_eq this fs ks :
  keys this fs = (Ok ks, fs) -> length this fs = (Ok (List.length ks), fs).
Proof. intros H. unfold length. now rewrite (bind_Ok _ _ _ _ _ H). Qed.

Lemma getItem_empty_root this fs key :
  find fs (cachePath this) = Some (Dir []) ->
  getItem this (Val (JString key)) fs = (Ok (Val JNull), fs).
Proof.
  intros Hf. apply getItem_absent.
  destruct (filePath_under_root this key) as [q Hq].
  pose proof (filePath_folderPath this key) as (name & Hn & _).
  unfold file_at. rewrite Hq, (kind_at_app _ _ _ _ Hf).
  destruct q as [|a q]; [|reflexivity].
  exfalso. rewrite app_nil_r in Hq.
  destruct (getFilePath_shape this key)
    as (c0 & c1 & c2 & c3 & rest & _ & _ & _ & _ & _ & _ & Hp).
  rewrite Hp in Hq. apply (f_equal (@List.length string)) in Hq.
  rewrite length_app in Hq. simpl in Hq. lia.
Qed.

(** C9. In every store state [clear] returns; afterwards the root directory
    is still there and empty, [keys] returns the empty list, [length] is 0
    and [getItem] of any key returns [null].  When the root directory is
    missing or already empty, [clear] returns and changes nothing. *)
Theorem clear_empties_store this fs :
  (store_state this fs -> wf_node fs ->
   exists fs',
     clear this fs = (Ok tt, fs')
     /\ find fs' (cachePath this) = Some (Dir [])
     /\ keys this fs' = (Ok [], fs')
     /\ length this fs' = (Ok 0, fs')
     /\ forall key, getItem this (Val (JString key)) fs' = (Ok (Val JNull), fs'))
  /\ (find fs (cachePath this) = None \/ find fs (cachePath this) = Some (Dir []) ->
      clear this fs = (Ok tt, fs)).
Proof.
  split.
  - intros Hs Hw. destruct (store_state_root _ _ Hs) as [es Hf].
    exists (put fs (cachePath this) (Dir [])).
    assert (Hf' : find (put fs (cachePath this) (Dir [])) (cachePath this)
                  = Some (Dir []))
      by (eapply find_put_same; eauto).
    split; [|split; [|split; [|split]]]; auto.
    + apply (clear_ok this fs es Hf (wf_find _ _ _ Hw Hf)).
      eapply store_state_root_dirs; eauto.
    + now apply keys_empty_root.
    + apply (length_eq _ _ []). now apply keys_empty_root.
    + intros key. now apply getItem_empty_root.
  - intros [Hf | Hf]; unfold clear;
      rewrite (bind_Ok _ _ _ _ _ (existsSync_eq _ fs)); unfold kind_at; rewrite Hf;
      cbn [option_map]; [reflexivity|].
    now rewrite (bind_Ok _ _ _ _ _ (readdirSync_eq _ fs [] Hf)).
Qed.

End Clearing.

(* ------------------------------------------------------------------ *)
(** ** The operations keep the layout of the store *)

Section Layout.

Import Js Fs Cache Store.
Local Open Scope fs_scope.
Implicit Types (this : JsonFileCache) (fs : node) (p q : path) (key : string)
  (value v old : json).

Lemma is_prefix_app_same a q l : is_prefix (a ++ q) (a ++ l) = is_prefix q l.
Proof. induction a; simpl; auto. now rewrite String.eqb_refl. Qed.

Lemma app_not_self (a q : path) : q <> [] -> a <> a ++ q.
Proof.
  intros Hq E. apply (f_equal (@List.length string)) in E.
  rewrite length_app in E. destruct q; [congruence|simpl in E; lia].
Qed.

Lemma store_state_grown this fs l fs1 :
  store_state this fs -> grown fs (cachePath this ++ l) fs1 ->
  List.length l <= 3 -> store_state this fs1.
Proof.
  intros [Hroot Hlay] Hg Hl. split.
  - now rewrite (Hg _), Hroot.
  - intros q k Hq. rewrite (Hg _), is_prefix_app_same.
    destruct (kind_at fs (cachePath this ++ q)) as [k0|] eqn:Ek.
    + intros [= <-]. now apply Hlay.
    + destruct (is_prefix q l) eqn:Ep; [|discriminate].
      intros [= <-]. apply is_prefix_length in Ep. lia.
Qed.

Lemma store_state_wrote this fs q t fs' :
  store_state this fs -> wrote fs (cachePath this ++ q) t fs' ->
  List.length q = 4 -> endsWith (last q "") ".json" = true -> shard_text t ->
  store_state this fs'.
Proof.
  intros [Hroot Hlay] Hw Hl He Ht. split.
  - rewrite (Hw _). destruct (path_eq_dec _ _) as [E|]; auto.
    apply app_not_self in E; [tauto|]. destruct q; discriminate.
  - intros q' k Hq'. rewrite (Hw _).
    destruct (path_eq_dec _ _) as [E|].
    + apply app_inv_head in E. subst q'. intros [= <-]. auto.
    + now apply Hlay.
Qed.

Lemma store_state_removed this fs q fs' :
  store_state this fs -> removed fs (cachePath this ++ q) fs' -> q <> [] ->
  store_state this fs'.
Proof.
  intros [Hroot Hlay] Hr Hq. split.
  - rewrite (Hr _). destruct (path_eq_dec _ _) as [E|]; auto.
    now apply app_not_self in E.
  - intros q' k Hq'. rewrite (Hr _).
    destruct (path_eq_dec _ _); [discriminate|]. now apply Hlay.
Qed.

(** In a store state the shard document of a key holds Records. *)
Lemma store_state_document this fs key :
  store_state this fs ->
  exists doc,
    document_at fs (filePath (_getFilePath this key)) = JObject doc
    /\ Forall (fun e => is_record (snd e)) doc.
Proof.
  intros [_ Hlay].
  destruct (getFilePath_shape this key)
    as (c0 & c1 & c2 & c3 & rest & _ & _ & _ & _ & _ & _ & Hp).
  rewrite Hp. unfold document_at.
  destruct (kind_at fs (cachePath this ++ _)) as [[t|]|] eqn:Ek; eauto.
  apply Hlay in Ek; [|discriminate]. destruct Ek as (_ & _ & Ht).
  destruct t as [raw|[| | | | |doc]]; simpl in Ht; try tauto; eauto.
Qed.

Lemma store_state_after_set this fs key value now :
  store_state this fs ->
  store_state this (snd (setItem this (Val (JString key)) value now fs)).
Proof.
  intros Hs.
  destruct (setItem this (Val (JString key)) value now fs) as [r fs'] eqn:E.
  destruct (setItem_post _ _ _ _ _ _ _ E) as (fs1 & Hg & Hw). cbn [snd].
  destruct (getFilePath_shape this key)
    as (c0 & c1 & c2 & c3 & rest & _ & _ & _ & _ & _ & Hf & Hp).
  assert (H1 : store_state this fs1).
  { destruct Hg as [Hg | ->]; auto. rewrite Hf in Hg.
    eapply store_state_grown; eauto. }
  destruct Hw as [(d & Hd & Hw & _) | (-> & _)]; auto.
  rewrite Hp in Hw. eapply store_state_wrote; eauto.
  destruct (store_state_document this fs key Hs) as (doc & Edoc & Hrec).
  rewrite Edoc in Hd. simpl in Hd. injection Hd as <-. simpl.
  apply Forall_forall. intros e He.
  apply set_entry_In in He as [-> | He].
  - simpl. now exists key, value, now.
  - rewrite Forall_forall in Hrec. auto.
Qed.

Lemma store_state_after_remove this fs key :
  store_state this fs ->
  store_state this (snd (removeItem this (Val (JString key)) fs)).
Proof.
  intros Hs.
  destruct (removeItem this (Val (JString key)) fs) as [r fs'] eqn:E.
  destruct (getFilePath_shape this key)
    as (c0 & c1 & c2 & c3 & rest & _ & _ & _ & _ & _ & Hf & Hp).
  destruct (store_state_document this fs key Hs) as (doc & Edoc & Hrec).
  destruct (removeItem_post _ _ _ _ _ E)
    as [(-> & _) | [(_ & Hw & _) | (_ & Hr & _)]]; cbn [snd]; auto.
  - rewrite Edoc, Hp in Hw. eapply store_state_wrote; eauto.
    simpl. apply Forall_forall. intros e He.
    apply remove_entry_In in He as [He _].
    rewrite Forall_forall in Hrec. auto.
  - rewrite Hp in Hr. eapply store_state_removed; eauto. discriminate.
Qed.

End Layout.

(* ------------------------------------------------------------------ *)
(** ** [clear], [keys] and corrupt shards: the statements *)

Section Statements.

Import Js Fs Cache Store.
Local Open Scope fs_scope.
Implicit Types (this : JsonFileCache) (fs : node) (p q : path) (key : string)
  (value v old : json).

Lemma store_state_with_username : store_state demo with_username.
Proof.
  apply store_state_after_set. apply store_state_fresh. reflexivity.
Qed.

Lemma clear_empties_store_witness :
  (store_state demo with_username /\ wf_node with_username
   /\ exists fs',
        clear demo with_username = (Ok tt, fs')
        /\ find fs' (cachePath demo) = Some (Dir [])
        /\ keys demo fs' = (Ok [], fs')
        /\ length demo fs' = (Ok 0, fs')
        /\ forall key, getItem demo (Val (JString key)) fs' = (Ok (Val JNull), fs'))
  /\ (find fresh (cachePath demo) = Some (Dir [])
      /\ clear demo fresh = (Ok tt, fresh)).
Proof.
  assert (H1 : wf_node with_username) by (vm_compute; reflexivity).
  assert (H2 : find fresh (cachePath demo) = Some (Dir [])) by reflexivity.
  split.
  - split; [exact store_state_with_username|]. split; [exact H1|].
    exact (proj1 (clear_empties_store demo with_username)
             store_state_with_username H1).
  - split; [exact H2|].
    exact (proj2 (clear_empties_store demo fresh) (or_intror H2)).
Defined.

(** [keys] and [length] in a store state: the keys that are not the empty
    string, one per record, in the order of the traversal. *)
Lemma keys_lists_nonempty_keys this fs :
  store_state this fs -> wf_node fs ->
  keys this fs = (Ok (filter nonempty (stored_keys this fs)), fs)
  /\ length this fs = (Ok (List.length (filter nonempty (stored_keys this fs))), fs)
  /\ Forall (fun k => exists s, k = JString s) (stored_keys this fs).
Proof.
  intros Hs Hw. pose proof (keys_store_state this fs Hs Hw) as Hk.
  split; [exact Hk|]. split; [now apply length_eq|].
  now apply stored_keys_strings.
Qed.

(** C8 fails on the code: after [setItem("", 1)] on a fresh store the one
    shard document holds a record whose key field is the empty string, and
    [getItem("")] reads it, but [keys] returns the empty list and [length]
    returns 0. *)
Theorem keys_misses_empty_key :
  store_state demo with_empty_key
  /\ wf_node with_empty_key
  /\ setItem demo (Val (JString "")) (JNumber 1) 1700000000000 fresh
     = (Ok tt, with_empty_key)
  /\ getItem demo (Val (JString "")) with_empty_key = (Ok (Val (JNumber 1)), with_empty_key)
  /\ stored_keys demo with_empty_key = [JString ""]
  /\ keys demo with_empty_key = (Ok [], with_empty_key)
  /\ length demo with_empty_key = (Ok 0, with_empty_key)
  /\ keys demo with_empty_key <> (Ok (stored_keys demo with_empty_key), with_empty_key).
Proof.
  split; [|split; [|split; [|split; [|split; [|split; [|split]]]]]].
  - apply store_state_after_set. apply store_state_fresh. reflexivity.
  - vm_compute. reflexivity.
  - vm_compute. reflexivity.
  - vm_compute. reflexivity.
  - vm_compute. reflexivity.
  - vm_compute. reflexivity.
  - vm_compute. reflexivity.
  - vm_compute. discriminate.
Qed.

Lemma wrote_put_file fs p t t0 :
  kind_at fs p = Some (KFile t0) -> wrote fs p t (put fs p (File t)).
Proof.
  intros H q. apply kind_at_put_file; rewrite H; discriminate.
Qed.

Lemma store_state_corrupt_username : store_state demo corrupt_username.
Proof.
  apply (store_state_wrote demo with_username ["1"; "4"; "c"; "4.json"]
           (Unparsable "{ not json")).
  - exact store_state_with_username.
  - eapply (wrote_put_file with_username
              (filePath (_getFilePath demo "username"))). vm_compute. reflexivity.
  - reflexivity.
  - reflexivity.
  - exact I.
Qed.

(** C7. A shard file whose text does not parse is read as the empty
    document by every operation, and none of them throws: [getItem] returns
    [null], [removeItem] returns and changes nothing, [setItem] returns and
    the file then holds the document with the new record only, and [keys]
    returns the keys of the other shards. *)
Theorem corrupt_shard_is_empty this fs key raw value now :
  file_at fs (filePath (_getFilePath this key)) = Some (Unparsable raw) ->
  _readFile (filePath (_getFilePath this key)) fs = (Ok (JObject []), fs)
  /\ getItem this (Val (JString key)) fs = (Ok (Val JNull), fs)
  /\ removeItem this (Val (JString key)) fs = (Ok tt, fs)
  /\ (exists fs',
        setItem this (Val (JString key)) value now fs = (Ok tt, fs')
        /\ file_at fs' (filePath (_getFilePath this key))
           = Some (Serialized (JObject [(_getMd5 key, record key value now)]))
        /\ forall q, q <> filePath (_getFilePath this key) ->
                     kind_at fs' q = kind_at fs q)
  /\ (store_state this fs -> wf_node fs ->
      keys this fs = (Ok (filter nonempty (stored_keys this fs)), fs)
      /\ records_of (document_at fs (filePath (_getFilePath this key))) = []).
Proof.
  intros Hf.
  assert (Hk : kind_at fs (filePath (_getFilePath this key))
               = Some (KFile (Unparsable raw))).
  { unfold file_at in Hf. destruct (kind_at fs _) as [[t|]|]; congruence. }
  assert (Hd : document_at fs (filePath (_getFilePath this key)) = JObject []).
  { unfold document_at. now rewrite Hk. }
  split; [now rewrite readFile_eq, Hd|].
  split; [rewrite getItem_eq, Hk, Hd; reflexivity|].
  split; [rewrite removeItem_unfold, Hk; cbv zeta; rewrite Hd; reflexivity|].
  split.
  - assert (Hdir : forall q, is_prefix q (folderPath (_getFilePath this key)) = true ->
                             kind_at fs q = Some KDir).
    { intros q Hq. apply is_prefix_true in Hq as [r Hr].
      destruct (filePath_folderPath this key) as (name & Hn & _).
      rewrite Hn, Hr, <- app_assoc in Hk.
      apply kind_at_parent in Hk; auto. destruct r; discriminate. }
    assert (Hu : usable this fs key).
    { split; [|now rewrite Hk]. intros q t Hq. rewrite (Hdir q Hq). discriminate. }
    destruct (setItem_ok this fs key value now Hu) as (fs1 & fs' & Hg & Es & Hw).
    exists fs'. split; auto. split.
    + rewrite (wrote_file_at_same _ _ _ _ Hw). unfold props_at. now rewrite Hd.
    + intros q Hq. rewrite (Hw q). destruct (path_eq_dec _ _); [congruence|].
      rewrite (Hg q). destruct (kind_at fs q) eqn:Eq; auto.
      destruct (is_prefix q _) eqn:Ep; auto.
      rewrite (Hdir q Ep) in Eq. discriminate.
  - intros Hs Hw. split; [now apply keys_store_state|]. now rewrite Hd.
Qed.

Lemma corrupt_shard_is_empty_witness :
  file_at corrupt_username (filePath (_getFilePath demo "username"))
  = Some (Unparsable "{ not json")
  /\ store_state demo corrupt_username
  /\ wf_node corrupt_username
  /\ getItem demo (Val (JString "username")) corrupt_username
     = (Ok (Val JNull), corrupt_username)
  /\ removeItem demo (Val (JString "username")) corrupt_username
     = (Ok tt, corrupt_username)
  /\ (exists fs',
        setItem demo (Val (JString "username")) (JString "lisi") 7 corrupt_username
        = (Ok tt, fs')
        /\ file_at fs' (filePath (_getFilePath demo "username"))
           = Some (Serialized
                     (JObject [(_getMd5 "username",
                                record "username" (JString "lisi") 7)])))
  /\ keys demo corrupt_username
     = (Ok (filter nonempty (stored_keys demo corrupt_username)), corrupt_username).
Proof.
  assert (H1 : file_at corrupt_username (filePath (_getFilePath demo "username"))
               = Some (Unparsable "{ not json")) by (vm_compute; reflexivity).
  assert (H2 : wf_node corrupt_username) by (vm_compute; reflexivity).
  destruct (corrupt_shard_is_empty demo corrupt_username "username" _
              (JString "lisi") 7 H1)
    as (_ & Hget & Hrem & (fs' & Hset & Hfile & _) & Hkeys).
  split; [exact H1|]. split; [exact store_state_corrupt_username|].
  split; [exact H2|]. split; [exact Hget|]. split; [exact Hrem|].
  split; [exists fs'; split; assumption|].
  exact (proj1 (Hkeys store_state_corrupt_username H2)).
Defined.

End Statements.

(* ------------------------------------------------------------------ *)
(** ** The key check *)

Section KeyCheck.

Import Js Fs Cache Store.
Local Open Scope fs_scope.
Implicit Types (this : JsonFileCache) (fs : node) (key : string) (value : json).

(** In a store state [getItem] of a string key returns. *)
Lemma getItem_returns this fs key :
  store_state this fs -> exists v, getItem this (Val (JString key)) fs = (Ok v, fs).
Proof.
  intros Hs. rewrite getItem_eq.
  destruct (store_state_document this fs key Hs) as (doc & -> & Hrec).
  destruct (kind_at fs _); [|eauto]. cbn [get_prop].
  destruct (assoc (_getMd5 key) doc) as [r|] eqn:Ea; [|eexists; reflexivity].
  apply assoc_In in Ea. rewrite Forall_forall in Hrec.
  destruct (Hrec _ Ea) as (k0 & v & now & Hr). simpl in Hr. subst r.
  eexists. reflexivity.
Qed.

(** In a store state [removeItem] of a string key returns. *)
Lemma removeItem_returns this fs key :
  store_state this fs ->
  exists fs', removeItem this (Val (JString key)) fs = (Ok tt, fs').
Proof.
  intros Hs. rewrite removeItem_unfold. cbv zeta.
  destruct (store_state_document this fs key Hs) as (doc & -> & Hrec).
  destruct (kind_at fs (filePath (_getFilePath this key))) as [k|] eqn:Ek; [|eexists; reflexivity].
  assert (Hfile : exists t, k = KFile t).
  { destruct (getFilePath_shape this key)
      as (c0 & c1 & c2 & c3 & rest & _ & _ & _ & _ & _ & _ & Hp).
    rewrite Hp in Ek. apply (proj2 Hs) in Ek; [|discriminate].
    destruct k as [t|]; [eauto|simpl in Ek; lia]. }
  destruct Hfile as [t ->].
  cbn [get_prop]. destruct (assoc (_getMd5 key) doc) as [r|]; [|eexists; reflexivity].
  destruct (truthy (Val r)); [|eexists; reflexivity].
  cbn [delete_prop Object_keys_length].
  destruct (List.length _) as [|n]; cbn [Nat.eqb].
  - destruct (unlinkSync_ok _ fs t (filePath_not_nil this key) Ek) as (fs' & E & _).
    eauto.
  - destruct (writeFileSync_ok (filePath (_getFilePath this key))
                (Serialized (JObject (remove_entry (_getMd5 key) doc))) fs)
      as (fs' & E & _); try (rewrite Ek; discriminate). eauto.
Qed.

(** C6. With a key that is not a string, [setItem], [getItem] and
    [removeItem] throw the TypeError of the key check and leave the disk as it
    was.  With a string key none of them throws that error, whatever the
    disk holds; and in a store state each of them returns. *)
Theorem key_must_be_string this fs (key : jsval) value now :
  (is_string key = false ->
     setItem this key value now fs = (Throw key_error, fs)
     /\ getItem this key fs = (Throw key_error, fs)
     /\ removeItem this key fs = (Throw key_error, fs))
  /\ (is_string key = true ->
        fst (setItem this key value now fs) <> Throw key_error
        /\ fst (getItem this key fs) <> Throw key_error
        /\ fst (removeItem this key fs) <> Throw key_error)
  /\ (is_string key = true -> store_state this fs ->
        fst (setItem this key value now fs) = Ok tt
        /\ (exists v, fst (getItem this key fs) = Ok v)
        /\ fst (removeItem this key fs) = Ok tt).
Proof.
  split; [|split].
  - destruct key as [|[]]; simpl; try discriminate; auto.
  - destruct key as [|[| | |s| |]]; simpl is_string; try discriminate. intros _.
    split; [|split].
    + destruct (setItem this (Val (JString s)) value now fs) as [r fs'] eqn:E.
      destruct (setItem_post _ _ _ _ _ _ _ E)
        as (fs1 & _ & [(d & _ & _ & _ & ->) | (_ & e & -> & He)]); simpl.
      * discriminate.
      * congruence.
    + rewrite getItem_eq. cbn [fst].
      destruct (kind_at fs _); [|discriminate].
      destruct (get_prop (Val _) _) as [e|item] eqn:Eg.
      { intros [= ->]. eapply get_prop_error; eauto. }
      destruct (truthy item); [|discriminate].
      destruct (get_prop item "value") as [e|v] eqn:Ev; [|discriminate].
      intros [= ->]. eapply get_prop_error; eauto.
    + destruct (removeItem this (Val (JString s)) fs) as [r fs'] eqn:E.
      destruct (removeItem_post _ _ _ _ _ E)
        as [(_ & [-> | (e & -> & He)]) | [(-> & _) | (-> & _)]]; simpl;
        congruence.
  - destruct key as [|[| | |s| |]]; simpl is_string; try discriminate.
    intros _ Hs. split; [|split].
    + destruct (setItem_ok this fs s value now (store_state_usable _ _ s Hs))
        as (fs1 & fs' & _ & E & _). now rewrite E.
    + destruct (getItem_returns this fs s Hs) as [v E]. rewrite E. now exists v.
    + destruct (removeItem_returns this fs s Hs) as [fs' E]. now rewrite E.
Qed.

Lemma key_must_be_string_witness :
  (setItem demo (Val (JNumber 123)) (JString "x") 0 with_username
   = (Throw key_error, with_username)
   /\ getItem demo (Val (JNumber 123)) with_username = (Throw key_error, with_username)
   /\ removeItem demo (Val (JNumber 123)) with_username
      = (Throw key_error, with_username))
  /\ (fst (setItem demo (Val (JString "123")) (JString "x") 0 with_username)
      <> Throw key_error
      /\ fst (getItem demo (Val (JString "123")) with_username) <> Throw key_error
      /\ fst (removeItem demo (Val (JString "123")) with_username) <> Throw key_error)
  /\ (store_state demo with_username
      /\ fst (setItem demo (Val (JString "123")) (JString "x") 0 with_username) = Ok tt
      /\ (exists v, fst (getItem demo (Val (JString "123")) with_username) = Ok v)
      /\ fst (removeItem demo (Val (JString "123")) with_username) = Ok tt).
Proof.
  split; [|split].
  - apply (proj1 (key_must_be_string demo with_username (Val (JNumber 123))
                    (JString "x") 0)).
    reflexivity.
  - apply (proj1 (proj2 (key_must_be_string demo with_username (Val (JString "123"))
                           (JString "x") 0))).
    reflexivity.
  - split; [exact store_state_with_username|].
    apply (proj2 (proj2 (key_must_be_string demo with_username (Val (JString "123"))
                           (JString "x") 0))).
    + reflexivity.
    + exact store_state_with_username.
Defined.

End KeyCheck.

(* ------------------------------------------------------------------ *)
(** ** Store states are closed under the operations

    The hypotheses [store_state] and [wf_node] of the statements above hold
    on the disk of a fresh store, and every operation, returning or throwing,
    takes a disk where they hold to one where they hold. *)

Section Closure.

Import Js Fs Cache Store.
Local Open Scope fs_scope.
Implicit Types (this : JsonFileCache) (fs n c : node) (p q : path) (key : string)
  (value v old : json).

Lemma NoDup_nodupb (l : list string) : NoDup l -> nodupb l = true.
Proof.
  induction 1 as [|x l Hx Hl IH]; simpl; auto.
  rewrite IH, andb_true_r. apply negb_true_iff.
  destruct (existsb (String.eqb x) l) eqn:E; auto.
  apply existsb_exists in E as (y & Hy & Exy).
  apply String.eqb_eq in Exy. subst y. tauto.
Qed.

Lemma names_ok_intro (l : list string) : NoDup l -> ~ In "" l -> names_ok l = true.
Proof.
  intros Hnd Hne. unfold names_ok. rewrite (NoDup_nodupb _ Hnd). simpl.
  apply negb_true_iff. destruct (existsb (String.eqb "") l) eqn:E; auto.
  apply existsb_exists in E as (y & Hy & Exy).
  apply String.eqb_eq in Exy. subst y. tauto.
Qed.

Lemma wf_Dir_intro es :
  NoDup (map fst es) -> ~ In "" (map fst es) ->
  (forall e, In e es -> wf_node (snd e)) ->
  wf_node (Dir es).
Proof.
  intros Hnd Hne Hall. unfold wf_node. simpl.
  rewrite (names_ok_intro _ Hnd Hne). simpl.
  induction es as [|e es IH]; auto.
  rewrite (Hall e (or_introl eq_refl)). simpl.
  inversion Hnd; subst. apply IH; auto.
  - simpl in Hne. tauto.
  - intros e' He'. apply Hall. now right.
Qed.

Lemma wf_Dir_elim es :
  wf_node (Dir es) ->
  NoDup (map fst es) /\ ~ In "" (map fst es)
  /\ (forall e, In e es -> wf_node (snd e)).
Proof.
  intros Hw. split; [now apply wf_Dir_names|]. split.
  - intros Hin. apply in_map_iff in Hin as (e & Ee & He).
    destruct (wf_Dir_In _ _ Hw He) as [_ Hne]. congruence.
  - intros e He. apply (wf_Dir_In _ _ Hw He).
Qed.

Lemma names_set_entry (k : string) (v : node) l :
  NoDup (map fst l) -> ~ In "" (map fst l) ->
  (assoc k l = None -> k <> "") ->
  NoDup (map fst (set_entry k v l)) /\ ~ In "" (map fst (set_entry k v l)).
Proof.
  intros Hnd Hne Hk. destruct (assoc k l) as [v0|] eqn:Ea.
  - now rewrite (set_entry_names_present _ _ _ _ Ea).
  - rewrite (set_entry_names_absent _ _ _ Ea). split.
    + apply NoDup_app; [exact Hnd|repeat constructor; simpl; tauto|].
      intros x Hx [<- | []]. now apply assoc_None_names in Ea.
    + rewrite in_app_iff. simpl. intros [H | [H | []]]; auto.
      apply Hk; auto.
Qed.

Lemma wf_set_entry k c es :
  wf_node (Dir es) -> wf_node c -> (assoc k es = None -> k <> "") ->
  wf_node (Dir (set_entry k c es)).
Proof.
  intros Hw Hc Hk. apply wf_Dir_elim in Hw as (Hnd & Hne & Hall).
  destruct (names_set_entry k c es Hnd Hne Hk) as [Hnd' Hne'].
  apply wf_Dir_intro; auto.
  intros e He. apply set_entry_In in He as [-> | He]; auto.
Qed.

Lemma names_remove_entry (k : string) (l : list (string * node)) :
  NoDup (map fst l) -> NoDup (map fst (remove_entry k l)).
Proof.
  unfold remove_entry. induction l as [|[k0 v0] l IH]; simpl; auto.
  intros Hnd. inversion Hnd as [|? ? Hni Hnd']; subst.
  destruct (String.eqb k k0); simpl; auto.
  constructor; auto. intros Hin. apply Hni.
  apply in_map_iff in Hin as (e & Ee & He). apply filter_In in He as [He _].
  apply in_map_iff. eauto.
Qed.

Lemma wf_remove_entry k es : wf_node (Dir es) -> wf_node (Dir (remove_entry k es)).
Proof.
  intros Hw. apply wf_Dir_elim in Hw as (Hnd & Hne & Hall).
  apply wf_Dir_intro.
  - now apply names_remove_entry.
  - intros Hin. apply Hne. apply in_map_iff in Hin as (e & Ee & He).
    apply remove_entry_In in He as [He _]. apply in_map_iff. eauto.
  - intros e He. apply remove_entry_In in He as [He _]. auto.
Qed.

Lemma wf_child es k c : wf_node (Dir es) -> assoc k es = Some c -> wf_node c.
Proof.
  intros Hw Ha. apply assoc_In in Ha. apply (wf_Dir_In _ _ Hw Ha).
Qed.

Lemma last_cons2 (a b : string) (r : list string) d :
  last (a :: b :: r) d = last (b :: r) d.
Proof. reflexivity. Qed.

Lemma wf_put p : forall n c,
  wf_node n -> wf_node c -> (find n p = None -> last p "" <> "") ->
  wf_node (put n p c).
Proof.
  induction p as [|name p IH]; intros n c Hn Hc Hl; [exact Hc|].
  destruct n as [t|es]; [exact Hn|].
  destruct p as [|a r].
  - simpl put. apply wf_set_entry; auto.
    intros Ha. apply Hl. simpl. now rewrite Ha.
  - rewrite put_cons2. destruct (assoc name es) as [ch|] eqn:Ea; [|exact Hn].
    apply wf_set_entry; auto; [|rewrite Ea; discriminate].
    apply IH; auto.
    + eapply wf_child; eauto.
    + intros Hf. rewrite <- last_cons2 with (a := name). apply Hl.
      rewrite find_cons, Ea. exact Hf.
Qed.

Lemma wf_del p : forall n, wf_node n -> wf_node (del n p).
Proof.
  induction p as [|name p IH]; intros n Hn; [exact Hn|].
  destruct n as [t|es]; [exact Hn|].
  destruct p as [|a r].
  - simpl del. now apply wf_remove_entry.
  - rewrite del_cons2. destruct (assoc name es) as [ch|] eqn:Ea; [|exact Hn].
    apply wf_set_entry; auto; [|rewrite Ea; discriminate].
    apply IH. eapply wf_child; eauto.
Qed.

Lemma wf_mkdirp p : forall n n',
  wf_node n -> ~ In "" p -> mkdirp n p = Some n' -> wf_node n'.
Proof.
  induction p as [|name p IH]; intros n n' Hn Hp Hm.
  - destruct n; simpl in Hm; congruence.
  - destruct n as [t|es]; simpl in Hm; [discriminate|].
    destruct (mkdirp _ p) as [c'|] eqn:Em; [|discriminate]. injection Hm as <-.
    apply wf_set_entry; auto.
    + apply (IH (match assoc name es with Some c => c | None => Dir [] end) c');
        auto.
      * destruct (assoc name es) as [c|] eqn:Ea; [|reflexivity].
        eapply wf_child; eauto.
      * simpl in Hp. tauto.
    + intros _ E. apply Hp. now left.
Qed.

(** The segments of a path that leads somewhere in a well-formed tree are
    not empty. *)
Lemma wf_find_names p : forall n c, wf_node n -> find n p = Some c -> ~ In "" p.
Proof.
  induction p as [|name p IH]; intros n c Hn Hf; [simpl; tauto|].
  destruct n as [t|es]; [discriminate|]. rewrite find_cons in Hf.
  destruct (assoc name es) as [ch|] eqn:Ea; [|discriminate].
  intros [E | Hin].
  - apply assoc_In in Ea. destruct (wf_Dir_In _ _ Hn Ea) as [_ Hne]. auto.
  - eapply (IH ch); eauto. eapply wf_child; eauto.
Qed.

Lemma writeFileSync_wf p t :
  last p "" <> "" -> steps (fun a b => wf_node a -> wf_node b) (writeFileSync p t).
Proof.
  intros Hl fs Hw. destruct (writeFileSync p t fs) as [r fs'] eqn:E. cbn [snd].
  unfold writeFileSync in E.
  destruct (find fs p) as [[t0|es]|] eqn:Ef.
  - injection E as <- <-. apply wf_put; auto. reflexivity.
  - injection E as <- <-. exact Hw.
  - destruct (find fs (removelast p)) as [[t1|es1]|]; injection E as <- <-; auto.
    apply wf_put; auto. reflexivity.
Qed.

Lemma unlinkSync_wf p : steps (fun a b => wf_node a -> wf_node b) (unlinkSync p).
Proof.
  intros fs Hw. destruct (unlinkSync p fs) as [r fs'] eqn:E. cbn [snd].
  unfold unlinkSync in E. destruct p as [|a r0]; [injection E as <- <-; auto|].
  destruct (find fs (a :: r0)) as [[t0|es]|]; injection E as <- <-; auto.
  exact (wf_del (a :: r0) fs Hw).
Qed.

Lemma rmdirSync_wf p : steps (fun a b => wf_node a -> wf_node b) (rmdirSync p).
Proof.
  intros fs Hw. destruct (rmdirSync p fs) as [r fs'] eqn:E. cbn [snd].
  unfold rmdirSync in E. destruct p as [|a r0]; [injection E as <- <-; auto|].
  destruct (find fs (a :: r0)) as [[t0|[|e es]]|]; injection E as <- <-; auto.
  exact (wf_del (a :: r0) fs Hw).
Qed.

Lemma ensureDir_wf p :
  ~ In "" p -> steps (fun a b => wf_node a -> wf_node b) (_ensureDir p).
Proof.
  intros Hp fs Hw. destruct (_ensureDir p fs) as [r fs'] eqn:E. cbn [snd].
  unfold _ensureDir in E.
  rewrite (bind_Ok _ _ _ _ _ (existsSync_eq p fs)) in E.
  destruct (kind_at fs p); cbn [negb] in E; [injection E as <- <-; auto|].
  unfold mkdirSync_recursive in E. destruct (mkdirp fs p) as [fs1|] eqn:Em.
  - injection E as <- <-. eapply wf_mkdirp; eauto.
  - destruct (find fs p); injection E as <- <-; auto.
Qed.

Lemma shard_names this fs key :
  wf_node fs -> kind_at fs (cachePath this) <> None ->
  ~ In "" (folderPath (_getFilePath this key))
  /\ last (filePath (_getFilePath this key)) "" <> "".
Proof.
  intros Hw Hroot.
  destruct (getFilePath_shape this key)
    as (c0 & c1 & c2 & c3 & rest & _ & _ & _ & _ & _ & Hf & Hp).
  rewrite Hf, Hp. split.
  - rewrite in_app_iff. intros [Hin | Hin].
    + unfold kind_at in Hroot.
      destruct (find fs (cachePath this)) as [c|] eqn:E; [|now elim Hroot].
      now apply (wf_find_names _ _ _ Hw E).
    + simpl in Hin. intuition discriminate.
  - change [String c0 ""; String c1 ""; String c2 ""; String c3 ".json"]
      with ([String c0 ""; String c1 ""; String c2 ""] ++ [String c3 ".json"]).
    rewrite app_assoc, last_last. discriminate.
Qed.

Lemma setItem_wf this fs (k : jsval) value now :
  wf_node fs -> kind_at fs (cachePath this) <> None ->
  wf_node (snd (setItem this k value now fs)).
Proof.
  intros Hw Hroot. destruct k as [|[| | |key| |]]; auto.
  destruct (shard_names this fs key Hw Hroot) as [Hfold Hfile].
  rewrite setItem_unfold.
  pose proof (ensureDir_wf _ Hfold fs Hw) as H1.
  destruct (_ensureDir _ fs) as [[[]|e|] fs1]; simpl in H1; auto.
  destruct (set_prop _ _ _) as [e|data']; auto.
  now apply writeFileSync_wf.
Qed.

Lemma removeItem_wf this fs (k : jsval) :
  wf_node fs -> kind_at fs (cachePath this) <> None ->
  wf_node (snd (removeItem this k fs)).
Proof.
  intros Hw Hroot. destruct k as [|[| | |key| |]]; auto.
  destruct (shard_names this fs key Hw Hroot) as [Hfold Hfile].
  rewrite removeItem_unfold. cbv zeta.
  destruct (kind_at fs (filePath _)); auto.
  destruct (get_prop _ _); auto. destruct (truthy _); auto.
  destruct (Object_keys_length _) as [e|n]; auto.
  destruct (Nat.eqb n 0).
  - now apply unlinkSync_wf.
  - now apply writeFileSync_wf.
Qed.

(** Store states on well-formed trees are closed under the operations. *)
Lemma store_state_closed this op fs :
  store_state this fs -> wf_node fs ->
  store_state this (after this op fs) /\ wf_node (after this op fs).
Proof.
  intros Hs Hw.
  assert (Hroot : kind_at fs (cachePath this) <> None)
    by (destruct Hs as [-> _]; discriminate).
  destruct op as [k value now|k|k| | |]; cbn [after].
  - split; [|now apply setItem_wf].
    destruct k as [|[| | |key| |]]; auto. now apply store_state_after_set.
  - now rewrite getItem_state.
  - split; [|now apply removeItem_wf].
    destruct k as [|[| | |key| |]]; auto. now apply store_state_after_remove.
  - destruct (store_state_root _ _ Hs) as [es Hf].
    rewrite (clear_ok this fs es Hf (wf_find _ _ _ Hw Hf)
               (store_state_root_dirs this fs es Hs Hw Hf)).
    cbn [snd]. split.
    + apply store_state_fresh. eapply find_put_same; eauto.
    + apply wf_put; auto; [reflexivity|]. rewrite Hf. discriminate.
  - now rewrite readonly_keys.
  - now rewrite readonly_length.
Qed.

(** Every state reached from a well-formed disk with an empty root is a
    store state on a well-formed tree. *)
Lemma reachable_store_state this fs0 ops :
  wf_node fs0 -> find fs0 (cachePath this) = Some (Dir []) ->
  let fs := fold_left (fun fs op => after this op fs) ops fs0 in
  store_state this fs /\ wf_node fs.
Proof.
  intros Hw Hf. cbv zeta.
  assert (H : store_state this fs0 /\ wf_node fs0)
    by (split; auto; now apply store_state_fresh).
  clear Hw Hf. revert fs0 H.
  induction ops as [|op ops IH]; intros fs0 [Hs Hw]; simpl; auto.
  apply IH. now apply store_state_closed.
Qed.

End Closure.

(* ------------------------------------------------------------------ *)
(** ** The scenarios of the test suite, run on the model *)

Section Scenarios.

Import Js Fs Cache Store.
Local Open Scope fs_scope.

(** [new JsonFileCache("cache")] on an empty disk creates the root. *)
Example constructor_creates_root :
  constructor ["cache"] None (Dir []) = (Ok demo, fresh).
Proof. reflexivity. Qed.

(** [setItem("username", "zhangsan")], then [getItem], [keys], [length],
    [removeItem], [getItem], [length]. *)
Example scenario_username :
  let fs1 := with_username in
  let fs2 := snd (removeItem demo (Val (JString "username")) fs1) in
  getItem demo (Val (JString "username")) fs1 = (Ok (Val (JString "zhangsan")), fs1)
  /\ keys demo fs1 = (Ok [JString "username"], fs1)
  /\ length demo fs1 = (Ok 1, fs1)
  /\ removeItem demo (Val (JString "username")) fs1 = (Ok tt, fs2)
  /\ getItem demo (Val (JString "username")) fs2 = (Ok (Val JNull), fs2)
  /\ length demo fs2 = (Ok 0, fs2).
Proof. vm_compute. repeat split; reflexivity. Qed.

(** The shard of ["username"]: digest [14c4...], file [cache/1/4/c/4.json]. *)
Example shard_of_username :
  _getFilePath demo "username"
  = mkInfo ["cache"; "1"; "4"; "c"] ["cache"; "1"; "4"; "c"; "4.json"]
           "14c4b06b824ec593239362517f538b29".
Proof. vm_compute. reflexivity. Qed.

(** Three keys, then [length], [removeItem], [clear], as in the test of
    [length]. *)
Example scenario_length :
  let set k v fs := snd (setItem demo (Val (JString k)) (JString v) 0 fs) in
  let fs1 := set "key1" "value1" fresh in
  let fs2 := set "key2" "value2" fs1 in
  let fs3 := snd (removeItem demo (Val (JString "key1")) fs2) in
  let fs4 := snd (clear demo fs3) in
  fst (length demo fresh) = Ok 0
  /\ fst (length demo fs1) = Ok 1
  /\ fst (length demo fs2) = Ok 2
  /\ fst (length demo fs3) = Ok 1
  /\ fst (clear demo fs3) = Ok tt
  /\ fst (length demo fs4) = Ok 0
  /\ find fs4 ["cache"] = Some (Dir []).
Proof. vm_compute. repeat split; reflexivity. Qed.

End Scenarios.

(* ================================================================== *)
(** * Further properties of the methods *)

(* ------------------------------------------------------------------ *)
(** ** Reading: [_readFile], [getItem], [keys], [length] *)

Section Reading.

Import Js Fs Cache Store.
Local Open Scope fs_scope.
Implicit Types (this : JsonFileCache) (fs : node) (p q : path) (key : string)
  (value v old : json).

(** X1. [_readFile] never throws and never writes: it returns the value
    parsed from the file, and the empty document for a missing path, for a
    directory and for text that does not parse. *)
Theorem readFile_never_throws p fs :
  exists j,
    _readFile p fs = (Ok j, fs)
    /\ j = match find fs p with
           | Some (File (Serialized j')) => j'
           | _ => JObject []
           end.
Proof.
  exists (document_at fs p). split; [apply readFile_eq|].
  unfold document_at, kind_at. destruct (find fs p) as [[[raw|j]|es]|]; reflexivity.
Qed.

(** X2. [getItem], [keys], [length] and [_getAllJsonFiles] leave the disk
    as it is, whatever they are given and whether they return or throw. *)
Theorem reads_never_write this (k : jsval) p acc fs :
  snd (getItem this k fs) = fs
  /\ snd (keys this fs) = fs
  /\ snd (length this fs) = fs
  /\ snd (_getAllJsonFiles p acc fs) = fs.
Proof.
  split; [apply getItem_state|]. split; [apply readonly_keys|].
  split; [apply readonly_length|].
  unfold _getAllJsonFiles. apply readonly_getAllJsonFiles_rec.
Qed.

(** What [getItem] returns depends on the shard document alone. *)
Lemma getItem_by_document this key fs :
  fst (getItem this (Val (JString key)) fs)
  = match get_prop (Val (document_at fs (filePath (_getFilePath this key))))
                   (_getMd5 key) with
    | inl e => Throw e
    | inr item =>
        if truthy item then
          match get_prop item "value" with
          | inl e => Throw e
          | inr v => Ok v
          end
        else Ok (Val JNull)
    end.
Proof.
  rewrite getItem_eq. cbn [fst]. unfold document_at.
  destruct (kind_at fs _); reflexivity.
Qed.

End Reading.

(* ------------------------------------------------------------------ *)
(** ** Removing *)

Section Removing.

Import Js Fs Cache Store.
Local Open Scope fs_scope.
Implicit Types (this : JsonFileCache) (fs : node) (p q : path) (key : string)
  (value v old : json).

Lemma removeItem_without_record this fs key :
  file_at fs (filePath (_getFilePath this key)) = None
  \/ (exists doc,
        file_at fs (filePath (_getFilePath this key)) = Some (Serialized (JObject doc))
        /\ assoc (_getMd5 key) doc = None) ->
  removeItem this (Val (JString key)) fs = (Ok tt, fs).
Proof.
  intros H. rewrite removeItem_unfold. cbv zeta. unfold document_at, file_at in *.
  destruct (kind_at fs _) as [[t|]|]; auto.
  - destruct H as [H | (doc & H & Ha)]; [discriminate|].
    injection H as ->. cbn [get_prop]. now rewrite Ha.
Qed.

(** X3. [removeItem] of a key that has no record (no shard file, or a shard
    document without the digest of the key) returns and leaves the disk as
    it is. *)
Theorem remove_absent_key this fs key :
  file_at fs (filePath (_getFilePath this key)) = None
  \/ (exists doc,
        file_at fs (filePath (_getFilePath this key)) = Some (Serialized (JObject doc))
        /\ assoc (_getMd5 key) doc = None) ->
  removeItem this (Val (JString key)) fs = (Ok tt, fs).
Proof. apply removeItem_without_record. Qed.

Lemma remove_absent_key_witness :
  file_at fresh (filePath (_getFilePath demo "nonexistent")) = None
  /\ removeItem demo (Val (JString "nonexistent")) fresh = (Ok tt, fresh).
Proof.
  assert (H : file_at fresh (filePath (_getFilePath demo "nonexistent")) = None)
    by (vm_compute; reflexivity).
  split; [exact H|]. apply remove_absent_key. left. exact H.
Defined.

(** X4. In a store state [removeItem] of a string key returns, and
    [getItem] of that key then returns [null]. *)
Theorem remove_then_get this fs key :
  store_state this fs ->
  exists fs',
    removeItem this (Val (JString key)) fs = (Ok tt, fs')
    /\ getItem this (Val (JString key)) fs' = (Ok (Val JNull), fs').
Proof.
  intros Hs.
  destruct (store_state_document this fs key Hs) as (doc & Hdoc & Hrec).
  destruct (file_at fs (filePath (_getFilePath this key))) as [t|] eqn:Ef.
  2:{ exists fs.
      split; [apply removeItem_without_record; now left|now apply getItem_absent]. }
  destruct (assoc (_getMd5 key) doc) as [r|] eqn:Ea.
  2:{ exists fs.
      assert (Hget : getItem this (Val (JString key)) fs = (Ok (Val JNull), fs)).
      { rewrite getItem_eq, Hdoc. cbn [get_prop]. rewrite Ea.
        destruct (kind_at fs _); reflexivity. }
      split; [|exact Hget].
      rewrite removeItem_unfold. cbv zeta. rewrite Hdoc. cbn [get_prop].
      rewrite Ea. destruct (kind_at fs _); reflexivity. }
  assert (Hk : kind_at fs (filePath (_getFilePath this key))
               = Some (KFile (Serialized (JObject doc)))).
  { revert Hdoc Ef. unfold document_at, file_at.
    destruct (kind_at fs _) as [[[raw|j]|]|]; try discriminate.
    - intros [= <-]. discriminate.
    - now intros -> _. }
  assert (Ht : truthy (Val r) = true).
  { apply assoc_In in Ea. rewrite Forall_forall in Hrec.
    destruct (Hrec _ Ea) as (k0 & v & now & Hr). simpl in Hr. now subst r. }
  destruct (remove_entry (_getMd5 key) doc) as [|e rest] eqn:Er.
  - destruct (removeItem_unlink this key fs doc r Hk Ea Ht Er) as (fs' & E & Hr).
    exists fs'. split; auto. apply getItem_absent.
    eapply removed_file_at_same; eauto.
  - destruct (removeItem_rewrite this key fs doc r Hk Ea Ht) as (fs' & E & Hw).
    { rewrite Er. discriminate. }
    exists fs'. split; auto.
    eapply getItem_no_record; [eapply wrote_file_at_same; eauto|].
    apply assoc_remove_entry_same.
Qed.

Lemma remove_then_get_witness :
  store_state demo with_username
  /\ exists fs',
       removeItem demo (Val (JString "username")) with_username = (Ok tt, fs')
       /\ getItem demo (Val (JString "username")) fs' = (Ok (Val JNull), fs').
Proof.
  split; [exact store_state_with_username|].
  exact (remove_then_get demo with_username "username" store_state_with_username).
Defined.

End Removing.

(* ------------------------------------------------------------------ *)
(** ** One key does not disturb another *)

Section Independence.

Import Js Fs Cache Store.
Local Open Scope fs_scope.
Implicit Types (this : JsonFileCache) (fs : node) (p q : path) (key : string)
  (value v old : json).

Lemma get_prop_set_other doc m1 m2 r data' :
  set_prop doc m1 r = inr data' -> m1 <> m2 ->
  get_prop (Val data') m2 = get_prop (Val doc) m2.
Proof.
  intros Hs Hne. destruct doc; simpl in Hs; try discriminate; injection Hs as <-.
  - reflexivity.
  - simpl. now rewrite assoc_set_entry_other.
Qed.

Lemma get_prop_delete_other doc m1 m2 :
  m1 <> m2 -> get_prop (Val (delete_prop doc m1)) m2 = get_prop (Val doc) m2.
Proof.
  intros Hne. destruct doc; simpl; auto. now rewrite assoc_remove_entry_other.
Qed.

Lemma get_prop_of_emptied doc m1 m2 :
  m1 <> m2 -> Object_keys_length (delete_prop doc m1) = inr 0 ->
  get_prop (Val doc) m2 = inr Undefined.
Proof.
  intros Hne Hl. destruct doc; simpl in *; try discriminate; auto.
  destruct (remove_entry m1 props) eqn:Er; [|discriminate].
  rewrite <- (assoc_remove_entry_other m1 m2 props Hne), Er. reflexivity.
Qed.

Lemma document_at_none fs p : file_at fs p = None -> document_at fs p = JObject [].
Proof. intros H. now rewrite document_at_file_at, H. Qed.

(** X5. [setItem] of one key does not change what [getItem] returns for a
    key with another digest, on any disk and whether [setItem] returns or
    throws. *)
Theorem set_keeps_other_keys this fs k1 k2 value now :
  _getMd5 k1 <> _getMd5 k2 ->
  fst (getItem this (Val (JString k2))
         (snd (setItem this (Val (JString k1)) value now fs)))
  = fst (getItem this (Val (JString k2)) fs).
Proof.
  intros Hne. rewrite !getItem_by_document.
  assert (H : get_prop
                (Val (document_at (snd (setItem this (Val (JString k1)) value now fs))
                        (filePath (_getFilePath this k2)))) (_getMd5 k2)
              = get_prop (Val (document_at fs (filePath (_getFilePath this k2))))
                         (_getMd5 k2)).
  { destruct (path_eq_dec (filePath (_getFilePath this k2))
                          (filePath (_getFilePath this k1))) as [E|E].
    - rewrite E.
      destruct (setItem_target this k1 value now fs) as [Hf | (d & Hd & Hf)].
      + now rewrite !document_at_file_at, Hf.
      + rewrite (document_at_file_at (snd _)), Hf.
        eapply get_prop_set_other; eauto.
    - now rewrite !document_at_file_at, setItem_frame. }
  now rewrite H.
Qed.

Lemma set_keeps_other_keys_witness :
  _getMd5 "key171" <> _getMd5 "key315"
  /\ fst (getItem demo (Val (JString "key315"))
            (snd (setItem demo (Val (JString "key171")) (JNumber 1) 0 with_username)))
     = fst (getItem demo (Val (JString "key315")) with_username).
Proof.
  assert (H : _getMd5 "key171" <> _getMd5 "key315") by (vm_compute; discriminate).
  split; [exact H|]. exact (set_keeps_other_keys demo with_username _ _ _ _ H).
Defined.

(** X6. [removeItem] of one key does not change what [getItem] returns for
    a key with another digest, on any disk and whether [removeItem] returns
    or throws. *)
Theorem remove_keeps_other_keys this fs k1 k2 :
  _getMd5 k1 <> _getMd5 k2 ->
  fst (getItem this (Val (JString k2)) (snd (removeItem this (Val (JString k1)) fs)))
  = fst (getItem this (Val (JString k2)) fs).
Proof.
  intros Hne. rewrite !getItem_by_document.
  assert (H : get_prop
                (Val (document_at (snd (removeItem this (Val (JString k1)) fs))
                        (filePath (_getFilePath this k2)))) (_getMd5 k2)
              = get_prop (Val (document_at fs (filePath (_getFilePath this k2))))
                         (_getMd5 k2)).
  { destruct (path_eq_dec (filePath (_getFilePath this k2))
                          (filePath (_getFilePath this k1))) as [E|E].
    - rewrite E.
      destruct (removeItem this (Val (JString k1)) fs) as [r fs'] eqn:Er.
      destruct (removeItem_post _ _ _ _ _ Er)
        as [(-> & _) | [(_ & Hw & _) | (_ & Hr & Hl)]]; cbn [snd]; auto.
      + rewrite (document_at_file_at fs'), (wrote_file_at_same _ _ _ _ Hw).
        now apply get_prop_delete_other.
      + rewrite (document_at_none fs') by (eapply removed_file_at_same; eauto).
        symmetry. eapply get_prop_of_emptied; eauto.
    - now rewrite !document_at_file_at, removeItem_frame. }
  now rewrite H.
Qed.

Lemma remove_keeps_other_keys_witness :
  _getMd5 "key171" <> _getMd5 "username"
  /\ fst (getItem demo (Val (JString "username"))
            (snd (removeItem demo (Val (JString "key171")) with_username)))
     = fst (getItem demo (Val (JString "username")) with_username).
Proof.
  assert (H : _getMd5 "key171" <> _getMd5 "username") by (vm_compute; discriminate).
  split; [exact H|]. exact (remove_keeps_other_keys demo with_username _ _ H).
Defined.

End Independence.

(* ------------------------------------------------------------------ *)
(** ** Where [clear] and [setItem] stop *)

Section Limits.

Import Js Fs Cache Store.
Local Open Scope fs_scope.
Implicit Types (this : JsonFileCache) (fs : node) (p q : path) (key : string)
  (value v old : json).

(** X7. On any disk, and whether it returns or throws, [clear] creates and
    changes nothing: every path holds what it held, or holds nothing and
    lies at or below the root. *)
Theorem clear_confined this fs q :
  kind_at (snd (clear this fs)) q = kind_at fs q
  \/ (kind_at (snd (clear this fs)) q = None
      /\ is_prefix (cachePath this) q = true).
Proof. apply (clear_pruned this fs q). Qed.

Lemma ensureDir_existing p fs :
  kind_at fs p <> None -> _ensureDir p fs = (Ok tt, fs).
Proof.
  intros H. unfold _ensureDir. rewrite (bind_Ok _ _ _ _ _ (existsSync_eq p fs)).
  destruct (kind_at fs p); [reflexivity|congruence].
Qed.

Lemma mkdirp_blocked p fs q t :
  is_prefix q p = true -> kind_at fs q = Some (KFile t) -> kind_at fs p = None ->
  mkdirp fs p = None.
Proof.
  intros Hq Hk Hp. destruct (mkdirp fs p) as [fs'|] eqn:Em; auto. exfalso.
  pose proof (kind_at_mkdirp p fs fs' q Em) as H1. rewrite Hk in H1.
  pose proof (kind_at_mkdirp p fs fs' p Em) as H2.
  rewrite Hp, is_prefix_refl in H2.
  apply is_prefix_true in Hq as [r ->].
  destruct r as [|a r]; [rewrite app_nil_r in Hp; congruence|].
  apply kind_at_parent in H2; [congruence|discriminate].
Qed.

Lemma writeFileSync_blocked p t fs :
  kind_at fs p = Some KDir
  \/ (kind_at fs p = None /\ exists t0, kind_at fs (removelast p) = Some (KFile t0)) ->
  exists code, writeFileSync p t fs = (Throw (SystemError code), fs).
Proof.
  unfold writeFileSync, kind_at.
  intros [H | (H & t0 & H0)].
  - destruct (find fs p) as [[t1|es]|]; try discriminate. eauto.
  - destruct (find fs p) as [[t1|es]|]; try discriminate.
    destruct (find fs (removelast p)) as [[t1|es]|]; try discriminate. eauto.
Qed.

Lemma setItem_throws_when_blocked this fs key value now :
  (exists q t,
     is_prefix q (folderPath (_getFilePath this key)) = true
     /\ kind_at fs q = Some (KFile t))
  \/ kind_at fs (filePath (_getFilePath this key)) = Some KDir ->
  exists code,
    setItem this (Val (JString key)) value now fs = (Throw (SystemError code), fs).
Proof.
  intros H. rewrite setItem_unfold.
  destruct (filePath_folderPath this key) as (name & Hn & _).
  destruct (kind_at fs (folderPath (_getFilePath this key))) as [k|] eqn:Ek.
  - rewrite ensureDir_existing by congruence.
    assert (Hdoc : document_at fs (filePath (_getFilePath this key)) = JObject []
                   /\ (kind_at fs (filePath (_getFilePath this key)) = Some KDir
                       \/ (kind_at fs (filePath (_getFilePath this key)) = None
                           /\ exists t0, kind_at fs (folderPath (_getFilePath this key))
                                         = Some (KFile t0)))).
    { destruct H as [(q & t & Hq & Hk) | H].
      - apply is_prefix_true in Hq as [r Hr].
        destruct r as [|a r].
        + rewrite app_nil_r in Hr. rewrite <- Hr in Hk.
          assert (Hnone : kind_at fs (filePath (_getFilePath this key)) = None).
          { rewrite Hn. apply kind_at_below_none; [discriminate|]. rewrite Hk. discriminate. }
          split; [unfold document_at; now rewrite Hnone|]. right. eauto.
        + exfalso. rewrite Hr in Ek. apply kind_at_parent in Ek; [congruence|discriminate].
      - split; [unfold document_at; now rewrite H|]. now left. }
    destruct Hdoc as [-> Hb]. cbn [set_prop].
    apply writeFileSync_blocked. rewrite filePath_parent. exact Hb.
  - destruct H as [(q & t & Hq & Hk) | H].
    + unfold _ensureDir. rewrite (bind_Ok _ _ _ _ _ (existsSync_eq _ fs)), Ek.
      cbn [negb]. unfold mkdirSync_recursive.
      rewrite (mkdirp_blocked _ fs q t Hq Hk Ek).
      destruct (find fs _); eauto.
    + exfalso. rewrite Hn in H. apply kind_at_parent in H; [congruence|discriminate].
Qed.

(** X8. Write failures are not swallowed: when a file stands on the folder
    path of the key, or a directory stands at its file path, [setItem]
    throws a system error and leaves the disk as it is. *)
Theorem setItem_blocked this fs key value now :
  (exists q t,
     is_prefix q (folderPath (_getFilePath this key)) = true
     /\ kind_at fs q = Some (KFile t))
  \/ kind_at fs (filePath (_getFilePath this key)) = Some KDir ->
  exists code,
    setItem this (Val (JString key)) value now fs = (Throw (SystemError code), fs).
Proof. apply setItem_throws_when_blocked. Qed.

End Limits.

Section LimitsWitness.

Import Js Fs Cache Store.

Lemma setItem_blocked_witness :
  exists code,
    setItem demo (Val (JString "username")) (JNumber 1) 0 root_is_file
    = (Throw (SystemError code), root_is_file).
Proof.
  apply (setItem_blocked demo root_is_file "username" (JNumber 1) 0).
  left. exists ["cache"], (Unparsable "not a directory").
  split; vm_compute; reflexivity.
Defined.

End LimitsWitness.

(* ------------------------------------------------------------------ *)
(** ** Shard files that do not hold an object *)

Section ForeignDocuments.

Import Js Fs Cache Store.
Local Open Scope fs_scope.
Implicit Types (this : JsonFileCache) (fs : node) (p q : path) (key : string)
  (value v old : json).

Lemma file_at_kind fs p t : file_at fs p = Some t -> kind_at fs p = Some (KFile t).
Proof.
  unfold file_at. destruct (kind_at fs p) as [[t'|]|]; congruence.
Qed.

Lemma file_at_folder this fs key t :
  file_at fs (filePath (_getFilePath this key)) = Some t ->
  kind_at fs (folderPath (_getFilePath this key)) <> None.
Proof.
  intros H%file_at_kind.
  destruct (filePath_folderPath this key) as (name & Hn & _).
  rewrite Hn in H. apply kind_at_parent in H; [congruence|discriminate].
Qed.

(** X9. When the shard file of a key holds the text [null], [getItem],
    [setItem] and [removeItem] of that key each throw a [TypeError] and
    leave the disk as it is. *)
Theorem null_document_throws this fs key value now :
  file_at fs (filePath (_getFilePath this key)) = Some (Serialized JNull) ->
  (exists m, getItem this (Val (JString key)) fs = (Throw (TypeError m), fs))
  /\ (exists m, setItem this (Val (JString key)) value now fs = (Throw (TypeError m), fs))
  /\ (exists m, removeItem this (Val (JString key)) fs = (Throw (TypeError m), fs)).
Proof.
  intros H.
  assert (Hd : document_at fs (filePath (_getFilePath this key)) = JNull)
    by now rewrite document_at_file_at, H.
  pose proof (file_at_kind _ _ _ H) as Hk.
  split; [|split].
  - rewrite getItem_eq, Hk, Hd. cbn [get_prop]. eauto.
  - rewrite setItem_unfold, ensureDir_existing by (eapply file_at_folder; eauto).
    rewrite Hd. cbn [set_prop]. eauto.
  - rewrite removeItem_unfold, Hk, Hd. cbn [get_prop]. eauto.
Qed.

Lemma null_document_throws_witness :
  (exists m, getItem demo (Val (JString "username")) null_username
             = (Throw (TypeError m), null_username))
  /\ (exists m, setItem demo (Val (JString "username")) (JNumber 1) 0 null_username
                = (Throw (TypeError m), null_username))
  /\ (exists m, removeItem demo (Val (JString "username")) null_username
                = (Throw (TypeError m), null_username)).
Proof.
  apply (null_document_throws demo null_username "username" (JNumber 1) 0).
  vm_compute. reflexivity.
Defined.

(** X10. When the shard file of a key holds an array, [setItem] of that key
    returns without error but stores nothing: the file keeps the array, and
    [getItem] of the key then returns [null]. *)
Theorem array_document_loses_write this fs key value now items :
  file_at fs (filePath (_getFilePath this key)) = Some (Serialized (JArray items)) ->
  exists fs',
    setItem this (Val (JString key)) value now fs = (Ok tt, fs')
    /\ (forall q, kind_at fs' q = kind_at fs q)
    /\ getItem this (Val (JString key)) fs' = (Ok (Val JNull), fs').
Proof.
  intros H.
  assert (Hd : document_at fs (filePath (_getFilePath this key)) = JArray items)
    by now rewrite document_at_file_at, H.
  pose proof (file_at_kind _ _ _ H) as Hk.
  rewrite setItem_unfold, ensureDir_existing by (eapply file_at_folder; eauto).
  rewrite Hd. cbn [set_prop].
  destruct (writeFileSync_ok (filePath (_getFilePath this key))
              (Serialized (JArray items)) fs) as (fs' & Hw & Hp);
    try (rewrite Hk; discriminate).
  exists fs'. split; [exact Hw|].
  assert (Hq : forall q, kind_at fs' q = kind_at fs q).
  { intros q. destruct (path_eq_dec q (filePath (_getFilePath this key))) as [->|Hne].
    - rewrite Hk. apply (wrote_kind_at _ _ _ _ Hp).
    - rewrite (Hp q). destruct (path_eq_dec q _); congruence. }
  split; [exact Hq|].
  rewrite getItem_eq, Hq, Hk.
  unfold document_at. rewrite Hq, Hk. reflexivity.
Qed.

Lemma array_document_loses_write_witness :
  exists fs',
    setItem demo (Val (JString "username")) (JNumber 1) 0 array_username = (Ok tt, fs')
    /\ (forall q, kind_at fs' q = kind_at array_username q)
    /\ getItem demo (Val (JString "username")) fs' = (Ok (Val JNull), fs').
Proof.
  apply (array_document_loses_write demo array_username "username" (JNumber 1) 0 []).
  vm_compute. reflexivity.
Defined.

End ForeignDocuments.

(* ------------------------------------------------------------------ *)
(** ** Directories are created and never removed by the item methods *)

Section Folders.

Import Js Fs Cache Store.
Local Open Scope fs_scope.
Implicit Types (this : JsonFileCache) (fs : node) (p q : path) (key : string)
  (value v old : json).

(** X11. [removeItem] unlinks an emptied shard file but not its folders:
    when no file stands on the folder path of a key and its shard file is
    missing, [setItem] and then [removeItem] of the key both return, and
    the disk is then the first one with the three folders of the key
    created. *)
Theorem set_remove_leaves_folders this fs key value now :
  (forall q t, is_prefix q (folderPath (_getFilePath this key)) = true ->
               kind_at fs q <> Some (KFile t)) ->
  kind_at fs (filePath (_getFilePath this key)) = None ->
  exists fs1 fs2,
    setItem this (Val (JString key)) value now fs = (Ok tt, fs1)
    /\ removeItem this (Val (JString key)) fs1 = (Ok tt, fs2)
    /\ grown fs (folderPath (_getFilePath this key)) fs2
    /\ kind_at fs2 (folderPath (_getFilePath this key)) = Some KDir.
Proof.
  intros Hpre Hnone.
  assert (Hu : usable this fs key) by (split; [exact Hpre|now rewrite Hnone]).
  destruct (setItem_ok this fs key value now Hu) as (fs0 & fs1 & Hg & Es & Hw).
  assert (Hprops : props_at fs (filePath (_getFilePath this key)) = []).
  { unfold props_at, document_at. now rewrite Hnone. }
  rewrite Hprops in Hw.
  destruct (removeItem_unlink this key fs1
              (set_entry (_getMd5 key) (record key value now) [])
              (record key value now)) as (fs2 & Er & Hr).
  - apply (wrote_kind_at _ _ _ _ Hw).
  - apply assoc_set_entry_same.
  - reflexivity.
  - now rewrite remove_set_entry.
  - exists fs1, fs2. split; [exact Es|]. split; [exact Er|].
    assert (Hg2 : grown fs (folderPath (_getFilePath this key)) fs2).
    { intros q. rewrite (Hr q).
      destruct (path_eq_dec q (filePath (_getFilePath this key))) as [->|Hne].
      - now rewrite Hnone, filePath_not_prefix.
      - rewrite (Hw q). destruct (path_eq_dec q _); [congruence|]. apply Hg. }
    split; [exact Hg2|].
    rewrite (Hg2 _), is_prefix_refl.
    pose proof (fun t => Hpre _ t (is_prefix_refl (folderPath (_getFilePath this key))))
      as Hnf.
    destruct (kind_at fs (folderPath (_getFilePath this key))) as [[t|]|]; auto.
    exfalso. now apply (Hnf t).
Qed.

Lemma set_remove_leaves_folders_witness :
  exists fs1 fs2,
    setItem demo (Val (JString "username")) (JNumber 1) 0 fresh = (Ok tt, fs1)
    /\ removeItem demo (Val (JString "username")) fs1 = (Ok tt, fs2)
    /\ grown fresh (folderPath (_getFilePath demo "username")) fs2
    /\ kind_at fs2 (folderPath (_getFilePath demo "username")) = Some KDir.
Proof.
  apply (set_remove_leaves_folders demo fresh "username" (JNumber 1) 0).
  - intros q t _. unfold kind_at, fresh.
    destruct q as [|a q]; [discriminate|]. cbn.
    destruct (String.eqb _ _); [|discriminate]. destruct q; discriminate.
  - vm_compute. reflexivity.
Defined.

(** X12. The constructor returns the instance, with [autoSave] true unless
    the options say otherwise, and a disk that differs from the given one
    only by the directories of [cachePath] that were missing; or it throws
    a system error and leaves the disk as it is. *)
Theorem constructor_post p opts fs :
  exists r fs',
    constructor p opts fs = (r, fs')
    /\ ((r = Ok (mkCache p (match opts with Some b => b | None => true end))
         /\ grown fs p fs')
        \/ (fs' = fs /\ exists code, r = Throw (SystemError code))).
Proof.
  unfold constructor. cbv zeta. unfold bind.
  destruct (_ensureDir p fs) as [r fs'] eqn:E.
  destruct (ensureDir_post _ _ _ _ E) as [(-> & Hg) | (-> & code & ->)].
  - do 2 eexists. split; [reflexivity|]. left. split; [reflexivity|exact Hg].
  - do 2 eexists. split; [reflexivity|]. right. split; [reflexivity|eauto].
Qed.

(** X13. The constructor does not check that [cachePath] is a directory.
    When a file stands there it returns and leaves the disk as it is; on
    that instance every [setItem] throws a system error, every [getItem]
    returns [null], and [keys] and [clear] throw a system error. *)
Theorem constructor_on_file p opts fs t :
  kind_at fs p = Some (KFile t) ->
  exists this,
    constructor p opts fs = (Ok this, fs)
    /\ cachePath this = p
    /\ (forall key value now, exists code,
          setItem this (Val (JString key)) value now fs
          = (Throw (SystemError code), fs))
    /\ (forall key, getItem this (Val (JString key)) fs = (Ok (Val JNull), fs))
    /\ (exists code, keys this fs = (Throw (SystemError code), fs))
    /\ (exists code, clear this fs = (Throw (SystemError code), fs)).
Proof.
  intros Hk. exists (mkCache p (match opts with Some b => b | None => true end)).
  split; [|split; [reflexivity|]].
  { unfold constructor. cbv zeta. unfold bind.
    rewrite ensureDir_existing by congruence. reflexivity. }
  cbn [cachePath].
  assert (Hf : exists t0, find fs p = Some (File t0)).
  { unfold kind_at in Hk. destruct (find fs p) as [[t0|es]|]; try discriminate. eauto. }
  destruct Hf as [t0 Hf].
  split; [|split; [|split]].
  - intros key value now. apply setItem_throws_when_blocked. left.
    exists p, t. split; [|exact Hk].
    destruct (getFilePath_shape (mkCache p (match opts with Some b => b | None => true end)) key)
      as (c0 & c1 & c2 & c3 & rest & _ & _ & _ & _ & _ & -> & _).
    cbn [cachePath]. apply is_prefix_app.
  - intros key. apply getItem_absent.
    destruct (filePath_under_root
                (mkCache p (match opts with Some b => b | None => true end)) key)
      as [q Hq].
    cbn [cachePath] in Hq. unfold file_at. rewrite Hq.
    destruct q as [|a q].
    + rewrite app_nil_r, Hk in *. exfalso.
      destruct (filePath_folderPath
                  (mkCache p (match opts with Some b => b | None => true end)) key)
        as (name & Hn & _).
      destruct (getFilePath_shape
                  (mkCache p (match opts with Some b => b | None => true end)) key)
        as (c0 & c1 & c2 & c3 & rest & _ & _ & _ & _ & _ & _ & Hp).
      cbn [cachePath] in Hp. rewrite Hq in Hp.
      apply (f_equal (@List.length string)) in Hp.
      rewrite length_app in Hp. simpl in Hp. lia.
    + rewrite kind_at_below_none; [reflexivity|discriminate|rewrite Hk; discriminate].
  - exists "ENOTDIR"%string. unfold keys, _getAllJsonFiles. cbn [cachePath].
    unfold bind at 1. cbn [_getAllJsonFiles_rec].
    unfold bind at 1. unfold existsSync. rewrite Hf. cbn [negb].
    unfold bind at 1. unfold readdirSync. rewrite Hf. reflexivity.
  - exists "ENOTDIR"%string. unfold clear. cbn [cachePath].
    unfold bind at 1. unfold existsSync. rewrite Hf.
    unfold bind at 1. unfold readdirSync. rewrite Hf. reflexivity.
Qed.

Lemma constructor_on_file_witness :
  exists this,
    constructor ["cache"] None root_is_file = (Ok this, root_is_file)
    /\ cachePath this = ["cache"]
    /\ (forall key value now, exists code,
          setItem this (Val (JString key)) value now root_is_file
          = (Throw (SystemError code), root_is_file))
    /\ (forall key, getItem this (Val (JString key)) root_is_file
                    = (Ok (Val JNull), root_is_file))
    /\ (exists code, keys this root_is_file = (Throw (SystemError code), root_is_file))
    /\ (exists code, clear this root_is_file = (Throw (SystemError code), root_is_file)).
Proof.
  apply (constructor_on_file ["cache"] None root_is_file (Unparsable "not a directory")).
  vm_compute. reflexivity.
Defined.

End Folders.

(* ------------------------------------------------------------------ *)
(** ** The two recursive walks *)

Section Subtrees.

Import Js Fs Cache Store.
Local Open Scope fs_scope.
Implicit Types (this : JsonFileCache) (fs : node) (p q : path) (key : string)
  (value v old : json).

Lemma kind_at_del_prefix p : forall fs n q,
  p <> [] -> find fs p = Some n ->
  kind_at (del fs p) q = if is_prefix p q then None else kind_at fs q.
Proof.
  induction p as [|name p' IH]; intros fs n q Hp Hf; [congruence|].
  destruct fs as [t0|es]; [discriminate|].
  rewrite find_cons in Hf. destruct (assoc name es) as [c|] eqn:Ea; [|discriminate].
  destruct p' as [|a r].
  - simpl del. destruct q as [|n' q']; [reflexivity|].
    rewrite !kind_at_Dir_cons. cbn [is_prefix].
    destruct (string_dec name n') as [<-|Hne].
    + now rewrite assoc_remove_entry_same, String.eqb_refl.
    + rewrite assoc_remove_entry_other by auto.
      apply String.eqb_neq in Hne. now rewrite Hne.
  - rewrite del_cons2, Ea. destruct q as [|n' q']; [reflexivity|].
    rewrite !kind_at_Dir_cons. cbn [is_prefix].
    destruct (string_dec name n') as [<-|Hne].
    + rewrite assoc_set_entry_same, Ea, String.eqb_refl. cbn [andb].
      apply (IH c n); [discriminate|exact Hf].
    + rewrite assoc_set_entry_other by auto.
      apply String.eqb_neq in Hne. now rewrite Hne.
Qed.

Lemma kind_at_dir fs p : kind_at fs p = Some KDir -> exists es, find fs p = Some (Dir es).
Proof.
  unfold kind_at. destruct (find fs p) as [[t|es]|]; try discriminate. eauto.
Qed.

(** X14. On a well-formed disk [_removeDir] of a directory returns and
    removes the directory with everything below it, and nothing else. *)
Theorem removeDir_removes_subtree p fs :
  wf_node fs -> p <> [] -> kind_at fs p = Some KDir ->
  exists fs',
    _removeDir p fs = (Ok tt, fs')
    /\ forall q, kind_at fs' q = if is_prefix p q then None else kind_at fs q.
Proof.
  intros Hw Hp Hk. destruct (kind_at_dir _ _ Hk) as [es Hf].
  exists (del fs p). split.
  - unfold _removeDir. apply (removeDir_rec_ok _ fs p es Hp Hf).
    + eapply wf_find; eauto.
    + apply find_height in Hf. lia.
  - intros q. eapply kind_at_del_prefix; eauto.
Qed.

Lemma removeDir_removes_subtree_witness :
  exists fs',
    _removeDir ["cache"; "1"] with_username = (Ok tt, fs')
    /\ forall q, kind_at fs' q
                 = if is_prefix ["cache"; "1"] q then None else kind_at with_username q.
Proof.
  apply (removeDir_removes_subtree ["cache"; "1"] with_username).
  - vm_compute. reflexivity.
  - discriminate.
  - vm_compute. reflexivity.
Defined.

Lemma json_files_complete h : forall n dp q t,
  height n <= h -> wf_node n -> q <> [] ->
  find n q = Some (File t) -> endsWith (last q "") ".json" = true ->
  In (dp ++ q) (json_files dp n).
Proof.
  induction h as [|h IH]; intros n dp q t Hh Hw Hq Hf He.
  - destruct n as [t0|es]; [|simpl in Hh; lia].
    destruct q; [congruence|discriminate].
  - destruct n as [t0|es]; [destruct q; [congruence|discriminate]|].
    destruct q as [|name q']; [congruence|].
    rewrite find_cons in Hf. destruct (assoc name es) as [c|] eqn:Ea; [|discriminate].
    rewrite json_files_Dir. apply in_flat_map. exists (name, c).
    split; [now apply assoc_In|].
    unfold json_files_entry. cbn [fst snd].
    destruct q' as [|b r].
    + simpl in Hf. injection Hf as ->. simpl in He. rewrite He. now left.
    + destruct c as [t1|es']; [discriminate|].
      rewrite last_cons2 in He.
      change (dp ++ name :: b :: r) with (dp ++ [name] ++ b :: r).
      rewrite app_assoc. apply (IH (Dir es') _ _ t); auto.
      * apply height_child in Ea. lia.
      * eapply wf_child; eauto.
      * discriminate.
Qed.

Lemma json_files_ends h : forall n dp p,
  height n <= h -> wf_node n -> In p (json_files dp n) ->
  exists q t, p = dp ++ q /\ q <> [] /\ find n q = Some (File t)
              /\ endsWith (last q "") ".json" = true.
Proof.
  induction h as [|h IH]; intros n dp p Hh Hw Hin.
  - destruct n as [t|es]; simpl in *; [tauto|lia].
  - destruct n as [t|es]; [simpl in Hin; tauto|].
    rewrite json_files_Dir in Hin. apply in_flat_map in Hin as ([name c] & He & Hp).
    assert (Ha : assoc name es = Some c)
      by (apply In_assoc; auto; now apply wf_Dir_names).
    unfold json_files_entry in Hp. cbn [fst snd] in Hp.
    destruct c as [t|es'].
    + destruct (endsWith name ".json") eqn:Ee; [|simpl in Hp; tauto].
      destruct Hp as [<- | []]. exists [name], t.
      repeat split; [discriminate| |exact Ee].
      simpl. now rewrite Ha.
    + destruct (IH (Dir es') (dp ++ [name]) p) as (q & t & -> & Hq & Hfq & Hl); auto.
      * apply height_In in He. simpl in *. lia.
      * apply (wf_Dir_In _ _ Hw He).
      * exists (name :: q), t. rewrite <- app_assoc.
        repeat split; [discriminate| |].
        -- rewrite find_cons, Ha. exact Hfq.
        -- destruct q as [|b r]; [congruence|]. now rewrite last_cons2.
Qed.

Lemma json_files_entry_head dp e a :
  wf_node (snd e) -> In a (json_files_entry dp e) -> exists r, a = dp ++ fst e :: r.
Proof.
  destruct e as [name c]. unfold json_files_entry. cbn [fst snd]. intros Hw Hin.
  destruct c as [t|es].
  - destruct (endsWith name ".json"); [|simpl in Hin; tauto].
    destruct Hin as [<- | []]. now exists [].
  - destruct (json_files_ends _ (Dir es) (dp ++ [name]) a (le_n _) Hw Hin)
      as (q & t & -> & _). exists q. now rewrite <- app_assoc.
Qed.

Lemma json_files_NoDup h : forall n dp,
  height n <= h -> wf_node n -> NoDup (json_files dp n).
Proof.
  induction h as [|h IH]; intros n dp Hh Hw.
  - destruct n as [t|es]; [constructor|simpl in Hh; lia].
  - destruct n as [t|es]; [constructor|].
    rewrite json_files_Dir.
    assert (Hsub : forall l,
               (forall e, In e l -> In e es) -> NoDup (map fst l) ->
               NoDup (flat_map (json_files_entry dp) l)).
    { induction l as [|e l IHl]; intros Hin Hnd; [constructor|].
      cbn [flat_map]. inversion Hnd as [|? ? Hni Hnd']; subst.
      assert (Hwe : wf_node (snd e))
        by (apply (wf_Dir_In _ _ Hw), Hin; now left).
      apply NoDup_app.
      - destruct e as [name c]. unfold json_files_entry. cbn [fst snd] in *.
        destruct c as [t|es'].
        + destruct (endsWith name ".json"); repeat constructor. simpl. tauto.
        + apply IH; auto.
          assert (He : In (name, Dir es') es) by (apply Hin; now left).
          apply height_In in He. simpl in *. lia.
      - apply IHl; auto. intros e0 He0. apply Hin. now right.
      - intros a Ha Hb.
        apply json_files_entry_head in Ha as [r Hr]; auto.
        apply in_flat_map in Hb as (e' & He' & Hb).
        apply json_files_entry_head in Hb as [r' Hr'].
        2:{ apply (wf_Dir_In _ _ Hw), Hin. now right. }
        rewrite Hr in Hr'. apply app_inv_head in Hr'. injection Hr' as Hn _.
        apply Hni. rewrite Hn. now apply in_map. }
    apply Hsub; auto. now apply wf_Dir_names.
Qed.

(** X15. On a well-formed disk [_getAllJsonFiles] of a directory returns
    the given list followed by the paths of the files at any depth below
    the directory whose name ends in [.json]: each of them once, and no
    other path. *)
Theorem getAllJsonFiles_lists_json_files p acc fs :
  wf_node fs -> kind_at fs p = Some KDir ->
  exists l,
    _getAllJsonFiles p acc fs = (Ok (acc ++ l), fs)
    /\ NoDup l
    /\ forall q,
         In q l
         <-> exists r t,
               q = p ++ r /\ r <> [] /\ kind_at fs q = Some (KFile t)
               /\ endsWith (last r "") ".json" = true.
Proof.
  intros Hw Hk. destruct (kind_at_dir _ _ Hk) as [es Hf].
  pose proof (wf_find _ _ _ Hw Hf) as Hwd.
  exists (json_files p (Dir es)). split; [|split].
  - unfold _getAllJsonFiles. apply getAllJsonFiles_rec_eq; auto.
    apply find_height in Hf. lia.
  - now apply (json_files_NoDup _ _ _ (le_n _)).
  - intros q. split.
    + intros Hin.
      destruct (json_files_ends _ _ _ _ (le_n _) Hwd Hin) as (r & t & -> & Hr & Hfr & He).
      exists r, t. repeat split; auto.
      rewrite (kind_at_app _ _ _ _ Hf). unfold kind_at. now rewrite Hfr.
    + intros (r & t & -> & Hr & Hkq & He).
      rewrite (kind_at_app _ _ _ _ Hf) in Hkq. unfold kind_at in Hkq.
      destruct (find (Dir es) r) as [[t0|es0]|] eqn:Efr; try discriminate.
      apply (json_files_complete _ _ _ _ t0 (le_n _) Hwd Hr Efr He).
Qed.

Lemma getAllJsonFiles_lists_json_files_witness :
  exists l,
    _getAllJsonFiles ["cache"] [] with_stray_file = (Ok ([] ++ l), with_stray_file)
    /\ NoDup l
    /\ forall q,
         In q l
         <-> exists r t,
               q = ["cache"] ++ r /\ r <> []
               /\ kind_at with_stray_file q = Some (KFile t)
               /\ endsWith (last r "") ".json" = true.
Proof.
  apply (getAllJsonFiles_lists_json_files ["cache"] [] with_stray_file);
    vm_compute; reflexivity.
Defined.

End Subtrees.

(* ------------------------------------------------------------------ *)
(** ** What [clear] leaves in the root directory *)

Section ClearingFiles.

Import Js Fs Cache Store.
Local Open Scope fs_scope.
Implicit Types (this : JsonFileCache) (fs : node) (p q : path) (key : string)
  (value v old : json).

Lemma remove_entry_middle {A} k (v : A) (pre l : list (string * A)) :
  ~ In k (map fst pre) -> ~ In k (map fst l) ->
  remove_entry k (pre ++ (k, v) :: l) = pre ++ l.
Proof.
  intros Hpre Hl.
  assert (H : forall a b : list (string * A),
             remove_entry k (a ++ b) = remove_entry k a ++ remove_entry k b)
    by (intros; apply filter_app).
  now rewrite H, remove_entry_fresh, remove_entry_head.
Qed.

(** A loop over the names of a directory whose body deletes the
    directories it is given and skips the files leaves the files. *)
Lemma forEach_prunes (P : string -> node -> Prop) (body : string -> M unit) p :
  (forall fs name c,
     find fs (p ++ [name]) = Some c -> P name c ->
     body name fs = (Ok tt, if is_file c then fs else del fs (p ++ [name]))) ->
  forall l pre fs,
    find fs p = Some (Dir (pre ++ l)) ->
    NoDup (map fst (pre ++ l)) ->
    (forall e, In e l -> P (fst e) (snd e)) ->
    forEach (map fst l) body fs
    = (Ok tt, put fs p (Dir (pre ++ filter (fun e => is_file (snd e)) l))).
Proof.
  intros Hbody. induction l as [|[name c] l IH]; intros pre fs Hf Hnd HP.
  - simpl. unfold ret. now rewrite (put_same _ _ _ Hf).
  - cbn [map fst forEach].
    assert (Hc : find fs (p ++ [name]) = Some c).
    { rewrite (find_child _ _ _ _ Hf). apply In_assoc; [exact Hnd|].
      apply in_or_app. right. now left. }
    rewrite (bind_Ok _ _ _ _ _ (Hbody fs name c Hc (HP (name, c) (or_introl eq_refl)))).
    cbn [filter snd]. destruct (is_file c) eqn:Ec.
    + specialize (IH (pre ++ [(name, c)]) fs).
      rewrite <- !app_assoc in IH. cbn [app] in IH.
      apply IH; auto. intros e He. apply HP. now right.
    + rewrite map_app in Hnd. cbn [map fst] in Hnd.
      pose proof (NoDup_remove_1 _ _ _ Hnd) as Hnd1.
      pose proof (NoDup_remove_2 _ _ _ Hnd) as Hni.
      rewrite (IH pre).
      * now rewrite put_del_below by discriminate.
      * rewrite (find_del_child _ _ _ name Hf).
        rewrite remove_entry_middle; auto; intros Hin; apply Hni, in_or_app; auto.
      * now rewrite map_app.
      * intros e He. apply HP. now right.
Qed.

Lemma assoc_filter_absent {A} (f : string * A -> bool) k (l : list (string * A)) :
  ~ In k (map fst l) -> assoc k (filter f l) = None.
Proof.
  induction l as [|[k0 v0] l IH]; simpl; auto. intros H.
  destruct (f (k0, v0)); simpl; auto.
  destruct (String.eqb k k0) eqn:E; auto.
  apply String.eqb_eq in E. subst. tauto.
Qed.

Lemma assoc_filter_files name (es : list (string * node)) :
  NoDup (map fst es) ->
  assoc name (filter (fun e => is_file (snd e)) es)
  = match assoc name es with
    | Some (File t) => Some (File t)
    | _ => None
    end.
Proof.
  induction es as [|[k v] es IH]; simpl; auto. intros Hnd.
  inversion Hnd as [|? ? Hni Hnd']; subst.
  destruct (String.eqb name k) eqn:E.
  - apply String.eqb_eq in E. subst k. destruct v as [t|es']; simpl.
    + now rewrite String.eqb_refl.
    + now apply assoc_filter_absent.
  - destruct (is_file v); simpl; rewrite ?E; auto.
Qed.

(** X16. [clear] removes the directories of the root and keeps its files:
    on a well-formed disk whose root is a directory it returns, every
    directory directly in the root is gone with what it held, and every
    file directly in the root is still there with its text. *)
Theorem clear_keeps_root_files this fs :
  wf_node fs -> kind_at fs (cachePath this) = Some KDir ->
  exists es fs',
    find fs (cachePath this) = Some (Dir es)
    /\ clear this fs = (Ok tt, fs')
    /\ find fs' (cachePath this)
       = Some (Dir (filter (fun e => is_file (snd e)) es))
    /\ forall name,
         kind_at fs' (cachePath this ++ [name])
         = match kind_at fs (cachePath this ++ [name]) with
           | Some (KFile t) => Some (KFile t)
           | _ => None
           end.
Proof.
  intros Hw Hk. destruct (kind_at_dir _ _ Hk) as [es Hf].
  pose proof (wf_find _ _ _ Hw Hf) as Hwd.
  exists es, (put fs (cachePath this) (Dir (filter (fun e => is_file (snd e)) es))).
  split; [exact Hf|].
  assert (Hf' : find (put fs (cachePath this)
                        (Dir (filter (fun e => is_file (snd e)) es))) (cachePath this)
                = Some (Dir (filter (fun e => is_file (snd e)) es)))
    by (eapply find_put_same; eauto).
  split; [|split; [exact Hf'|]].
  - unfold clear.
    rewrite (bind_Ok _ _ _ _ _ (existsSync_eq _ fs)), Hk. 
    rewrite (bind_Ok _ _ _ _ _ (readdirSync_eq _ fs es Hf)).
    apply (forEach_prunes (fun name c => name <> "" /\ wf_node c) _ _) with (pre := []).
    + intros fs0 name c Hc (Hne & Hwc).
      rewrite (path_join_one _ _ Hne).
      rewrite (bind_Ok _ _ _ _ _ (statSync_eq _ _ _ Hc)).
      destruct c as [t|es']; [reflexivity|]. cbn [is_file].
      unfold _removeDir. apply (removeDir_rec_ok _ fs0 _ es'); auto.
      * destruct (cachePath this); discriminate.
      * apply find_height in Hc. lia.
    + exact Hf.
    + now apply wf_Dir_names.
    + intros e He. destruct (wf_Dir_In _ _ Hwd He) as [Hwe Hne]. auto.
  - intros name. rewrite (kind_at_app _ _ _ _ Hf'), (kind_at_app _ _ _ _ Hf).
    rewrite !kind_at_Dir_cons.
    rewrite assoc_filter_files by now apply wf_Dir_names.
    destruct (assoc name es) as [[t|es']|]; reflexivity.
Qed.

Lemma clear_keeps_root_files_witness :
  exists es fs',
    find with_stray_file (cachePath demo) = Some (Dir es)
    /\ clear demo with_stray_file = (Ok tt, fs')
    /\ find fs' (cachePath demo)
       = Some (Dir (filter (fun e => is_file (snd e)) es))
    /\ forall name,
         kind_at fs' (cachePath demo ++ [name])
         = match kind_at with_stray_file (cachePath demo ++ [name]) with
           | Some (KFile t) => Some (KFile t)
           | _ => None
           end.
Proof.
  apply (clear_keeps_root_files demo with_stray_file); vm_compute; reflexivity.
Defined.

End ClearingFiles.

(* ------------------------------------------------------------------ *)
(** ** What [keys] lists *)

Section Listing.

Import Js Fs Cache Store.
Local Open Scope fs_scope.
Implicit Types (this : JsonFileCache) (fs : node) (p q : path) (key : string)
  (value v old : json).

Lemma key_field_record key value now : key_field (record key value now) = [JString key].
Proof. reflexivity. Qed.

Lemma flat_map_key_fields (doc : list (string * json)) :
  flat_map key_field (map snd doc) = flat_map (fun e => key_field (snd e)) doc.
Proof. induction doc as [|e doc IH]; simpl; congruence. Qed.

Lemma props_at_kind fs p doc :
  kind_at fs p = Some (KFile (Serialized (JObject doc))) -> props_at fs p = doc.
Proof. intros H. unfold props_at, document_at. now rewrite H. Qed.

(** A key with a record has a shard file that holds an object. *)
Lemma holds_file this fs key value :
  holds this fs key value ->
  exists doc now,
    kind_at fs (filePath (_getFilePath this key)) = Some (KFile (Serialized (JObject doc)))
    /\ assoc (_getMd5 key) doc = Some (record key value now).
Proof.
  intros [now Ha]. unfold props_at, document_at in Ha.
  destruct (kind_at fs (filePath (_getFilePath this key)))
    as [[[raw|[| | | | |doc]]|]|]; try discriminate.
  eauto.
Qed.

Lemma holds_getItem this fs key value :
  holds this fs key value ->
  getItem this (Val (JString key)) fs = (Ok (Val value), fs).
Proof.
  intros H. destruct (holds_file _ _ _ _ H) as (doc & now & Hk & Ha).
  eapply getItem_document; eauto.
Qed.

(** The shard file of a key is among the files that [keys] reads. *)
Lemma shard_file_listed this fs key t :
  wf_node fs -> kind_at fs (cachePath this) = Some KDir ->
  kind_at fs (filePath (_getFilePath this key)) = Some (KFile t) ->
  In (filePath (_getFilePath this key)) (shard_files this fs).
Proof.
  intros Hw Hroot Hk. destruct (kind_at_dir _ _ Hroot) as [es Hf].
  unfold shard_files. rewrite Hf.
  destruct (getFilePath_shape this key)
    as (c0 & c1 & c2 & c3 & rest & _ & _ & _ & _ & _ & _ & Hp).
  rewrite Hp in *. rewrite (kind_at_app _ _ _ _ Hf) in Hk. unfold kind_at in Hk.
  destruct (find (Dir es) _) as [[t0|es0]|] eqn:Efr; try discriminate.
  apply (json_files_complete _ _ _ _ t0 (le_n _)); auto.
  - eapply wf_find; eauto.
  - discriminate.
Qed.

Lemma holds_stored this fs key value :
  wf_node fs -> kind_at fs (cachePath this) = Some KDir ->
  holds this fs key value -> In (JString key) (stored_keys this fs).
Proof.
  intros Hw Hroot H. destruct (holds_file _ _ _ _ H) as (doc & now & Hk & Ha).
  unfold stored_keys. apply in_flat_map.
  exists (filePath (_getFilePath this key)). split.
  - eapply shard_file_listed; eauto.
  - unfold document_at. rewrite Hk. cbn [records_of].
    apply in_flat_map. exists (record key value now). split.
    + apply assoc_In in Ha. apply in_map_iff. now exists (_getMd5 key, record key value now).
    + rewrite key_field_record. now left.
Qed.

Lemma nonempty_string key : nonempty (JString key) = true <-> key <> "".
Proof.
  unfold nonempty. cbn [truthy]. rewrite negb_true_iff. apply String.eqb_neq.
Qed.

(** X17. In a store state on a well-formed disk, after [setItem] of a key
    other than the empty string [keys] lists the key and [length] is the
    number of keys listed, at least 1. *)
Theorem keys_lists_key_after_set this fs key value now :
  store_state this fs -> wf_node fs -> key <> "" ->
  exists fs' ks,
    setItem this (Val (JString key)) value now fs = (Ok tt, fs')
    /\ keys this fs' = (Ok ks, fs')
    /\ In (JString key) ks
    /\ length this fs' = (Ok (List.length ks), fs')
    /\ 0 < List.length ks.
Proof.
  intros Hs Hw Hne.
  pose proof (store_state_usable this fs key Hs) as Hu.
  destruct (setItem_ok this fs key value now Hu) as (fs1 & fs' & Hg & Es & Hwr).
  destruct (store_state_closed this (SetItem (Val (JString key)) value now) fs Hs Hw)
    as [Hs' Hw'].
  cbn [after] in Hs', Hw'. rewrite Es in Hs', Hw'. cbn [snd] in Hs', Hw'.
  pose proof (keys_store_state this fs' Hs' Hw') as Ek.
  assert (Hin : In (JString key) (filter nonempty (stored_keys this fs'))).
  { apply filter_In. split; [|now apply nonempty_string].
    apply (holds_stored this fs' key value Hw' (proj1 Hs')).
    exists now. rewrite (props_at_kind _ _ _ (wrote_kind_at _ _ _ _ Hwr)).
    apply assoc_set_entry_same. }
  exists fs', (filter nonempty (stored_keys this fs')).
  split; [exact Es|]. split; [exact Ek|]. split; [exact Hin|].
  split; [now apply length_eq|].
  destruct (filter nonempty (stored_keys this fs')); [destruct Hin|simpl; lia].
Qed.

Lemma keys_lists_key_after_set_witness :
  exists fs' ks,
    setItem demo (Val (JString "key171")) (JNumber 1) 0 with_username = (Ok tt, fs')
    /\ keys demo fs' = (Ok ks, fs')
    /\ In (JString "key171") ks
    /\ length demo fs' = (Ok (List.length ks), fs')
    /\ 0 < List.length ks.
Proof.
  apply (keys_lists_key_after_set demo with_username "key171" (JNumber 1) 0).
  - apply store_state_with_username.
  - vm_compute. reflexivity.
  - discriminate.
Defined.

End Listing.

(* ------------------------------------------------------------------ *)
(** ** [keys] and [getItem] agree on the states the store reaches *)

Section Agreement.

Import Js Fs Cache Store.
Local Open Scope fs_scope.
Implicit Types (this : JsonFileCache) (fs : node) (p q : path) (key : string)
  (value v old : json).

Lemma NoDup_set_entry {A} k (v : A) (l : list (string * A)) :
  NoDup (map fst l) -> NoDup (map fst (set_entry k v l)).
Proof.
  intros Hnd. destruct (assoc k l) as [v0|] eqn:Ea.
  - now rewrite (set_entry_names_present _ _ _ _ Ea).
  - rewrite (set_entry_names_absent _ _ _ Ea).
    apply NoDup_app; [exact Hnd|repeat constructor; simpl; tauto|].
    intros x Hx [<- | []]. now apply assoc_None_names in Ea.
Qed.

Lemma NoDup_remove_entry {A} k (l : list (string * A)) :
  NoDup (map fst l) -> NoDup (map fst (remove_entry k l)).
Proof.
  unfold remove_entry. induction l as [|[k0 v0] l IH]; simpl; auto.
  intros Hnd. inversion Hnd as [|? ? Hni Hnd']; subst.
  destruct (String.eqb k k0); simpl; auto.
  constructor; auto. intros Hin. apply Hni.
  apply in_map_iff in Hin as (e & Ee & He). apply filter_In in He as [He _].
  apply in_map_iff. eauto.
Qed.

Lemma NoDup_fst_inj {A} (l : list (string * A)) k (v1 v2 : A) :
  NoDup (map fst l) -> In (k, v1) l -> In (k, v2) l -> v1 = v2.
Proof.
  intros Hnd H1 H2. apply (In_assoc _ _ _ Hnd) in H1. apply (In_assoc _ _ _ Hnd) in H2.
  congruence.
Qed.

Lemma NoDup_flat_map {A B} (g : A -> list B) (l : list A) :
  NoDup l ->
  (forall x, In x l -> NoDup (g x)) ->
  (forall x y a, In x l -> In y l -> In a (g x) -> In a (g y) -> x = y) ->
  NoDup (flat_map g l).
Proof.
  induction l as [|x l IH]; intros Hnd Hg Hinj; [constructor|].
  inversion Hnd as [|? ? Hni Hnd']; subst. cbn [flat_map].
  apply NoDup_app.
  - apply Hg. now left.
  - apply IH; auto.
    + intros y Hy. apply Hg. now right.
    + intros y z a Hy Hz. apply Hinj; now right.
  - intros a Ha Hb. apply in_flat_map in Hb as (y & Hy & Hb).
    assert (x = y) by (apply (Hinj x y a); auto; [now left|now right]).
    subst y. contradiction.
Qed.

Lemma key_field_NoDup item : NoDup (key_field item).
Proof.
  destruct item; simpl; try constructor.
  destruct (assoc "key" props); repeat constructor. simpl. tauto.
Qed.

Lemma distinct_slots_fresh this fs :
  find fs (cachePath this) = Some (Dir []) -> distinct_slots this fs.
Proof.
  intros H q doc. unfold file_at. rewrite (kind_at_app _ _ _ _ H).
  destruct q; discriminate.
Qed.

Lemma distinct_slots_document this fs key doc :
  distinct_slots this fs ->
  document_at fs (filePath (_getFilePath this key)) = JObject doc ->
  NoDup (map fst doc).
Proof.
  intros Hinv. destruct (filePath_under_root this key) as [q Hq].
  rewrite document_at_file_at, Hq.
  destruct (file_at fs (cachePath this ++ q)) as [[raw|j]|] eqn:Ef.
  - intros [= <-]. constructor.
  - intros ->. apply (Hinv q doc Ef).
  - intros [= <-]. constructor.
Qed.

(** Every operation keeps the names of a document distinct. *)
Lemma distinct_slots_after this op fs :
  distinct_slots this fs -> distinct_slots this (after this op fs).
Proof.
  intros Hinv. destruct op as [k value now|k|k| | |]; cbn [after].
  - destruct k as [|[| | |key| |]]; auto.
    intros q doc Hf.
    destruct (path_eq_dec (cachePath this ++ q) (filePath (_getFilePath this key)))
      as [Eq|Hq].
    + rewrite Eq in Hf.
      destruct (setItem_target this key value now fs) as [E | (d & Hd & E)];
        rewrite E in Hf.
      * rewrite <- Eq in Hf. apply (Hinv q doc Hf).
      * assert (Ed : d = JObject doc) by congruence. subst d.
        destruct (document_at fs (filePath (_getFilePath this key)))
          as [| | | |items|props] eqn:Edoc; simpl in Hd; try discriminate.
        injection Hd as <-. apply NoDup_set_entry.
        eapply distinct_slots_document; eauto.
    + rewrite setItem_frame in Hf by auto. apply (Hinv q doc Hf).
  - now rewrite getItem_state.
  - destruct k as [|[| | |key| |]]; auto.
    intros q doc Hf.
    destruct (path_eq_dec (cachePath this ++ q) (filePath (_getFilePath this key)))
      as [Eq|Hq].
    + rewrite Eq in Hf.
      destruct (removeItem_target this key fs) as [E | [(E & _) | E]];
        rewrite E in Hf.
      * rewrite <- Eq in Hf. apply (Hinv q doc Hf).
      * assert (Ed : delete_prop (document_at fs (filePath (_getFilePath this key)))
                                 (_getMd5 key) = JObject doc) by congruence.
        destruct (document_at fs (filePath (_getFilePath this key)))
          as [| | | |items|props] eqn:Edoc; simpl in Ed; try discriminate.
        injection Ed as <-. apply NoDup_remove_entry.
        eapply distinct_slots_document; eauto.
      * discriminate.
    + rewrite removeItem_frame in Hf by auto. apply (Hinv q doc Hf).
  - intros q doc Hf. apply (Hinv q doc).
    eapply pruned_file_at; [apply clear_pruned|exact Hf].
  - now rewrite readonly_keys.
  - now rewrite readonly_length.
Qed.

(** What holds after any sequence of operations on an empty root. *)
Lemma run_invariants this ops : forall fs0,
  store_state this fs0 /\ wf_node fs0 /\ digest_inv this fs0 /\ distinct_slots this fs0 ->
  store_state this (run this ops fs0) /\ wf_node (run this ops fs0)
  /\ digest_inv this (run this ops fs0) /\ distinct_slots this (run this ops fs0).
Proof.
  unfold run. induction ops as [|op ops IH]; intros fs0 (Hs & Hw & Hd & Hn); simpl; auto.
  apply IH. destruct (store_state_closed this op fs0 Hs Hw) as [Hs' Hw'].
  split; [exact Hs'|]. split; [exact Hw'|]. split.
  - now apply digest_inv_after.
  - now apply distinct_slots_after.
Qed.

(** The records that [keys] reads, when the invariants hold. *)
Lemma listed_document this fs es p :
  wf_node fs -> find fs (cachePath this) = Some (Dir es) ->
  digest_inv this fs -> distinct_slots this fs ->
  In p (json_files (cachePath this) (Dir es)) ->
  exists doc,
    document_at fs p = JObject doc
    /\ NoDup (map fst doc)
    /\ forall d r, In (d, r) doc ->
         exists key value now,
           r = record key value now /\ d = _getMd5 key
           /\ p = filePath (_getFilePath this key).
Proof.
  intros Hw Hf Hd Hn Hin.
  destruct (json_files_ends _ _ _ _ (le_n _) (wf_find _ _ _ Hw Hf) Hin)
    as (q & t & -> & Hq & Hfq & _).
  assert (Ef : file_at fs (cachePath this ++ q) = Some t).
  { unfold file_at. rewrite (kind_at_app _ _ _ _ Hf). unfold kind_at. now rewrite Hfq. }
  destruct (Hd q t Ef) as (doc & -> & Hdoc).
  exists doc. split; [now rewrite document_at_file_at, Ef|].
  split; [apply (Hn q doc Ef)|exact Hdoc].
Qed.

Lemma stored_keys_NoDup this fs :
  store_state this fs -> wf_node fs -> digest_inv this fs -> distinct_slots this fs ->
  NoDup (stored_keys this fs).
Proof.
  intros Hs Hw Hd Hn. destruct (store_state_root _ _ Hs) as [es Hf].
  unfold stored_keys, shard_files. rewrite Hf.
  apply NoDup_flat_map.
  - apply (json_files_NoDup _ _ _ (le_n _)). eapply wf_find; eauto.
  - intros p Hp.
    destruct (listed_document this fs es p Hw Hf Hd Hn Hp) as (doc & -> & Hnd & Hdoc).
    cbn [records_of]. rewrite flat_map_key_fields.
    apply NoDup_flat_map.
    + eapply NoDup_map_inv; eauto.
    + intros e _. apply key_field_NoDup.
    + intros [d1 r1] [d2 r2] a H1 H2 Ha1 Ha2. cbn [snd] in *.
      destruct (Hdoc _ _ H1) as (k1 & v1 & n1 & -> & -> & _).
      destruct (Hdoc _ _ H2) as (k2 & v2 & n2 & -> & -> & _).
      rewrite key_field_record in Ha1, Ha2.
      destruct Ha1 as [<- | []]. destruct Ha2 as [Ek | []].
      injection Ek as ->.
      f_equal. eapply NoDup_fst_inj; eauto.
  - intros p1 p2 a Hp1 Hp2 Ha1 Ha2.
    destruct (listed_document this fs es p1 Hw Hf Hd Hn Hp1) as (doc1 & E1 & _ & Hdoc1).
    destruct (listed_document this fs es p2 Hw Hf Hd Hn Hp2) as (doc2 & E2 & _ & Hdoc2).
    rewrite E1 in Ha1. rewrite E2 in Ha2. cbn [records_of] in Ha1, Ha2.
    apply in_flat_map in Ha1 as (r1 & Hr1 & Ha1).
    apply in_flat_map in Ha2 as (r2 & Hr2 & Ha2).
    apply in_map_iff in Hr1 as ([d1 r1'] & <- & Hr1).
    apply in_map_iff in Hr2 as ([d2 r2'] & <- & Hr2).
    cbn [snd] in *.
    destruct (Hdoc1 _ _ Hr1) as (k1 & v1 & n1 & -> & _ & ->).
    destruct (Hdoc2 _ _ Hr2) as (k2 & v2 & n2 & -> & _ & ->).
    rewrite key_field_record in Ha1, Ha2.
    destruct Ha1 as [<- | []]. destruct Ha2 as [Ek | []].
    now injection Ek as ->.
Qed.

Lemma stored_holds this fs key :
  store_state this fs -> wf_node fs -> digest_inv this fs -> distinct_slots this fs ->
  In (JString key) (stored_keys this fs) -> exists value, holds this fs key value.
Proof.
  intros Hs Hw Hd Hn Hin. destruct (store_state_root _ _ Hs) as [es Hf].
  unfold stored_keys, shard_files in Hin. rewrite Hf in Hin.
  apply in_flat_map in Hin as (p & Hp & Hin).
  destruct (listed_document this fs es p Hw Hf Hd Hn Hp) as (doc & E & Hnd & Hdoc).
  rewrite E in Hin. cbn [records_of] in Hin.
  apply in_flat_map in Hin as (r & Hr & Hin).
  apply in_map_iff in Hr as ([d r'] & <- & Hr). cbn [snd] in Hin.
  destruct (Hdoc _ _ Hr) as (k & v & n & -> & -> & ->).
  rewrite key_field_record in Hin. destruct Hin as [Ek | []]. injection Ek as ->.
  exists v, n. unfold props_at. rewrite E. now apply In_assoc.
Qed.

(** X18. After any sequence of operations of the class on a well-formed
    disk whose root directory was empty, [keys] returns a list of strings
    without repetition, [length] its length; a key is listed exactly when
    it is not the empty string and the store holds a value for it, and
    [getItem] returns the value the store holds for a key. *)
Theorem keys_agree_with_getItem this fs0 ops :
  wf_node fs0 -> find fs0 (cachePath this) = Some (Dir []) ->
  let fs := run this ops fs0 in
  exists ks,
    keys this fs = (Ok ks, fs)
    /\ length this fs = (Ok (List.length ks), fs)
    /\ NoDup ks
    /\ (forall k, In k ks -> exists key, k = JString key)
    /\ (forall key,
          In (JString key) ks <-> key <> "" /\ exists value, holds this fs key value)
    /\ (forall key value,
          holds this fs key value ->
          getItem this (Val (JString key)) fs = (Ok (Val value), fs)).
Proof.
  intros Hw0 Hf0. cbv zeta.
  destruct (run_invariants this ops fs0) as (Hs & Hw & Hd & Hn).
  { split; [now apply store_state_fresh|]. split; [exact Hw0|].
    split; [now apply digest_inv_fresh|now apply distinct_slots_fresh]. }
  exists (filter nonempty (stored_keys this (run this ops fs0))).
  split; [now apply keys_store_state|].
  split; [apply length_eq; now apply keys_store_state|].
  split; [apply NoDup_filter; now apply stored_keys_NoDup|].
  split; [|split].
  - intros k Hk. apply filter_In in Hk as [Hk _].
    pose proof (stored_keys_strings this _ Hs Hw) as Hall.
    rewrite Forall_forall in Hall. now apply Hall.
  - intros key. rewrite filter_In, nonempty_string. split.
    + intros [Hin Hne]. split; [exact Hne|]. now apply stored_holds.
    + intros [Hne [value Hv]]. split; [|exact Hne].
      apply (holds_stored this _ key value Hw (proj1 Hs) Hv).
  - intros key value. apply holds_getItem.
Qed.

Lemma keys_agree_with_getItem_witness :
  exists ks,
    keys demo after_three_calls = (Ok ks, after_three_calls)
    /\ length demo after_three_calls = (Ok (List.length ks), after_three_calls)
    /\ NoDup ks
    /\ (forall k, In k ks -> exists key, k = JString key)
    /\ (forall key,
          In (JString key) ks
          <-> key <> "" /\ exists value, holds demo after_three_calls key value)
    /\ (forall key value,
          holds demo after_three_calls key value ->
          getItem demo (Val (JString key)) after_three_calls
          = (Ok (Val value), after_three_calls)).
Proof.
  apply (keys_agree_with_getItem demo fresh); vm_compute; reflexivity.
Defined.

End Agreement.

(* ------------------------------------------------------------------ *)
(** ** Setting a key that is there *)

Section Overwriting.

Import Js Fs Cache Store.
Local Open Scope fs_scope.
Implicit Types (this : JsonFileCache) (fs : node) (p q : path) (key : string)
  (value v old : json).

Lemma flat_map_set_entry {A B} (g : string * A -> list B) k (v v' : A) (l : list (string * A)) :
  assoc k l = Some v -> g (k, v') = g (k, v) ->
  flat_map g (set_entry k v' l) = flat_map g l.
Proof.
  intros Ha Hg. induction l as [|[k0 v0] l IH]; simpl in *; [discriminate|].
  destruct (String.eqb k k0) eqn:E.
  - apply String.eqb_eq in E. subst k0. injection Ha as ->. simpl. now rewrite Hg.
  - simpl. now rewrite IH.
Qed.

Lemma put_Dir es a r new : exists es', put (Dir es) (a :: r) new = Dir es'.
Proof.
  destruct r as [|b r]; [simpl; eauto|].
  rewrite put_cons2. destruct (assoc a es); eauto.
Qed.

(** Replacing the text of a file does not change the traversal. *)
Lemma json_files_put_file p : forall fs dp t t',
  find fs p = Some (File t) -> json_files dp (put fs p (File t')) = json_files dp fs.
Proof.
  induction p as [|name p IH]; intros fs dp t t' H.
  - simpl in H. injection H as ->. reflexivity.
  - destruct fs as [t0|es]; [discriminate|].
    rewrite find_cons in H. destruct (assoc name es) as [c|] eqn:Ea; [|discriminate].
    destruct p as [|a r].
    + simpl in H. injection H as ->.
      change (put (Dir es) [name] (File t')) with (Dir (set_entry name (File t') es)).
      rewrite !json_files_Dir. now apply (flat_map_set_entry _ _ _ _ _ Ea).
    + rewrite put_cons2, Ea, !json_files_Dir.
      apply (flat_map_set_entry _ _ _ _ _ Ea).
      unfold json_files_entry. cbn [fst snd].
      destruct c as [t1|es']; [discriminate|].
      destruct (put_Dir es' a r (File t')) as [es'' E]. rewrite E, <- E.
      now apply (IH _ _ t).
Qed.

Lemma find_put_below p : forall fs q n new,
  find fs p = Some n -> find (put fs (p ++ q) new) p = Some (put n q new).
Proof.
  induction p as [|a p IH]; intros fs q n new H.
  - simpl in H. injection H as ->. reflexivity.
  - destruct fs as [t|es]; [discriminate|].
    rewrite find_cons in H. destruct (assoc a es) as [c|] eqn:Ea; [|discriminate].
    change ((a :: p) ++ q) with (a :: (p ++ q)).
    destruct (p ++ q) as [|b r] eqn:Epq.
    + apply app_eq_nil in Epq as [-> ->]. simpl in H. injection H as ->.
      simpl. now rewrite assoc_set_entry_same.
    + rewrite put_cons2, Ea, find_cons, assoc_set_entry_same, <- Epq. now apply IH.
Qed.

(** [setItem] on a shard file that holds an object rewrites the file in
    place. *)
Lemma setItem_existing this fs key value now doc :
  kind_at fs (filePath (_getFilePath this key)) = Some (KFile (Serialized (JObject doc))) ->
  setItem this (Val (JString key)) value now fs
  = (Ok tt, put fs (filePath (_getFilePath this key))
              (File (Serialized (JObject (set_entry (_getMd5 key)
                                            (record key value now) doc))))).
Proof.
  intros Hk. rewrite setItem_unfold.
  rewrite ensureDir_existing.
  2:{ apply (file_at_folder this fs key (Serialized (JObject doc))).
      unfold file_at. now rewrite Hk. }
  unfold document_at. rewrite Hk. cbn [set_prop].
  unfold writeFileSync. unfold kind_at in Hk.
  destruct (find fs (filePath (_getFilePath this key))) as [[t|es]|]; try discriminate.
  reflexivity.
Qed.

(** X19. Setting a key that the store holds changes its value and nothing
    that [keys] or [length] return: in a store state on a well-formed disk
    [setItem] returns, [getItem] then returns the new value, and [keys]
    returns the same list, in the same order, before and after. *)
Theorem overwrite_keeps_keys this fs key old value now :
  store_state this fs -> wf_node fs -> holds this fs key old ->
  exists fs' ks,
    setItem this (Val (JString key)) value now fs = (Ok tt, fs')
    /\ getItem this (Val (JString key)) fs' = (Ok (Val value), fs')
    /\ keys this fs = (Ok ks, fs)
    /\ keys this fs' = (Ok ks, fs')
    /\ length this fs = (Ok (List.length ks), fs)
    /\ length this fs' = (Ok (List.length ks), fs').
Proof.
  intros Hs Hw Hh. destruct (holds_file _ _ _ _ Hh) as (doc & n0 & Hk & Ha).
  pose proof (setItem_existing this fs key value now doc Hk) as Es.
  set (fs' := put fs (filePath (_getFilePath this key))
                (File (Serialized (JObject (set_entry (_getMd5 key)
                                              (record key value now) doc))))) in *.
  assert (Hwr : wrote fs (filePath (_getFilePath this key))
                  (Serialized (JObject (set_entry (_getMd5 key)
                                          (record key value now) doc))) fs')
    by (eapply wrote_put_file; eauto).
  destruct (store_state_closed this (SetItem (Val (JString key)) value now) fs Hs Hw)
    as [Hs' Hw'].
  cbn [after] in Hs', Hw'. rewrite Es in Hs', Hw'. cbn [snd] in Hs', Hw'.
  assert (Hkeys : stored_keys this fs' = stored_keys this fs).
  { unfold stored_keys.
    assert (Hfiles : shard_files this fs' = shard_files this fs).
    { unfold shard_files. destruct (store_state_root _ _ Hs) as [es Hf].
      destruct (filePath_under_root this key) as [q Hq].
      unfold fs'. rewrite Hq, (find_put_below _ _ _ _ _ Hf), Hf.
      rewrite Hq, (kind_at_app _ _ _ _ Hf) in Hk. unfold kind_at in Hk.
      destruct (find (Dir es) q) as [[t|es0]|] eqn:Efq; try discriminate.
      apply (json_files_put_file _ _ _ t). exact Efq. }
    rewrite Hfiles. apply flat_map_ext. intros p.
    unfold document_at. rewrite (Hwr p).
    destruct (path_eq_dec p (filePath (_getFilePath this key))) as [->|Hne]; auto.
    rewrite Hk. cbn [records_of]. rewrite !flat_map_key_fields.
    apply (flat_map_set_entry _ _ _ _ _ Ha). reflexivity. }
  exists fs', (filter nonempty (stored_keys this fs)).
  split; [exact Es|]. split; [|split; [|split; [|split]]].
  - eapply (getItem_document this key fs' _ key value now).
    + apply (wrote_kind_at _ _ _ _ Hwr).
    + apply assoc_set_entry_same.
  - now apply keys_store_state.
  - rewrite <- Hkeys. now apply keys_store_state.
  - apply length_eq. now apply keys_store_state.
  - apply length_eq. rewrite <- Hkeys. now apply keys_store_state.
Qed.

Lemma overwrite_keeps_keys_witness :
  exists fs' ks,
    setItem demo (Val (JString "username")) (JString "lisi") 5 with_username = (Ok tt, fs')
    /\ getItem demo (Val (JString "username")) fs' = (Ok (Val (JString "lisi")), fs')
    /\ keys demo with_username = (Ok ks, with_username)
    /\ keys demo fs' = (Ok ks, fs')
    /\ length demo with_username = (Ok (List.length ks), with_username)
    /\ length demo fs' = (Ok (List.length ks), fs').
Proof.
  apply (overwrite_keeps_keys demo with_username "username" (JString "zhangsan")
           (JString "lisi") 5).
  - apply store_state_with_username.
  - vm_compute. reflexivity.
  - exists 1700000000000%Z. vm_compute. reflexivity.
Defined.

End Overwriting.

(* ------------------------------------------------------------------ *)
(** ** The store as a map from digests to records *)

Section Slots.

Import Js Fs Cache Store.
Local Open Scope fs_scope.
Implicit Types (this : JsonFileCache) (fs : node) (p q : path) (key : string)
  (value v old : json).

Lemma same_digest_same_file this k1 k2 :
  _getMd5 k1 = _getMd5 k2 ->
  filePath (_getFilePath this k1) = filePath (_getFilePath this k2).
Proof. intros E. unfold _getFilePath. now rewrite E. Qed.

Lemma same_digest_same_slot this fs k1 k2 :
  _getMd5 k1 = _getMd5 k2 -> slot this fs k1 = slot this fs k2.
Proof.
  intros E. unfold slot. now rewrite (same_digest_same_file this k1 k2 E), E.
Qed.

Lemma props_at_none fs p : kind_at fs p = None -> props_at fs p = [].
Proof. intros H. unfold props_at, document_at. now rewrite H. Qed.

Lemma props_at_same fs fs' p : kind_at fs' p = kind_at fs p -> props_at fs' p = props_at fs p.
Proof. intros H. unfold props_at, document_at. now rewrite H. Qed.

Lemma props_at_grown fs fs1 p0 p : grown fs p0 fs1 -> props_at fs1 p = props_at fs p.
Proof. intros Hg. unfold props_at. now rewrite (grown_document_at _ _ _ _ Hg). Qed.

(** [setItem] stores the record under the digest of the key and leaves the
    other slots as they are. *)
Lemma setItem_slots this fs key value now :
  store_state this fs ->
  exists fs',
    setItem this (Val (JString key)) value now fs = (Ok tt, fs')
    /\ forall k2,
         slot this fs' k2
         = if string_dec (_getMd5 k2) (_getMd5 key)
           then Some (record key value now) else slot this fs k2.
Proof.
  intros Hs. pose proof (store_state_usable this fs key Hs) as Hu.
  destruct (setItem_ok this fs key value now Hu) as (fs1 & fs' & Hg & Es & Hwr).
  exists fs'. split; [exact Es|]. intros k2.
  pose proof (props_at_kind _ _ _ (wrote_kind_at _ _ _ _ Hwr)) as Hp.
  destruct (string_dec (_getMd5 k2) (_getMd5 key)) as [E|E].
  - rewrite (same_digest_same_slot this fs' k2 key E). unfold slot. rewrite Hp.
    apply assoc_set_entry_same.
  - unfold slot.
    destruct (path_eq_dec (filePath (_getFilePath this k2))
                          (filePath (_getFilePath this key))) as [Ep|Ep].
    + rewrite Ep, Hp. apply assoc_set_entry_other. congruence.
    + f_equal. rewrite <- (props_at_grown fs fs1 _ _ Hg).
      apply props_at_same. rewrite (Hwr _).
      destruct (path_eq_dec _ _); [contradiction|reflexivity].
Qed.

(** [removeItem] empties the slot of the digest of the key and leaves the
    other slots as they are. *)
Lemma removeItem_slots this fs key :
  store_state this fs ->
  exists fs',
    removeItem this (Val (JString key)) fs = (Ok tt, fs')
    /\ forall k2,
         slot this fs' k2
         = if string_dec (_getMd5 k2) (_getMd5 key) then None else slot this fs k2.
Proof.
  intros Hs.
  destruct (store_state_document this fs key Hs) as (doc & Hdoc & Hrec).
  assert (Hprops : props_at fs (filePath (_getFilePath this key)) = doc)
    by (unfold props_at; now rewrite Hdoc).
  destruct (assoc (_getMd5 key) doc) as [r|] eqn:Ea.
  2:{ exists fs. split.
      - rewrite removeItem_unfold. cbv zeta. rewrite Hdoc. cbn [get_prop].
        rewrite Ea. destruct (kind_at fs _); reflexivity.
      - intros k2. destruct (string_dec _ _) as [E|E]; auto.
        rewrite (same_digest_same_slot this fs k2 key E). unfold slot.
        now rewrite Hprops. }
  assert (Hk : kind_at fs (filePath (_getFilePath this key))
               = Some (KFile (Serialized (JObject doc)))).
  { revert Hdoc. unfold document_at.
    destruct (kind_at fs _) as [[[raw|j]|]|];
      try (intros [= <-]; discriminate).
    now intros ->. }
  assert (Ht : truthy (Val r) = true).
  { apply assoc_In in Ea. rewrite Forall_forall in Hrec.
    destruct (Hrec _ Ea) as (k0 & v & now & Hr). simpl in Hr. now subst r. }
  assert (Hslots : forall fs' doc',
             props_at fs' (filePath (_getFilePath this key))
             = remove_entry (_getMd5 key) doc' -> doc' = doc ->
             (forall q, q <> filePath (_getFilePath this key) ->
                        kind_at fs' q = kind_at fs q) ->
             forall k2,
               slot this fs' k2
               = if string_dec (_getMd5 k2) (_getMd5 key) then None else slot this fs k2).
  { intros fs' doc' Hp' -> Hframe k2.
    destruct (string_dec (_getMd5 k2) (_getMd5 key)) as [E|E].
    - rewrite (same_digest_same_slot this fs' k2 key E). unfold slot. rewrite Hp'.
      apply assoc_remove_entry_same.
    - unfold slot.
      destruct (path_eq_dec (filePath (_getFilePath this k2))
                            (filePath (_getFilePath this key))) as [Ep|Ep].
      + rewrite Ep, Hp', Hprops. apply assoc_remove_entry_other. congruence.
      + f_equal. apply props_at_same. now apply Hframe. }
  destruct (remove_entry (_getMd5 key) doc) as [|e rest] eqn:Er.
  - destruct (removeItem_unlink this key fs doc r Hk Ea Ht Er) as (fs' & E & Hr).
    exists fs'. split; [exact E|].
    apply (Hslots fs' doc); auto.
    + rewrite Er. apply props_at_none. rewrite (Hr _).
      destruct (path_eq_dec _ _); [reflexivity|contradiction].
    + intros q Hq. rewrite (Hr q). destruct (path_eq_dec _ _); [contradiction|reflexivity].
  - destruct (removeItem_rewrite this key fs doc r Hk Ea Ht) as (fs' & E & Hw).
    { rewrite Er. discriminate. }
    exists fs'. split; [exact E|].
    apply (Hslots fs' doc); auto.
    + apply props_at_kind. apply (wrote_kind_at _ _ _ _ Hw).
    + intros q Hq. rewrite (Hw q). destruct (path_eq_dec _ _); [contradiction|reflexivity].
Qed.

End Slots.

(* ------------------------------------------------------------------ *)
(** ** How [setItem] and [removeItem] change [length] *)

Section Counting.

Import Js Fs Cache Store.
Local Open Scope fs_scope.
Implicit Types (this : JsonFileCache) (fs : node) (p q : path) (key : string)
  (value v old : json).

Lemma run_snoc this ops op fs0 :
  run this (ops ++ [op]) fs0 = after this op (run this ops fs0).
Proof. unfold run. now rewrite fold_left_app. Qed.

Lemma run_from_empty_root this ops fs0 :
  wf_node fs0 -> find fs0 (cachePath this) = Some (Dir []) ->
  store_state this (run this ops fs0) /\ wf_node (run this ops fs0)
  /\ digest_inv this (run this ops fs0) /\ distinct_slots this (run this ops fs0).
Proof.
  intros Hw Hf. apply run_invariants.
  split; [now apply store_state_fresh|]. split; [exact Hw|].
  split; [now apply digest_inv_fresh|now apply distinct_slots_fresh].
Qed.

(** What [keys] returns when the invariants hold. *)
Lemma listing this fs :
  store_state this fs /\ wf_node fs /\ digest_inv this fs /\ distinct_slots this fs ->
  keys this fs = (Ok (filter nonempty (stored_keys this fs)), fs)
  /\ NoDup (filter nonempty (stored_keys this fs))
  /\ (forall x, In x (filter nonempty (stored_keys this fs)) -> exists k, x = JString k)
  /\ (forall k,
        In (JString k) (filter nonempty (stored_keys this fs))
        <-> k <> "" /\ exists v n, slot this fs k = Some (record k v n)).
Proof.
  intros (Hs & Hw & Hd & Hn).
  split; [now apply keys_store_state|].
  split; [apply NoDup_filter; now apply stored_keys_NoDup|].
  split.
  - intros x Hx. apply filter_In in Hx as [Hx _].
    pose proof (stored_keys_strings this _ Hs Hw) as Hall.
    rewrite Forall_forall in Hall. now apply Hall.
  - intros k. rewrite filter_In, nonempty_string. split.
    + intros [Hin Hne]. split; [exact Hne|].
      destruct (stored_holds this fs k Hs Hw Hd Hn Hin) as (v & n & Hv). eauto.
    + intros [Hne (v & n & Hv)]. split; [|exact Hne].
      apply (holds_stored this fs k v Hw (proj1 Hs)). now exists n.
Qed.

Lemma length_of_added (ks ks' : list json) key :
  NoDup ks -> NoDup ks' ->
  (forall x, In x ks -> exists k, x = JString k) ->
  (forall x, In x ks' -> exists k, x = JString k) ->
  ~ In (JString key) ks ->
  (forall k, In (JString k) ks' <-> k = key \/ In (JString k) ks) ->
  List.length ks' = S (List.length ks).
Proof.
  intros Hnd Hnd' Hstr Hstr' Hni Hiff.
  change (S (List.length ks)) with (List.length (JString key :: ks)).
  apply Permutation_length, NoDup_Permutation; auto.
  - now constructor.
  - intros x. split.
    + intros Hx. destruct (Hstr' x Hx) as [k ->].
      apply Hiff in Hx as [-> | Hx]; [now left|now right].
    + intros [<- | Hx]; [apply Hiff; now left|].
      destruct (Hstr x Hx) as [k ->]. apply Hiff. now right.
Qed.

Lemma record_key_inj k1 v1 n1 k2 v2 n2 :
  record k1 v1 n1 = record k2 v2 n2 -> k1 = k2.
Proof. unfold record. congruence. Qed.

(** X20. After any sequence of operations on a well-formed disk whose root
    directory was empty, [setItem] of a key other than the empty string,
    under whose digest the store has no record, makes [length] one more
    than it was. *)
Theorem length_after_new_key this fs0 ops key value now :
  wf_node fs0 -> find fs0 (cachePath this) = Some (Dir []) ->
  key <> "" -> slot this (run this ops fs0) key = None ->
  exists fs' n,
    setItem this (Val (JString key)) value now (run this ops fs0) = (Ok tt, fs')
    /\ length this (run this ops fs0) = (Ok n, run this ops fs0)
    /\ length this fs' = (Ok (S n), fs').
Proof.
  intros Hw0 Hf0 Hne Hfree.
  pose proof (run_from_empty_root this ops fs0 Hw0 Hf0) as Hinv.
  pose proof (run_from_empty_root this (ops ++ [SetItem (Val (JString key)) value now])
                fs0 Hw0 Hf0) as Hinv'.
  rewrite run_snoc in Hinv'. cbn [after] in Hinv'.
  set (fs := run this ops fs0) in *.
  destruct (setItem_slots this fs key value now (proj1 Hinv)) as (fs' & Es & Hslot).
  rewrite Es in Hinv'. cbn [snd] in Hinv'.
  destruct (listing this fs Hinv) as (Ek & Hnd & Hstr & Hin).
  destruct (listing this fs' Hinv') as (Ek' & Hnd' & Hstr' & Hin').
  exists fs', (List.length (filter nonempty (stored_keys this fs))).
  split; [exact Es|]. split; [now apply length_eq|].
  rewrite <- (length_of_added _ (filter nonempty (stored_keys this fs')) key
                Hnd Hnd' Hstr Hstr').
  - now apply length_eq.
  - intros H. apply Hin in H as (_ & v & n & H). congruence.
  - intros k. rewrite Hin', Hin, (Hslot k).
    destruct (string_dec (_getMd5 k) (_getMd5 key)) as [E|E].
    + split.
      * intros (_ & v & n & H). left.
        symmetry. apply (record_key_inj key value now k v n). congruence.
      * intros [-> | (_ & v & n & H)]; [split; eauto|].
        rewrite (same_digest_same_slot this fs k key E) in H. congruence.
    + split; [now right|].
      intros [-> | H]; [congruence|exact H].
Qed.

Lemma length_after_new_key_witness :
  exists fs' n,
    setItem demo (Val (JString "city")) (JString "Beijing") 3 after_three_calls
    = (Ok tt, fs')
    /\ length demo after_three_calls = (Ok n, after_three_calls)
    /\ length demo fs' = (Ok (S n), fs').
Proof.
  apply (length_after_new_key demo fresh
           [SetItem (Val (JString "username")) (JString "zhangsan") 1;
            SetItem (Val (JString "key171")) (JNumber 1) 2;
            RemoveItem (Val (JString "username"))] "city" (JString "Beijing") 3).
  - vm_compute. reflexivity.
  - vm_compute. reflexivity.
  - discriminate.
  - vm_compute. reflexivity.
Defined.

(** X21. After any sequence of operations on a well-formed disk whose root
    directory was empty, [removeItem] of a key other than the empty string
    for which the store holds a value makes [length] one less than it was,
    and [keys] no longer lists the key. *)
Theorem length_after_remove this fs0 ops key old :
  wf_node fs0 -> find fs0 (cachePath this) = Some (Dir []) ->
  key <> "" -> holds this (run this ops fs0) key old ->
  exists fs' ks n,
    removeItem this (Val (JString key)) (run this ops fs0) = (Ok tt, fs')
    /\ length this (run this ops fs0) = (Ok (S n), run this ops fs0)
    /\ length this fs' = (Ok n, fs')
    /\ keys this fs' = (Ok ks, fs')
    /\ ~ In (JString key) ks.
Proof.
  intros Hw0 Hf0 Hne [n0 Hold].
  pose proof (run_from_empty_root this ops fs0 Hw0 Hf0) as Hinv.
  pose proof (run_from_empty_root this (ops ++ [RemoveItem (Val (JString key))])
                fs0 Hw0 Hf0) as Hinv'.
  rewrite run_snoc in Hinv'. cbn [after] in Hinv'.
  set (fs := run this ops fs0) in *.
  change (slot this fs key = Some (record key old n0)) in Hold.
  destruct (removeItem_slots this fs key (proj1 Hinv)) as (fs' & Er & Hslot).
  rewrite Er in Hinv'. cbn [snd] in Hinv'.
  destruct (listing this fs Hinv) as (Ek & Hnd & Hstr & Hin).
  destruct (listing this fs' Hinv') as (Ek' & Hnd' & Hstr' & Hin').
  assert (Hgone : ~ In (JString key) (filter nonempty (stored_keys this fs'))).
  { intros H. apply Hin' in H as (_ & v & n & H). rewrite (Hslot key) in H.
    destruct (string_dec _ _); [discriminate|congruence]. }
  exists fs', (filter nonempty (stored_keys this fs')),
         (List.length (filter nonempty (stored_keys this fs'))).
  split; [exact Er|].
  split; [|split; [now apply length_eq|split; [exact Ek'|exact Hgone]]].
  rewrite <- (length_of_added (filter nonempty (stored_keys this fs')) _ key
                Hnd' Hnd Hstr' Hstr Hgone).
  - now apply length_eq.
  - intros k. rewrite Hin', Hin, (Hslot k).
    destruct (string_dec (_getMd5 k) (_getMd5 key)) as [E|E].
    + split.
      * intros (_ & v & n & H). left.
        rewrite (same_digest_same_slot this fs k key E), Hold in H.
        symmetry. apply (record_key_inj key old n0 k v n). congruence.
      * intros [-> | (_ & v & n & H)]; [split; eauto|discriminate].
    + split; [now right|].
      intros [-> | H]; [congruence|exact H].
Qed.

Lemma length_after_remove_witness :
  exists fs' ks n,
    removeItem demo (Val (JString "key171")) after_three_calls = (Ok tt, fs')
    /\ length demo after_three_calls = (Ok (S n), after_three_calls)
    /\ length demo fs' = (Ok n, fs')
    /\ keys demo fs' = (Ok ks, fs')
    /\ ~ In (JString "key171") ks.
Proof.
  apply (length_after_remove demo fresh
           [SetItem (Val (JString "username")) (JString "zhangsan") 1;
            SetItem (Val (JString "key171")) (JNumber 1) 2;
            RemoveItem (Val (JString "username"))] "key171" (JNumber 1)).
  - vm_compute. reflexivity.
  - vm_compute. reflexivity.
  - discriminate.
  - exists 2%Z. vm_compute. reflexivity.
Defined.

End Counting.

(* ------------------------------------------------------------------ *)
(** ** The file helpers and the unused option *)

Section Helpers.

Import Js Fs Cache Store.
Local Open Scope fs_scope.
Implicit Types (this : JsonFileCache) (fs : node) (p q : path) (key : string)
  (value v old : json).

(** X22. [_writeFile] either throws a system error and leaves the disk as
    it is, or returns; then [_readFile] of the same path returns the value
    that [JSON.parse] reads from the text that [JSON.stringify] wrote, and
    no other path has changed.  For a value of the serialization format
    (every number a finite binary64 number) that value is the one written,
    with the sign of every zero dropped. *)
Theorem write_then_read p (data : jsdata) fs :
  (exists fs',
     _writeFile p data fs = (Ok tt, fs')
     /\ _readFile p fs' = (Ok (JSON_value data), fs')
     /\ (is_json_value data = true ->
         embed (JSON_value data) = positive_zeros data)
     /\ forall q, q <> p -> kind_at fs' q = kind_at fs q)
  \/ (exists code, _writeFile p data fs = (Throw (SystemError code), fs)).
Proof.
  rewrite writeFile_value.
  destruct (writeFileSync p (Serialized (JSON_value data)) fs) as [r fs'] eqn:E.
  destruct (writeFileSync_post _ _ _ _ _ E) as [(-> & Hw) | (-> & code & ->)].
  - left. exists fs'. split; [reflexivity|]. split; [|split].
    + rewrite readFile_eq. unfold document_at.
      now rewrite (wrote_kind_at _ _ _ _ Hw).
    + apply JSON_value_json.
    + intros q Hq. rewrite (Hw q). destruct (path_eq_dec q p); [contradiction|reflexivity].
  - right. eauto.
Qed.

(** X23. No method reads the [autoSave] option: an instance with the same
    [cachePath] and any value of the option computes the same result and
    the same disk in every method. *)
Theorem autoSave_is_not_read this b (k : jsval) value now fs :
  setItem (mkCache (cachePath this) b) k value now fs = setItem this k value now fs
  /\ getItem (mkCache (cachePath this) b) k fs = getItem this k fs
  /\ removeItem (mkCache (cachePath this) b) k fs = removeItem this k fs
  /\ clear (mkCache (cachePath this) b) fs = clear this fs
  /\ keys (mkCache (cachePath this) b) fs = keys this fs
  /\ length (mkCache (cachePath this) b) fs = length this fs.
Proof.
  destruct this as [root a]. cbn [cachePath].
  repeat split; reflexivity.
Qed.

End Helpers.

(* ------------------------------------------------------------------ *)
(** ** [setItem] and [removeItem] as updates of a map *)

Section Updates.

Import Js Fs Cache Store.
Local Open Scope fs_scope.
Implicit Types (this : JsonFileCache) (fs : node) (p q : path) (key : string)
  (value v old : json).

(** X24. In a store state [setItem] returns; afterwards the shard document
    of the key has, under the digest of the key, the record
    [{ key, value, timestamp }] with the time of the call, and under every
    other digest what it had before, in every shard. *)
Theorem set_updates_slots this fs key value now :
  store_state this fs ->
  exists fs',
    setItem this (Val (JString key)) value now fs = (Ok tt, fs')
    /\ slot this fs' key = Some (record key value now)
    /\ forall k2, _getMd5 k2 <> _getMd5 key -> slot this fs' k2 = slot this fs k2.
Proof.
  intros Hs. destruct (setItem_slots this fs key value now Hs) as (fs' & Es & Hslot).
  exists fs'. split; [exact Es|]. split.
  - rewrite (Hslot key). destruct (string_dec _ _); congruence.
  - intros k2 Hne. rewrite (Hslot k2). destruct (string_dec _ _); congruence.
Qed.

Lemma set_updates_slots_witness :
  exists fs',
    setItem demo (Val (JString "key171")) (JNumber 1) 2 with_username = (Ok tt, fs')
    /\ slot demo fs' "key171" = Some (record "key171" (JNumber 1) 2)
    /\ forall k2, _getMd5 k2 <> _getMd5 "key171" ->
                  slot demo fs' k2 = slot demo with_username k2.
Proof.
  apply (set_updates_slots demo with_username "key171" (JNumber 1) 2).
  apply store_state_with_username.
Defined.

(** X25. In a store state [removeItem] returns; afterwards the shard
    document of the key has nothing under the digest of the key, and under
    every other digest what it had before, in every shard. *)
Theorem remove_updates_slots this fs key :
  store_state this fs ->
  exists fs',
    removeItem this (Val (JString key)) fs = (Ok tt, fs')
    /\ slot this fs' key = None
    /\ forall k2, _getMd5 k2 <> _getMd5 key -> slot this fs' k2 = slot this fs k2.
Proof.
  intros Hs. destruct (removeItem_slots this fs key Hs) as (fs' & Er & Hslot).
  exists fs'. split; [exact Er|]. split.
  - rewrite (Hslot key). destruct (string_dec _ _); congruence.
  - intros k2 Hne. rewrite (Hslot k2). destruct (string_dec _ _); congruence.
Qed.

Lemma remove_updates_slots_witness :
  exists fs',
    removeItem demo (Val (JString "username")) with_username = (Ok tt, fs')
    /\ slot demo fs' "username" = None
    /\ forall k2, _getMd5 k2 <> _getMd5 "username" ->
                  slot demo fs' k2 = slot demo with_username k2.
Proof.
  apply (remove_updates_slots demo with_username "username").
  apply store_state_with_username.
Defined.

End Updates.

(* ------------------------------------------------------------------ *)
(** ** The store refines a map from digests to records *)

Section Refinement.

Import Js Fs Cache Store.
Local Open Scope fs_scope.
Implicit Types (this : JsonFileCache) (fs : node) (p q : path) (key : string)
  (value v old : json).

Lemma slot_file this fs key r :
  slot this fs key = Some r ->
  exists doc,
    kind_at fs (filePath (_getFilePath this key)) = Some (KFile (Serialized (JObject doc)))
    /\ assoc (_getMd5 key) doc = Some r.
Proof.
  unfold slot, props_at, document_at.
  destruct (kind_at fs (filePath (_getFilePath this key)))
    as [[[raw|[| | | | |doc]]|]|]; try discriminate.
  eauto.
Qed.

Lemma getItem_of_record this fs key k v n :
  slot this fs key = Some (record k v n) ->
  getItem this (Val (JString key)) fs = (Ok (Val v), fs).
Proof.
  intros H. destruct (slot_file _ _ _ _ H) as (doc & Hk & Ha).
  eapply getItem_document; eauto.
Qed.

Lemma getItem_of_empty_slot this fs key :
  store_state this fs -> slot this fs key = None ->
  getItem this (Val (JString key)) fs = (Ok (Val JNull), fs).
Proof.
  intros Hs H. destruct (store_state_document this fs key Hs) as (doc & Hdoc & _).
  unfold slot, props_at in H. rewrite Hdoc in H.
  rewrite getItem_eq, Hdoc. cbn [get_prop]. rewrite H.
  destruct (kind_at fs _); reflexivity.
Qed.

Lemma slot_empty_root this fs key :
  find fs (cachePath this) = Some (Dir []) -> slot this fs key = None.
Proof.
  intros Hf. unfold slot. rewrite props_at_none; [reflexivity|].
  destruct (getFilePath_shape this key)
    as (c0 & c1 & c2 & c3 & rest & _ & _ & _ & _ & _ & _ & Hp).
  rewrite Hp, (kind_at_app _ _ _ _ Hf). reflexivity.
Qed.

(** One operation on the disk is one operation on the map. *)
Lemma after_apply_op this op fs (m : string -> option json) :
  store_state this fs -> wf_node fs ->
  (forall key, slot this fs key = m (_getMd5 key)) ->
  forall key, slot this (after this op fs) key = apply_op m op (_getMd5 key).
Proof.
  intros Hs Hw Hm key.
  destruct op as [k value now|k|k| | |]; cbn [after apply_op].
  - destruct k as [|[| | |k| |]]; try apply Hm.
    destruct (setItem_slots this fs k value now Hs) as (fs' & Es & Hslot).
    rewrite Es. cbn [snd]. rewrite (Hslot key).
    destruct (string_dec _ _); auto.
  - rewrite getItem_state. apply Hm.
  - destruct k as [|[| | |k| |]]; try apply Hm.
    destruct (removeItem_slots this fs k Hs) as (fs' & Er & Hslot).
    rewrite Er. cbn [snd]. rewrite (Hslot key).
    destruct (string_dec _ _); auto.
  - destruct (store_state_root _ _ Hs) as [es Hf].
    rewrite (clear_ok this fs es Hf (wf_find _ _ _ Hw Hf)
               (store_state_root_dirs this fs es Hs Hw Hf)).
    cbn [snd]. apply slot_empty_root. eapply find_put_same; eauto.
  - rewrite readonly_keys. apply Hm.
  - rewrite readonly_length. apply Hm.
Qed.

Lemma run_refines this ops : forall fs (m : string -> option json),
  store_state this fs -> wf_node fs ->
  (forall key, slot this fs key = m (_getMd5 key)) ->
  store_state this (run this ops fs)
  /\ forall key, slot this (run this ops fs) key = fold_left apply_op ops m (_getMd5 key).
Proof.
  unfold run. induction ops as [|op ops IH]; intros fs m Hs Hw Hm; [now split|].
  cbn [fold_left].
  destruct (store_state_closed this op fs Hs Hw) as [Hs' Hw'].
  apply IH; auto. now apply after_apply_op.
Qed.

Lemma model_records ops : forall (m : string -> option json),
  (forall d r, m d = Some r -> is_record r) ->
  forall d r, fold_left apply_op ops m d = Some r -> is_record r.
Proof.
  induction ops as [|op ops IH]; intros m Hm; [exact Hm|].
  cbn [fold_left]. apply IH. intros d r.
  destruct op as [k value now|k|k| | |]; cbn [apply_op]; try apply Hm.
  - destruct k as [|[| | |k| |]]; try apply Hm.
    destruct (string_dec _ _); [|apply Hm].
    intros [= <-]. now exists k, value, now.
  - destruct k as [|[| | |k| |]]; try apply Hm.
    destruct (string_dec _ _); [discriminate|apply Hm].
  - discriminate.
Qed.

(** X26. The store refines a map from digests to records.  After any
    sequence of operations on a well-formed disk whose root directory was
    empty, what the shard document of a key has under the digest of the
    key is what the map has there, where [setItem] and [removeItem] of a
    string key update the entry of the digest, [clear] empties the map and
    every other call leaves it; and [getItem] returns the value of that
    record, or [null] when there is none. *)
Theorem store_refines_map this fs0 ops key :
  wf_node fs0 -> find fs0 (cachePath this) = Some (Dir []) ->
  slot this (run this ops fs0) key = model ops (_getMd5 key)
  /\ exists v,
       getItem this (Val (JString key)) (run this ops fs0)
       = (Ok (Val v), run this ops fs0)
       /\ match model ops (_getMd5 key) with
          | Some r => exists k n, r = record k v n
          | None => v = JNull
          end.
Proof.
  intros Hw Hf.
  destruct (run_refines this ops fs0 (fun _ => None)) as [Hs Hslot]; auto.
  { now apply store_state_fresh. }
  { intros k. now apply slot_empty_root. }
  fold (model ops) in Hslot. split; [apply Hslot|].
  pose proof (Hslot key) as Hk.
  destruct (model ops (_getMd5 key)) as [r|] eqn:Em.
  - destruct (model_records ops (fun _ => None)) with (d := _getMd5 key) (r := r)
      as (k & v & n & ->); [discriminate|exact Em|].
    exists v. split; [|eauto]. eapply getItem_of_record; eauto.
  - exists JNull. split; [|reflexivity]. now apply getItem_of_empty_slot.
Qed.

Lemma store_refines_map_witness :
  slot demo after_three_calls "key171"
  = model [SetItem (Val (JString "username")) (JString "zhangsan") 1;
           SetItem (Val (JString "key171")) (JNumber 1) 2;
           RemoveItem (Val (JString "username"))] (_getMd5 "key171")
  /\ exists v,
       getItem demo (Val (JString "key171")) after_three_calls
       = (Ok (Val v), after_three_calls)
       /\ match model [SetItem (Val (JString "username")) (JString "zhangsan") 1;
                       SetItem (Val (JString "key171")) (JNumber 1) 2;
                       RemoveItem (Val (JString "username"))] (_getMd5 "key171") with
          | Some r => exists k n, r = record k v n
          | None => v = JNull
          end.
Proof.
  apply (store_refines_map demo fresh
           [SetItem (Val (JString "username")) (JString "zhangsan") 1;
            SetItem (Val (JString "key171")) (JNumber 1) 2;
            RemoveItem (Val (JString "username"))] "key171");
    vm_compute; reflexivity.
Defined.

(** X27. The layout is kept.  After any sequence of operations on a
    well-formed disk whose root directory was empty, the root is a
    directory, below it there are only directories down to depth three and
    only files whose name ends in [.json] at depth four, each holding a
    document of records or text that does not parse, and no directory
    lists a name twice or an empty name. *)
Theorem layout_is_kept this fs0 ops :
  wf_node fs0 -> find fs0 (cachePath this) = Some (Dir []) ->
  wf_node (run this ops fs0)
  /\ kind_at (run this ops fs0) (cachePath this) = Some KDir
  /\ forall q k,
       q <> [] -> kind_at (run this ops fs0) (cachePath this ++ q) = Some k ->
       match k with
       | KDir => List.length q <= 3
       | KFile t =>
           List.length q = 4 /\ endsWith (last q "") ".json" = true /\ shard_text t
       end.
Proof.
  intros Hw Hf.
  destruct (run_from_empty_root this ops fs0 Hw Hf) as ([Hroot Hlay] & Hw' & _).
  split; [exact Hw'|]. split; [exact Hroot|exact Hlay].
Qed.

Lemma layout_is_kept_witness :
  wf_node after_three_calls
  /\ kind_at after_three_calls (cachePath demo) = Some KDir
  /\ forall q k,
       q <> [] -> kind_at after_three_calls (cachePath demo ++ q) = Some k ->
       match k with
       | KDir => List.length q <= 3
       | KFile t =>
           List.length q = 4 /\ endsWith (last q "") ".json" = true /\ shard_text t
       end.
Proof.
  apply (layout_is_kept demo fresh
           [SetItem (Val (JString "username")) (JString "zhangsan") 1;
            SetItem (Val (JString "key171")) (JNumber 1) 2;
            RemoveItem (Val (JString "username"))]);
    vm_compute; reflexivity.
Defined.

End Refinement.
